(** * GridModel: the power-flow facade of lightsim2grid

    A shallow embedding of [src/src/GridModel.h] and [src/src/GridModel.cpp]:
    the bus index mapper ([init_Ybus]), the bus classifier ([fillpv_pq]),
    the injection assembler ([fillSbus_me]), the snapshot pair
    ([get_state] / [set_state]), the solve drivers ([ac_pf], [dc_pf],
    [dc_pf_old]) and the setters the properties below talk about.

    Conventions of the embedding.
    - C++ [int] is [Z].  Every [int] of these functions is a bus, generator
      or storage index, or a counter bounded by a vector length, so no
      arithmetic leaves the range of [int].
    - [real_type] / [double] is carried by the real numbers [R]; a complex
      number is a pair (real part, imaginary part).  The facade itself adds
      and subtracts doubles in one place, the slack correction of
      [fillSbus_me]; that code is embedded over the operations of the
      number type ([DoubleArith]), which round.  On [R] these operations
      are parameters, and the same definition runs on binary64 itself.
    - [std::vector] and Eigen dense vectors are lists.  Reading or writing
      outside a vector is undefined behaviour in C++; the embedding makes
      it the outcome [Throw UndefinedBehaviour] so that no theorem can rely
      on it.
    - A member function is a function from the object to an outcome and the
      object afterwards: an exception leaves the members as they were when
      it was thrown. *)

From Stdlib Require Import PrimFloat.
From Stdlib Require Import ZArith List Bool Reals Lra Lia Sorted.
From stdpp Require Import base list.
Import ListNotations.
Open Scope Z_scope.

(** ** Numbers *)

Abbreviation real_type := R (only parsing).
Abbreviation cplx_type := (R * R)%type (only parsing).
Abbreviation RealVect := (list R) (only parsing).
Abbreviation CplxVect := (list (R * R)) (only parsing).

Definition Creal (z : cplx_type) : real_type := fst z.
Definition Cimag (z : cplx_type) : real_type := snd z.
Definition Czero : cplx_type := (0%R, 0%R).
Definition Cadd (a b : cplx_type) : cplx_type :=
  ((Creal a + Creal b)%R, (Cimag a + Cimag b)%R).
(** [x * (cos a + my_i * sin a)] for reals [x] and [a]. *)
Definition Cpolar (x a : real_type) : cplx_type := ((x * cos a)%R, (x * sin a)%R).


(** ** The arithmetic of [double]

    What C++ computes for [x + y] and [x - y] on doubles: the result
    rounded to binary64. *)
Class DoubleArith (T : Type) := {
  dbl_zero : T;
  dbl_add : T -> T -> T;
  dbl_sub : T -> T -> T }.

(** binary64 as the processor computes it. *)
#[global] Instance binary64 : DoubleArith float := {|
  dbl_zero := 0%float;
  dbl_add := PrimFloat.add;
  dbl_sub := PrimFloat.sub |}.

(** An arithmetic on [R] that never rounds; binary64 agrees with it as long
    as every sum and difference is a binary64 number, as with small
    integers. *)
Definition exact_arith : DoubleArith R := {|
  dbl_zero := 0%R;
  dbl_add := Rplus;
  dbl_sub := Rminus |}.

Section Complex.
Context {T : Type} `{!DoubleArith T}.

(** [a + b] on [std::complex<double>]. *)
Definition Cadd_dbl (a b : T * T) : T * T :=
  (dbl_add (fst a) (fst b), dbl_add (snd a) (snd b)).

(** [z -= x] for a complex [z] and a double [x]: the real part only. *)
Definition Csub_real (z : T * T) (x : T) : T * T := (dbl_sub (fst z) x, snd z).

(** [res.sum()] of an Eigen complex vector: 0 for the empty vector, and
    otherwise the entries added one after the other, from the first.
    (A vectorised build of Eigen may add them in another order; two
    entries can only be added in one.) *)
Definition Csum (v : list (T * T)) : T * T :=
  match v with
  | [] => (dbl_zero, dbl_zero)
  | z :: v' => fold_left Cadd_dbl v' z
  end.
End Complex.

(** ** Outcomes *)

(** The failure kinds of the facade.  The C++ code throws
    [std::runtime_error] with a message; the constructor carries the kind
    the message belongs to. *)
Inductive error : Set :=
| InputSizeMismatch          (* "Size of the Vinit should be the same as the total number of buses ..." *)
| SlackDisconnected          (* "The slack bus is disconnected." *)
| SlackInvalid               (* "Slack bus should be an id of a generator ..." *)
| DisconnectedBusReferenced  (* "One bus is connected in GridModel and disconnected in Solver", ... *)
| UndefinedBehaviour.        (* not an exception: an access outside a vector *)

Inductive outcome (A : Type) : Type :=
| Ok (a : A)
| Throw (e : error).
Arguments Ok {A} a.
Arguments Throw {A} e.

#[global] Instance outcome_ret : MRet outcome := fun A a => Ok a.
#[global] Instance outcome_bind : MBind outcome := fun A B f x =>
  match x with
  | Ok a => f a
  | Throw e => Throw e
  end.

Definition is_ok {A} (o : outcome A) : bool :=
  match o with Ok _ => true | Throw _ => false end.

(** ** Vectors indexed by [int] *)

Definition _deactivated_bus_id : Z := -1.

Definition vec_size {A} (v : list A) : Z := Z.of_nat (length v).

(** [v[i]] as an rvalue. *)
Definition vec_get {A} (v : list A) (i : Z) : outcome A :=
  if (0 <=? i) then
    match v !! Z.to_nat i with
    | Some x => Ok x
    | None => Throw UndefinedBehaviour
    end
  else Throw UndefinedBehaviour.

(** [v[i] = x]. *)
Definition vec_set {A} (v : list A) (i : Z) (x : A) : outcome (list A) :=
  if (0 <=? i) && (i <? vec_size v)
  then Ok (<[Z.to_nat i := x]> v)
  else Throw UndefinedBehaviour.

(** [for (int i = 0; i < n; ++i) body(i)] over a local state [S]; a
    [continue] is a body that returns its state unchanged. *)
Fixpoint for_loop_from {S} (i : Z) (count : nat) (body : Z -> S -> outcome S) (s : S)
  : outcome S :=
  match count with
  | O => Ok s
  | Datatypes.S count' =>
      s' ← body i s; for_loop_from (i + 1) count' body s'
  end.

Definition for_loop {S} (n : Z) (body : Z -> S -> outcome S) (s : S) : outcome S :=
  for_loop_from 0 (Z.to_nat n) body s.

(** [for (const auto & el : v) body(el)]. *)
Fixpoint for_each {A S} (v : list A) (body : A -> S -> outcome S) (s : S) : outcome S :=
  match v with
  | [] => Ok s
  | x :: v' => s' ← body x s; for_each v' body s'
  end.

(** ** Sparse matrices

    A sparse matrix is its shape and its stored coefficients, in the order
    in which Eigen's inner iterators visit them. *)

Record Triplet (A : Type) : Type := mkTriplet { t_row : Z; t_col : Z; t_value : A }.
Arguments mkTriplet {A} _ _ _.
Arguments t_row {A} _.
Arguments t_col {A} _.
Arguments t_value {A} _.

Record SparseMatrix (A : Type) : Type :=
  mkSparse { sm_rows : Z; sm_cols : Z; sm_coeffs : list (Triplet A) }.
Arguments mkSparse {A} _ _ _.
Arguments sm_rows {A} _.
Arguments sm_cols {A} _.
Arguments sm_coeffs {A} _.

(** [Eigen::SparseMatrix<T>()] and [Eigen::SparseMatrix<T>(n, n)]. *)
Definition sparse_empty {A} : SparseMatrix A := mkSparse 0 0 [].
Definition sparse_zero {A} (n : Z) : SparseMatrix A := mkSparse n n [].

(** ** Grid elements

    Modelled from the spec: the element classes (DataLine.h, DataShunt.h,
    DataTrafo.h, DataLoad.h, DataGen.h, DataSGen.h, DataGeneric.h) are not
    among the sources.  The attributes are those of section 3 of the
    specification; the storage units are a [DataLoad], as [GridModel.h]
    declares them. *)

Record Line := mkLine {
  line_from : Z; line_to : Z;
  line_r : real_type; line_x : real_type; line_h : cplx_type;
  line_status : bool }.

Record Trafo := mkTrafo {
  trafo_hv : Z; trafo_lv : Z;
  trafo_r : real_type; trafo_x : real_type; trafo_b : cplx_type;
  trafo_tap_pos : real_type; trafo_tap_step_pct : real_type;
  trafo_shift_degree : real_type; trafo_tap_hv : bool;
  trafo_status : bool }.

Record Shunt := mkShunt {
  shunt_bus : Z; shunt_p_mw : real_type; shunt_q_mvar : real_type; shunt_status : bool }.

Record PQElt := mkPQElt {
  pq_bus : Z; pq_p_mw : real_type; pq_q_mvar : real_type; pq_status : bool }.

Record Gen := mkGen {
  gen_bus : Z; gen_p_mw : real_type; gen_vm_pu : real_type;
  gen_min_q : real_type; gen_max_q : real_type; gen_status : bool }.

Record SGen := mkSGen {
  sgen_bus : Z; sgen_p_mw : real_type; sgen_q_mvar : real_type;
  sgen_p_min : real_type; sgen_p_max : real_type;
  sgen_q_min : real_type; sgen_q_max : real_type; sgen_status : bool }.

(** Per-element results: [tuple3d] is (P, Q, V), [tuple4d] is (P, Q, V, A). *)
Abbreviation tuple3d := (list R * list R * list R)%type (only parsing).
Abbreviation tuple4d := (list R * list R * list R * list R)%type (only parsing).
Definition empty3d : tuple3d := ([], [], []).
Definition empty4d : tuple4d := ([], [], [], []).

(** Modelled from the spec: the element stamping contract of section 4.1.
    What an element family contributes to Y and S and what the projector
    computes from the solved voltages is arithmetic of the element classes;
    the facade only calls it. *)
Class ElementModel (E Res : Type) := {
  stamp_Y : list E -> bool -> list Z -> list (Triplet (R * R)) ->
            outcome (list (Triplet (R * R)));
  stamp_S : list E -> bool -> list Z -> list (R * R) -> outcome (list (R * R));
  project : list E -> list R -> list R -> list (R * R) -> list Z -> list R -> Res;
  p_slack : list E -> Res -> Z -> R;
  q_by_bus : list E -> Res -> list R -> list R }.

(** The solver selection.  Modelled from the spec (section 4.8: "solver
    selection (AC method variant, DC)"); ChooseSolver.h is not among the
    sources. *)
Inductive SolverType : Set :=
| AC (variant : nat)
| DC.

(** What the solver keeps from a solve (section 4.5: V, theta, |V|, the
    final Jacobian, the iteration count and the computation time). *)
Record SolverResults := mkSolverResults {
  sol_V : CplxVect; sol_Va : RealVect; sol_Vm : RealVect;
  sol_J : SparseMatrix R; sol_nb_iter : Z; sol_time : real_type }.

Definition no_results : SolverResults := mkSolverResults [] [] [] sparse_empty 0 0%R.

(** Everything numeric that the facade delegates: the element models, the
    generator bookkeeping, the solvers behind [ChooseSolver], the Eigen
    routines, and the rounding of the additions and subtractions it makes
    itself.  These are parameters of the development; no property below
    depends on what they compute. *)
Class Externals := {
  line_model :: ElementModel Line (tuple4d * tuple4d);
  shunt_model :: ElementModel Shunt tuple3d;
  trafo_model :: ElementModel Trafo (tuple4d * tuple4d);
  load_model :: ElementModel PQElt tuple3d;
  gen_model :: ElementModel Gen tuple3d;
  (* DataGen *)
  ext_init_q_vector : list Gen -> Z -> list (R * R * Z);
  ext_set_vm : list Gen -> list (R * R) -> list Z -> outcome (list (R * R));
  ext_set_p_slack : list Gen -> tuple3d -> Z -> R -> tuple3d;
  ext_set_q : list Gen -> list (R * R * Z) -> tuple3d -> list R -> tuple3d;
  (* ChooseSolver / BaseSolver::compute_pf *)
  ext_compute_pf : SolverType -> SolverResults ->
                   SparseMatrix (R * R) -> list (R * R) -> list (R * R) ->
                   list Z -> list Z -> Z -> R -> bool * SolverResults;
  (* Eigen *)
  setFromTriplets_cplx : Z -> Z -> list (Triplet (R * R)) -> list (Triplet (R * R));
  setFromTriplets_real : Z -> Z -> list (Triplet R) -> list (Triplet R);
  SparseLU_factorize : SparseMatrix R -> bool;
  SparseLU_solve : SparseMatrix R -> list R -> option (list R);
  (* std::arg *)
  Carg : R * R -> R;
  (* the rounding of double arithmetic *)
  double_arith :: DoubleArith R }.

(** How a family's result vectors look once cleared
    ([res_p_ = Eigen::VectorXd()], and so on). *)
Class ResultStore (Res : Type) := cleared : Res.
#[global] Instance vector_store {A} : ResultStore (list A) := [].
#[global] Instance pair_store {A B} `{!ResultStore A, !ResultStore B} : ResultStore (A * B) :=
  (cleared, cleared).

(** An element collection: the elements, and the results of the last
    projection. *)
Record Collection (E Res : Type) : Type :=
  mkCollection { elems : list E; results : Res }.
Arguments mkCollection {E Res} _ _.
Arguments elems {E Res} _.
Arguments results {E Res} _.

Abbreviation DataLine := (Collection Line ((list R * list R * list R * list R) *
                                            (list R * list R * list R * list R))).
Abbreviation DataTrafo := (Collection Trafo ((list R * list R * list R * list R) *
                                              (list R * list R * list R * list R))).
Abbreviation DataShunt := (Collection Shunt (list R * list R * list R)).
Abbreviation DataLoad := (Collection PQElt (list R * list R * list R)).
Abbreviation DataSGen := (Collection SGen (list R * list R * list R)).

(** The operations every element collection has.  Modelled from the spec
    (section 4.1); DataGeneric.h is not among the sources. *)
Module DataGeneric.
Section Methods.
Context {E Res : Type} `{!ElementModel E Res} `{!ResultStore Res}.
Implicit Type d : Collection E Res.

Definition nb d : Z := vec_size (elems d).

(** The collection's own serialization: its elements, without results. *)
Definition get_state d : list E := elems d.
Definition set_state d (my_state : list E) : Collection E Res :=
  mkCollection my_state (results d).

Definition fillYbus d (res : list (Triplet (R * R))) (ac : bool)
           (id_grid_to_solver : list Z) : outcome (list (Triplet (R * R))) :=
  stamp_Y (elems d) ac id_grid_to_solver res.

Definition fillSbus d (Sbus : CplxVect) (ac : bool) (id_grid_to_solver : list Z)
  : outcome CplxVect :=
  stamp_S (elems d) ac id_grid_to_solver Sbus.

(** Only generators classify buses; every other family keeps the
    default, which does nothing. *)
Definition fillpv d (bus_pv : list Z) (has_bus_been_added : list bool)
           (slack_bus_id_solver : Z) (id_grid_to_solver : list Z)
  : outcome (list Z * list bool) :=
  Ok (bus_pv, has_bus_been_added).

Definition compute_results d (Va Vm : RealVect) (V : CplxVect)
           (id_grid_to_solver : list Z) (bus_vn_kv : RealVect) : Collection E Res :=
  mkCollection (elems d) (project (elems d) Va Vm V id_grid_to_solver bus_vn_kv).

Definition reset_results d : Collection E Res := mkCollection (elems d) cleared.

Definition get_p_slack d (slack_bus_id : Z) : real_type :=
  p_slack (elems d) (results d) slack_bus_id.

Definition get_q d (q_by_bus_acc : list R) : list R :=
  q_by_bus (elems d) (results d) q_by_bus_acc.
End Methods.
End DataGeneric.

(** Loads and storage units.  Modelled from the spec (section 4.8,
    "continuous mutations (change P/Q/V setpoints)" and section 3, "each
    mutation flips a dirty flag"); DataLoad.h is not among the sources. *)
Module DataLoad.
Definition with_p (el : PQElt) (new_p : real_type) : PQElt :=
  mkPQElt (pq_bus el) new_p (pq_q_mvar el) (pq_status el).

(** [change_p(load_id, new_p, need_reset)]: the new collection and the
    new value of the flag passed by reference. *)
Definition change_p (d : DataLoad) (load_id : Z) (new_p : real_type) (need_reset : bool)
  : outcome (DataLoad * bool) :=
  el ← vec_get (elems d) load_id;
  els ← vec_set (elems d) load_id (with_p el new_p);
  Ok (mkCollection els (results d), true).
End DataLoad.

(** Generators.  Modelled from the spec; DataGen.h is not among the
    sources.
    - [get_slack_bus_id]: section 3, "a single generator id is designated
      slack; its bus becomes the slack bus", and section 7, "SlackInvalid:
      slack generator id out of range or inactive".
    - [fillpv]: section 4.1, "for generators, mark their bus as PV unless
      it is the slack bus", with the [already_classified] flags.
    - [fillSbus]: section 3, "contributes +P to S at its bus", and "an
      element connected to a disconnected bus is a modelling error caught
      at assembly time" (section 7, DisconnectedBusReferenced).
    - [get_vm_for_dc]: section 4.6, "|V| returned ... as the generator
      voltage setpoint on PV/slack buses". *)
Module DataGen.
Record t := mk {
  gens : list Gen;
  res : list R * list R * list R;
  q_vector : list (R * R * Z) }.

Definition nb (d : t) : Z := vec_size (gens d).

Definition get_state (d : t) : list Gen := gens d.
Definition set_state (d : t) (my_state : list Gen) : t :=
  mk my_state (res d) (q_vector d).

Definition get_slack_bus_id (d : t) (gen_id : Z) : outcome Z :=
  if (0 <=? gen_id) && (gen_id <? nb d) then
    g ← vec_get (gens d) gen_id;
    if gen_status g then Ok (gen_bus g) else Throw SlackInvalid
  else Throw SlackInvalid.

Definition fillpv_one (slack_bus_id_solver : Z) (id_grid_to_solver : list Z)
           (g : Gen) (st : list Z * list bool) : outcome (list Z * list bool) :=
  let '(bus_pv, has_bus_been_added) := st in
  if negb (gen_status g) then Ok st else
  bus_id_solver ← vec_get id_grid_to_solver (gen_bus g);
  if bus_id_solver =? _deactivated_bus_id then Throw DisconnectedBusReferenced else
  if bus_id_solver =? slack_bus_id_solver then Ok st else
  added ← vec_get has_bus_been_added bus_id_solver;
  if (added : bool) then Ok st else
  has_bus_been_added' ← vec_set has_bus_been_added bus_id_solver true;
  Ok (bus_pv ++ [bus_id_solver], has_bus_been_added').

Definition fillpv (d : t) (bus_pv : list Z) (has_bus_been_added : list bool)
           (slack_bus_id_solver : Z) (id_grid_to_solver : list Z)
  : outcome (list Z * list bool) :=
  for_each (gens d) (fillpv_one slack_bus_id_solver id_grid_to_solver)
           (bus_pv, has_bus_been_added).

Definition fillSbus_one (id_grid_to_solver : list Z) (g : Gen) (Sbus : CplxVect)
  : outcome CplxVect :=
  if negb (gen_status g) then Ok Sbus else
  bus_id_solver ← vec_get id_grid_to_solver (gen_bus g);
  if bus_id_solver =? _deactivated_bus_id then Throw DisconnectedBusReferenced else
  s ← vec_get Sbus bus_id_solver;
  vec_set Sbus bus_id_solver (Cadd s (gen_p_mw g, 0%R)).

Definition fillSbus (d : t) (Sbus : CplxVect) (ac : bool) (id_grid_to_solver : list Z)
  : outcome CplxVect :=
  for_each (gens d) (fillSbus_one id_grid_to_solver) Sbus.

Definition get_vm_for_dc_one (g : Gen) (Vm : RealVect) : outcome RealVect :=
  if negb (gen_status g) then Ok Vm else vec_set Vm (gen_bus g) (gen_vm_pu g).

Definition get_vm_for_dc (d : t) (Vm : RealVect) : outcome RealVect :=
  for_each (gens d) get_vm_for_dc_one Vm.

Definition reset_results (d : t) : t := mk (gens d) cleared (q_vector d).

Section Delegated.
Context `{Externals}.

Definition fillYbus (d : t) (res : list (Triplet (R * R))) (ac : bool)
           (id_grid_to_solver : list Z) : outcome (list (Triplet (R * R))) :=
  stamp_Y (gens d) ac id_grid_to_solver res.

Definition init_q_vector (d : t) (nb_bus : Z) : t :=
  mk (gens d) (res d) (ext_init_q_vector (gens d) nb_bus).

(** [set_vm(V, id_grid_to_solver)] writes into [V]. *)
Definition set_vm (d : t) (V : CplxVect) (id_grid_to_solver : list Z) : outcome CplxVect :=
  ext_set_vm (gens d) V id_grid_to_solver.

Definition compute_results (d : t) (Va Vm : RealVect) (V : CplxVect)
           (id_grid_to_solver : list Z) (bus_vn_kv : RealVect) : t :=
  mk (gens d) (project (gens d) Va Vm V id_grid_to_solver bus_vn_kv) (q_vector d).

Definition set_p_slack (d : t) (gen_slackbus : Z) (p_slack : real_type) : t :=
  mk (gens d) (ext_set_p_slack (gens d) (res d) gen_slackbus p_slack) (q_vector d).

Definition set_q (d : t) (q_by_bus : list R) : t :=
  mk (gens d) (ext_set_q (gens d) (q_vector d) (res d) q_by_bus) (q_vector d).
End Delegated.
End DataGen.

(** The solver holder.  Modelled from the spec (sections 4.5, 4.8 and 5:
    the solver owns its iterate and Jacobian, "cleared on reset");
    ChooseSolver.h is not among the sources. *)
Module ChooseSolver.
Record t := mk { solver_type : SolverType; solver_results : SolverResults }.

Definition get_type (s : t) : SolverType := solver_type s.
Definition change_solver (s : t) (type : SolverType) : t := mk type (solver_results s).
Definition reset (s : t) : t := mk (solver_type s) no_results.
Definition get_V (s : t) : CplxVect := sol_V (solver_results s).
Definition get_Va (s : t) : RealVect := sol_Va (solver_results s).
Definition get_Vm (s : t) : RealVect := sol_Vm (solver_results s).

(** [compute_pf] runs the selected solver; the holder keeps its
    selection and stores what the solver computed. *)
Definition compute_pf `{Externals} (s : t) (Ybus : SparseMatrix (R * R))
           (V Sbus : CplxVect) (pv pq : list Z) (max_iter : Z) (tol : real_type)
  : bool * t :=
  let '(conv, r) := ext_compute_pf (solver_type s) (solver_results s)
                                   Ybus V Sbus pv pq max_iter tol in
  (conv, mk (solver_type s) r).
End ChooseSolver.

(** ** The grid model *)

(** The attributes that speed up the grid2op backend ([n_sub_], the
    positions in the topology vector and the substation of each element).
    No function below reads or writes them. *)
Record Grid2opAttrs := mkGrid2opAttrs {
  n_sub_ : Z;
  load_pos_topo_vect_ : list Z; gen_pos_topo_vect_ : list Z;
  line_or_pos_topo_vect_ : list Z; line_ex_pos_topo_vect_ : list Z;
  trafo_hv_pos_topo_vect_ : list Z; trafo_lv_pos_topo_vect_ : list Z;
  storage_pos_topo_vect_ : list Z;
  load_to_subid_ : list Z; gen_to_subid_ : list Z;
  line_or_to_subid_ : list Z; line_ex_to_subid_ : list Z;
  trafo_hv_to_subid_ : list Z; trafo_lv_to_subid_ : list Z;
  storage_to_subid_ : list Z }.

(** The members of [class GridModel], in the order of [GridModel.h]. *)
Record GridModel := mkGridModel {
  (* member of the grid *)
  need_reset_ : bool;
  compute_results_ : bool;
  init_vm_pu_ : real_type;
  sn_mva_ : real_type;
  (* 1. bus *)
  bus_vn_kv_ : RealVect;
  bus_status_ : list bool;
  id_me_to_solver_ : list Z;
  id_solver_to_me_ : list Z;
  (* 2. to 7. the element collections *)
  powerlines_ : DataLine;
  shunts_ : DataShunt;
  trafos_ : DataTrafo;
  generators_ : DataGen.t;
  loads_ : DataLoad;
  sgens_ : DataSGen;
  storages_ : DataLoad;
  (* 8. slack bus *)
  gen_slackbus_ : Z;
  slack_bus_id_ : Z;
  slack_bus_id_solver_ : Z;
  (* as matrix, for the solver; ids are the solver's *)
  Ybus_ : SparseMatrix (R * R);
  Sbus_ : CplxVect;
  bus_pv_ : list Z;
  bus_pq_ : list Z;
  (* to solve the newton raphson *)
  _solver : ChooseSolver.t;
  (* specific grid2op *)
  grid2op_ : Grid2opAttrs }.

(** Assignment to one member. *)
Definition set_need_reset (v : bool) (m : GridModel) : GridModel :=
  mkGridModel v (compute_results_ m) (init_vm_pu_ m) (sn_mva_ m) (bus_vn_kv_ m)
    (bus_status_ m) (id_me_to_solver_ m) (id_solver_to_me_ m) (powerlines_ m)
    (shunts_ m) (trafos_ m) (generators_ m) (loads_ m) (sgens_ m) (storages_ m)
    (gen_slackbus_ m) (slack_bus_id_ m) (slack_bus_id_solver_ m) (Ybus_ m) (Sbus_ m)
    (bus_pv_ m) (bus_pq_ m) (_solver m) (grid2op_ m).
Definition set_compute_results (v : bool) (m : GridModel) : GridModel :=
  mkGridModel (need_reset_ m) v (init_vm_pu_ m) (sn_mva_ m) (bus_vn_kv_ m)
    (bus_status_ m) (id_me_to_solver_ m) (id_solver_to_me_ m) (powerlines_ m)
    (shunts_ m) (trafos_ m) (generators_ m) (loads_ m) (sgens_ m) (storages_ m)
    (gen_slackbus_ m) (slack_bus_id_ m) (slack_bus_id_solver_ m) (Ybus_ m) (Sbus_ m)
    (bus_pv_ m) (bus_pq_ m) (_solver m) (grid2op_ m).
Definition set_bus_vn_kv (v : RealVect) (m : GridModel) : GridModel :=
  mkGridModel (need_reset_ m) (compute_results_ m) (init_vm_pu_ m) (sn_mva_ m) v
    (bus_status_ m) (id_me_to_solver_ m) (id_solver_to_me_ m) (powerlines_ m)
    (shunts_ m) (trafos_ m) (generators_ m) (loads_ m) (sgens_ m) (storages_ m)
    (gen_slackbus_ m) (slack_bus_id_ m) (slack_bus_id_solver_ m) (Ybus_ m) (Sbus_ m)
    (bus_pv_ m) (bus_pq_ m) (_solver m) (grid2op_ m).
Definition set_bus_status (v : list bool) (m : GridModel) : GridModel :=
  mkGridModel (need_reset_ m) (compute_results_ m) (init_vm_pu_ m) (sn_mva_ m)
    (bus_vn_kv_ m) v (id_me_to_solver_ m) (id_solver_to_me_ m) (powerlines_ m)
    (shunts_ m) (trafos_ m) (generators_ m) (loads_ m) (sgens_ m) (storages_ m)
    (gen_slackbus_ m) (slack_bus_id_ m) (slack_bus_id_solver_ m) (Ybus_ m) (Sbus_ m)
    (bus_pv_ m) (bus_pq_ m) (_solver m) (grid2op_ m).
Definition set_id_me_to_solver (v : list Z) (m : GridModel) : GridModel :=
  mkGridModel (need_reset_ m) (compute_results_ m) (init_vm_pu_ m) (sn_mva_ m)
    (bus_vn_kv_ m) (bus_status_ m) v (id_solver_to_me_ m) (powerlines_ m) (shunts_ m)
    (trafos_ m) (generators_ m) (loads_ m) (sgens_ m) (storages_ m) (gen_slackbus_ m)
    (slack_bus_id_ m) (slack_bus_id_solver_ m) (Ybus_ m) (Sbus_ m) (bus_pv_ m)
    (bus_pq_ m) (_solver m) (grid2op_ m).
Definition set_id_solver_to_me (v : list Z) (m : GridModel) : GridModel :=
  mkGridModel (need_reset_ m) (compute_results_ m) (init_vm_pu_ m) (sn_mva_ m)
    (bus_vn_kv_ m) (bus_status_ m) (id_me_to_solver_ m) v (powerlines_ m) (shunts_ m)
    (trafos_ m) (generators_ m) (loads_ m) (sgens_ m) (storages_ m) (gen_slackbus_ m)
    (slack_bus_id_ m) (slack_bus_id_solver_ m) (Ybus_ m) (Sbus_ m) (bus_pv_ m)
    (bus_pq_ m) (_solver m) (grid2op_ m).
Definition set_powerlines (v : DataLine) (m : GridModel) : GridModel :=
  mkGridModel (need_reset_ m) (compute_results_ m) (init_vm_pu_ m) (sn_mva_ m)
    (bus_vn_kv_ m) (bus_status_ m) (id_me_to_solver_ m) (id_solver_to_me_ m) v
    (shunts_ m) (trafos_ m) (generators_ m) (loads_ m) (sgens_ m) (storages_ m)
    (gen_slackbus_ m) (slack_bus_id_ m) (slack_bus_id_solver_ m) (Ybus_ m) (Sbus_ m)
    (bus_pv_ m) (bus_pq_ m) (_solver m) (grid2op_ m).
Definition set_shunts (v : DataShunt) (m : GridModel) : GridModel :=
  mkGridModel (need_reset_ m) (compute_results_ m) (init_vm_pu_ m) (sn_mva_ m)
    (bus_vn_kv_ m) (bus_status_ m) (id_me_to_solver_ m) (id_solver_to_me_ m)
    (powerlines_ m) v (trafos_ m) (generators_ m) (loads_ m) (sgens_ m) (storages_ m)
    (gen_slackbus_ m) (slack_bus_id_ m) (slack_bus_id_solver_ m) (Ybus_ m) (Sbus_ m)
    (bus_pv_ m) (bus_pq_ m) (_solver m) (grid2op_ m).
Definition set_trafos (v : DataTrafo) (m : GridModel) : GridModel :=
  mkGridModel (need_reset_ m) (compute_results_ m) (init_vm_pu_ m) (sn_mva_ m)
    (bus_vn_kv_ m) (bus_status_ m) (id_me_to_solver_ m) (id_solver_to_me_ m)
    (powerlines_ m) (shunts_ m) v (generators_ m) (loads_ m) (sgens_ m) (storages_ m)
    (gen_slackbus_ m) (slack_bus_id_ m) (slack_bus_id_solver_ m) (Ybus_ m) (Sbus_ m)
    (bus_pv_ m) (bus_pq_ m) (_solver m) (grid2op_ m).
Definition set_generators (v : DataGen.t) (m : GridModel) : GridModel :=
  mkGridModel (need_reset_ m) (compute_results_ m) (init_vm_pu_ m) (sn_mva_ m)
    (bus_vn_kv_ m) (bus_status_ m) (id_me_to_solver_ m) (id_solver_to_me_ m)
    (powerlines_ m) (shunts_ m) (trafos_ m) v (loads_ m) (sgens_ m) (storages_ m)
    (gen_slackbus_ m) (slack_bus_id_ m) (slack_bus_id_solver_ m) (Ybus_ m) (Sbus_ m)
    (bus_pv_ m) (bus_pq_ m) (_solver m) (grid2op_ m).
Definition set_loads (v : DataLoad) (m : GridModel) : GridModel :=
  mkGridModel (need_reset_ m) (compute_results_ m) (init_vm_pu_ m) (sn_mva_ m)
    (bus_vn_kv_ m) (bus_status_ m) (id_me_to_solver_ m) (id_solver_to_me_ m)
    (powerlines_ m) (shunts_ m) (trafos_ m) (generators_ m) v (sgens_ m) (storages_ m)
    (gen_slackbus_ m) (slack_bus_id_ m) (slack_bus_id_solver_ m) (Ybus_ m) (Sbus_ m)
    (bus_pv_ m) (bus_pq_ m) (_solver m) (grid2op_ m).
Definition set_storages (v : DataLoad) (m : GridModel) : GridModel :=
  mkGridModel (need_reset_ m) (compute_results_ m) (init_vm_pu_ m) (sn_mva_ m)
    (bus_vn_kv_ m) (bus_status_ m) (id_me_to_solver_ m) (id_solver_to_me_ m)
    (powerlines_ m) (shunts_ m) (trafos_ m) (generators_ m) (loads_ m) (sgens_ m) v
    (gen_slackbus_ m) (slack_bus_id_ m) (slack_bus_id_solver_ m) (Ybus_ m) (Sbus_ m)
    (bus_pv_ m) (bus_pq_ m) (_solver m) (grid2op_ m).
Definition set_gen_slackbus (v : Z) (m : GridModel) : GridModel :=
  mkGridModel (need_reset_ m) (compute_results_ m) (init_vm_pu_ m) (sn_mva_ m)
    (bus_vn_kv_ m) (bus_status_ m) (id_me_to_solver_ m) (id_solver_to_me_ m)
    (powerlines_ m) (shunts_ m) (trafos_ m) (generators_ m) (loads_ m) (sgens_ m)
    (storages_ m) v (slack_bus_id_ m) (slack_bus_id_solver_ m) (Ybus_ m) (Sbus_ m)
    (bus_pv_ m) (bus_pq_ m) (_solver m) (grid2op_ m).
Definition set_slack_bus_id (v : Z) (m : GridModel) : GridModel :=
  mkGridModel (need_reset_ m) (compute_results_ m) (init_vm_pu_ m) (sn_mva_ m)
    (bus_vn_kv_ m) (bus_status_ m) (id_me_to_solver_ m) (id_solver_to_me_ m)
    (powerlines_ m) (shunts_ m) (trafos_ m) (generators_ m) (loads_ m) (sgens_ m)
    (storages_ m) (gen_slackbus_ m) v (slack_bus_id_solver_ m) (Ybus_ m) (Sbus_ m)
    (bus_pv_ m) (bus_pq_ m) (_solver m) (grid2op_ m).
Definition set_slack_bus_id_solver (v : Z) (m : GridModel) : GridModel :=
  mkGridModel (need_reset_ m) (compute_results_ m) (init_vm_pu_ m) (sn_mva_ m)
    (bus_vn_kv_ m) (bus_status_ m) (id_me_to_solver_ m) (id_solver_to_me_ m)
    (powerlines_ m) (shunts_ m) (trafos_ m) (generators_ m) (loads_ m) (sgens_ m)
    (storages_ m) (gen_slackbus_ m) (slack_bus_id_ m) v (Ybus_ m) (Sbus_ m) (bus_pv_ m)
    (bus_pq_ m) (_solver m) (grid2op_ m).
Definition set_Ybus (v : SparseMatrix (R * R)) (m : GridModel) : GridModel :=
  mkGridModel (need_reset_ m) (compute_results_ m) (init_vm_pu_ m) (sn_mva_ m)
    (bus_vn_kv_ m) (bus_status_ m) (id_me_to_solver_ m) (id_solver_to_me_ m)
    (powerlines_ m) (shunts_ m) (trafos_ m) (generators_ m) (loads_ m) (sgens_ m)
    (storages_ m) (gen_slackbus_ m) (slack_bus_id_ m) (slack_bus_id_solver_ m) v
    (Sbus_ m) (bus_pv_ m) (bus_pq_ m) (_solver m) (grid2op_ m).
Definition set_Sbus (v : CplxVect) (m : GridModel) : GridModel :=
  mkGridModel (need_reset_ m) (compute_results_ m) (init_vm_pu_ m) (sn_mva_ m)
    (bus_vn_kv_ m) (bus_status_ m) (id_me_to_solver_ m) (id_solver_to_me_ m)
    (powerlines_ m) (shunts_ m) (trafos_ m) (generators_ m) (loads_ m) (sgens_ m)
    (storages_ m) (gen_slackbus_ m) (slack_bus_id_ m) (slack_bus_id_solver_ m) (Ybus_ m)
    v (bus_pv_ m) (bus_pq_ m) (_solver m) (grid2op_ m).
Definition set_bus_pv (v : list Z) (m : GridModel) : GridModel :=
  mkGridModel (need_reset_ m) (compute_results_ m) (init_vm_pu_ m) (sn_mva_ m)
    (bus_vn_kv_ m) (bus_status_ m) (id_me_to_solver_ m) (id_solver_to_me_ m)
    (powerlines_ m) (shunts_ m) (trafos_ m) (generators_ m) (loads_ m) (sgens_ m)
    (storages_ m) (gen_slackbus_ m) (slack_bus_id_ m) (slack_bus_id_solver_ m) (Ybus_ m)
    (Sbus_ m) v (bus_pq_ m) (_solver m) (grid2op_ m).
Definition set_bus_pq (v : list Z) (m : GridModel) : GridModel :=
  mkGridModel (need_reset_ m) (compute_results_ m) (init_vm_pu_ m) (sn_mva_ m)
    (bus_vn_kv_ m) (bus_status_ m) (id_me_to_solver_ m) (id_solver_to_me_ m)
    (powerlines_ m) (shunts_ m) (trafos_ m) (generators_ m) (loads_ m) (sgens_ m)
    (storages_ m) (gen_slackbus_ m) (slack_bus_id_ m) (slack_bus_id_solver_ m) (Ybus_ m)
    (Sbus_ m) (bus_pv_ m) v (_solver m) (grid2op_ m).
Definition set_solver (v : ChooseSolver.t) (m : GridModel) : GridModel :=
  mkGridModel (need_reset_ m) (compute_results_ m) (init_vm_pu_ m) (sn_mva_ m)
    (bus_vn_kv_ m) (bus_status_ m) (id_me_to_solver_ m) (id_solver_to_me_ m)
    (powerlines_ m) (shunts_ m) (trafos_ m) (generators_ m) (loads_ m) (sgens_ m)
    (storages_ m) (gen_slackbus_ m) (slack_bus_id_ m) (slack_bus_id_solver_ m) (Ybus_ m)
    (Sbus_ m) (bus_pv_ m) (bus_pq_ m) v (grid2op_ m).

(** ** Member functions

    A member function of [GridModel] that returns an [A]: the outcome and
    the object afterwards. *)
Definition method (A : Type) : Type := GridModel -> outcome A * GridModel.

#[global] Instance method_ret : MRet method := fun A a m => (Ok a, m).
#[global] Instance method_bind : MBind method := fun A B f x m =>
  match x m with
  | (Ok a, m') => f a m'
  | (Throw e, m') => (Throw e, m')
  end.

Definition throw {A} (e : error) : method A := fun m => (Throw e, m).
Definition member {A} (f : GridModel -> A) : method A := fun m => (Ok (f m), m).
Definition assign (f : GridModel -> GridModel) : method unit := fun m => (Ok tt, f m).
(** A computation on local variables: it throws into the caller. *)
Definition local {A} (o : outcome A) : method A := fun m => (o, m).

(** The variables [init_Ybus] receives by reference: the members in
    [pre_process_solver], locals in [dc_pf_old]. *)
Record YbusRefs := mkYbusRefs {
  r_Ybus : SparseMatrix (R * R);
  r_Sbus : CplxVect;
  r_id_me_to_solver : list Z;
  r_id_solver_to_me : list Z;
  r_slack_bus_id_solver : Z }.

(** The state tuple of [get_state] / [set_state], as [GridModel.cpp] builds
    and reads it ([std::get<0>] to [std::get<7>]). *)
Record StateRes := mkStateRes {
  st_bus_vn_kv : list R;
  st_bus_status : list bool;
  st_lines : list Line;
  st_shunts : list Shunt;
  st_trafos : list Trafo;
  st_gens : list Gen;
  st_loads : list PQElt;
  st_gen_slackbus : Z }.

Section GridModelMethods.
Context `{Externals}.

(** *** pickle *)

Definition get_state (m : GridModel) : StateRes :=
  let bus_vn_kv := bus_vn_kv_ m in
  let res_line := DataGeneric.get_state (powerlines_ m) in
  let res_shunt := DataGeneric.get_state (shunts_ m) in
  let res_trafo := DataGeneric.get_state (trafos_ m) in
  let res_gen := DataGen.get_state (generators_ m) in
  let res_load := DataGeneric.get_state (loads_ m) in
  mkStateRes bus_vn_kv (bus_status_ m) res_line res_shunt res_trafo res_gen res_load
             (gen_slackbus_ m).

(** *** reset *)

Definition reset : method unit :=
  assign (set_Ybus sparse_empty);;
  assign (set_Sbus []);;
  assign (set_id_me_to_solver []);;
  assign (set_id_solver_to_me []);;
  assign (set_slack_bus_id_solver (-1));;
  assign (set_bus_pv []);;
  assign (set_bus_pq []);;
  assign (set_need_reset true);;
  (* reset the solvers *)
  assign (fun m => set_solver (ChooseSolver.reset (_solver m)) m).

Definition set_state (my_state : StateRes) : method unit :=
  (* after loading back, the instance need to be reset anyway *)
  reset;;
  assign (set_need_reset true);;
  assign (set_compute_results true);;
  (* buses *)
  assign (set_bus_vn_kv (st_bus_vn_kv my_state));;
  assign (set_bus_status (st_bus_status my_state));;
  (* elements *)
  assign (fun m => set_powerlines (DataGeneric.set_state (powerlines_ m) (st_lines my_state)) m);;
  assign (fun m => set_shunts (DataGeneric.set_state (shunts_ m) (st_shunts my_state)) m);;
  assign (fun m => set_trafos (DataGeneric.set_state (trafos_ m) (st_trafos my_state)) m);;
  assign (fun m => set_generators (DataGen.set_state (generators_ m) (st_gens my_state)) m);;
  assign (fun m => set_loads (DataGeneric.set_state (loads_ m) (st_loads my_state)) m);;
  (* other stuff *)
  assign (set_gen_slackbus (st_gen_slackbus my_state)).

(** *** init_Ybus *)

(** One turn of the loop of [init_Ybus] over [bus_id_me]; the local
    state is [(id_me_to_solver, id_solver_to_me, bus_id_solver)]. *)
Definition init_Ybus_body (bus_status : list bool) (bus_id_me : Z)
           (st : list Z * list Z * Z) : outcome (list Z * list Z * Z) :=
  let '(id_me_to_solver, id_solver_to_me, bus_id_solver) := st in
  connected ← vec_get bus_status bus_id_me;
  if (connected : bool) then
    (* bus is connected *)
    id_me_to_solver' ← vec_set id_me_to_solver bus_id_me bus_id_solver;
    Ok (id_me_to_solver', id_solver_to_me ++ [bus_id_me], bus_id_solver + 1)
  else Ok st.

Definition init_Ybus (m : GridModel) (refs : YbusRefs) : outcome unit * YbusRefs :=
  (* 1. init the conversion bus *)
  let nb_bus_init := vec_size (bus_vn_kv_ m) in
  let id_me_to_solver := replicate (Z.to_nat nb_bus_init) _deactivated_bus_id in
  let id_solver_to_me := [] in
  match for_loop nb_bus_init (init_Ybus_body (bus_status_ m))
                 (id_me_to_solver, id_solver_to_me, 0) with
  | Throw e => (Throw e, refs)
  | Ok (id_me_to_solver, id_solver_to_me, _) =>
      let nb_bus := vec_size id_solver_to_me in
      let Ybus := sparse_zero nb_bus in
      let Sbus := replicate (Z.to_nat nb_bus) Czero in
      match vec_get id_me_to_solver (slack_bus_id_ m) with
      | Throw e => (Throw e, mkYbusRefs Ybus Sbus id_me_to_solver id_solver_to_me
                                        (r_slack_bus_id_solver refs))
      | Ok slack_bus_id_solver =>
          let refs' := mkYbusRefs Ybus Sbus id_me_to_solver id_solver_to_me
                                  slack_bus_id_solver in
          if slack_bus_id_solver =? _deactivated_bus_id
          then (Throw SlackDisconnected, refs')
          else (Ok tt, refs')
      end
  end.

(** *** fillYbus, fillSbus_me *)

Definition fillYbus (m : GridModel) (res : SparseMatrix (R * R)) (ac : bool)
           (id_me_to_solver : list Z) : outcome (SparseMatrix (R * R)) :=
  let tripletList := [] in
  tripletList ← DataGeneric.fillYbus (powerlines_ m) tripletList ac id_me_to_solver;
  tripletList ← DataGeneric.fillYbus (shunts_ m) tripletList ac id_me_to_solver;
  tripletList ← DataGeneric.fillYbus (trafos_ m) tripletList ac id_me_to_solver;
  tripletList ← DataGeneric.fillYbus (loads_ m) tripletList ac id_me_to_solver;
  tripletList ← DataGen.fillYbus (generators_ m) tripletList ac id_me_to_solver;
  Ok (mkSparse (sm_rows res) (sm_cols res)
               (setFromTriplets_cplx (sm_rows res) (sm_cols res) tripletList)).

(** The five stamping calls of [fillSbus_me]. *)
Definition fillSbus_elements (m : GridModel) (res : CplxVect) (ac : bool)
           (id_me_to_solver : list Z) : outcome CplxVect :=
  res ← DataGeneric.fillSbus (powerlines_ m) res ac id_me_to_solver;
  res ← DataGeneric.fillSbus (shunts_ m) res ac id_me_to_solver;
  res ← DataGeneric.fillSbus (trafos_ m) res ac id_me_to_solver;
  res ← DataGeneric.fillSbus (loads_ m) res ac id_me_to_solver;
  DataGen.fillSbus (generators_ m) res ac id_me_to_solver.

(** "handle slack bus": the last two statements of [fillSbus_me], over
    the arithmetic of the number type. *)
Definition handle_slack_bus {T : Type} `{!DoubleArith T} (res : list (T * T))
           (slack_bus_id_solver : Z) : outcome (list (T * T)) :=
  let sum_active := fst (Csum res) in
  s ← vec_get res slack_bus_id_solver;
  vec_set res slack_bus_id_solver (Csub_real s sum_active).

Definition fillSbus_me (m : GridModel) (res : CplxVect) (ac : bool)
           (id_me_to_solver : list Z) (slack_bus_id_solver : Z) : outcome CplxVect :=
  res ← fillSbus_elements m res ac id_me_to_solver;
  handle_slack_bus res slack_bus_id_solver.

(** A call that reads the members and may throw. *)
Definition call {A} (f : GridModel -> outcome A) : method A := fun m => (f m, m).

(** [init_Ybus(Ybus_, Sbus_, id_me_to_solver_, id_solver_to_me_,
    slack_bus_id_solver_)]: the references are the members. *)
Definition init_Ybus_members : method unit := fun m =>
  let '(o, refs) := init_Ybus m (mkYbusRefs (Ybus_ m) (Sbus_ m) (id_me_to_solver_ m)
                                            (id_solver_to_me_ m) (slack_bus_id_solver_ m)) in
  (o, set_Ybus (r_Ybus refs)
        (set_Sbus (r_Sbus refs)
           (set_id_me_to_solver (r_id_me_to_solver refs)
              (set_id_solver_to_me (r_id_solver_to_me refs)
                 (set_slack_bus_id_solver (r_slack_bus_id_solver refs) m))))).

(** *** fillpv_pq *)

(** One turn of the loop of [fillpv_pq] over [bus_id]; the local state
    is [(bus_pq, has_bus_been_added)]. *)
Definition fillpv_pq_body (slack_bus_id_solver : Z) (bus_id : Z)
           (st : list Z * list bool) : outcome (list Z * list bool) :=
  let '(bus_pq, has_bus_been_added) := st in
  if bus_id =? slack_bus_id_solver then Ok st else    (* slack bus is not PQ either *)
  added ← vec_get has_bus_been_added bus_id;
  if (added : bool) then Ok st else                    (* a pv bus cannot be PQ *)
  has_bus_been_added' ← vec_set has_bus_been_added bus_id true;
  Ok (bus_pq ++ [bus_id], has_bus_been_added').

(** The five [fillpv] calls of [fillpv_pq]. *)
Definition fillpv_elements (m : GridModel) (bus_pv : list Z) (has_bus_been_added : list bool)
           (id_me_to_solver : list Z) : outcome (list Z * list bool) :=
  let slack := slack_bus_id_solver_ m in
  '(bus_pv, has_bus_been_added) ←
    DataGeneric.fillpv (powerlines_ m) bus_pv has_bus_been_added slack id_me_to_solver;
  '(bus_pv, has_bus_been_added) ←
    DataGeneric.fillpv (shunts_ m) bus_pv has_bus_been_added slack id_me_to_solver;
  '(bus_pv, has_bus_been_added) ←
    DataGeneric.fillpv (trafos_ m) bus_pv has_bus_been_added slack id_me_to_solver;
  '(bus_pv, has_bus_been_added) ←
    DataGeneric.fillpv (loads_ m) bus_pv has_bus_been_added slack id_me_to_solver;
  DataGen.fillpv (generators_ m) bus_pv has_bus_been_added slack id_me_to_solver.

Definition fillpv_pq (id_me_to_solver : list Z) : method unit :=
  (* init pq and pv vector *)
  nb_bus ← member (fun m => vec_size (id_solver_to_me_ m));  (* number of bus in the solver! *)
  let bus_pq := [] in
  let bus_pv := [] in
  let has_bus_been_added := replicate (Z.to_nat nb_bus) false in
  assign (set_bus_pv []);;
  assign (set_bus_pq []);;
  '(bus_pv, has_bus_been_added) ←
    call (fun m => fillpv_elements m bus_pv has_bus_been_added id_me_to_solver);
  slack ← member slack_bus_id_solver_;
  '(bus_pq, _) ← local (for_loop nb_bus (fillpv_pq_body slack) (bus_pq, has_bus_been_added));
  assign (set_bus_pv bus_pv);;
  assign (set_bus_pq bus_pq).

(** *** results *)

Definition compute_results : method unit :=
  (* retrieve results from powerflow *)
  Va ← member (fun m => ChooseSolver.get_Va (_solver m));
  Vm ← member (fun m => ChooseSolver.get_Vm (_solver m));
  V ← member (fun m => ChooseSolver.get_V (_solver m));
  assign (fun m => set_powerlines (DataGeneric.compute_results (powerlines_ m) Va Vm V
                                     (id_me_to_solver_ m) (bus_vn_kv_ m)) m);;
  assign (fun m => set_trafos (DataGeneric.compute_results (trafos_ m) Va Vm V
                                 (id_me_to_solver_ m) (bus_vn_kv_ m)) m);;
  assign (fun m => set_loads (DataGeneric.compute_results (loads_ m) Va Vm V
                                (id_me_to_solver_ m) (bus_vn_kv_ m)) m);;
  assign (fun m => set_shunts (DataGeneric.compute_results (shunts_ m) Va Vm V
                                 (id_me_to_solver_ m) (bus_vn_kv_ m)) m);;
  assign (fun m => set_generators (DataGen.compute_results (generators_ m) Va Vm V
                                     (id_me_to_solver_ m) (bus_vn_kv_ m)) m);;
  (* handle_slack_bus *)
  p_slack ← member (fun m =>
    (DataGeneric.get_p_slack (powerlines_ m) (slack_bus_id_ m)
     + DataGeneric.get_p_slack (trafos_ m) (slack_bus_id_ m)
     + DataGeneric.get_p_slack (loads_ m) (slack_bus_id_ m)
     + DataGeneric.get_p_slack (shunts_ m) (slack_bus_id_ m))%R);
  assign (fun m => set_generators
                     (DataGen.set_p_slack (generators_ m) (gen_slackbus_ m) p_slack) m);;
  (* handle gen_q now *)
  q_by_bus ← member (fun m =>
    let q_by_bus := replicate (length (bus_vn_kv_ m)) 0%R in
    let q_by_bus := DataGeneric.get_q (powerlines_ m) q_by_bus in
    let q_by_bus := DataGeneric.get_q (trafos_ m) q_by_bus in
    let q_by_bus := DataGeneric.get_q (loads_ m) q_by_bus in
    DataGeneric.get_q (shunts_ m) q_by_bus);
  assign (fun m => set_generators (DataGen.set_q (generators_ m) q_by_bus) m).

Definition reset_results : method unit :=
  assign (fun m => set_powerlines (DataGeneric.reset_results (powerlines_ m)) m);;
  assign (fun m => set_shunts (DataGeneric.reset_results (shunts_ m)) m);;
  assign (fun m => set_trafos (DataGeneric.reset_results (trafos_ m)) m);;
  assign (fun m => set_loads (DataGeneric.reset_results (loads_ m)) m);;
  assign (fun m => set_generators (DataGen.reset_results (generators_ m)) m).

(** *** pre_process_solver, process_results *)

(** The loop of [pre_process_solver] that extracts the connected buses
    of [Vinit]. *)
Definition extract_Vinit_body (id_solver_to_me : list Z) (Vinit : CplxVect)
           (bus_solver_id : Z) (V : CplxVect) : outcome CplxVect :=
  bus_me_id ← vec_get id_solver_to_me bus_solver_id;
  tmp ← vec_get Vinit bus_me_id;
  vec_set V bus_solver_id tmp.

Definition pre_process_solver (Vinit : CplxVect) (is_ac : bool) : method CplxVect :=
  reset;;
  slack ← call (fun m => DataGen.get_slack_bus_id (generators_ m) (gen_slackbus_ m));
  assign (set_slack_bus_id slack);;
  init_Ybus_members;;
  Ybus ← call (fun m => fillYbus m (Ybus_ m) is_ac (id_me_to_solver_ m));
  assign (set_Ybus Ybus);;
  id_me_to_solver ← member id_me_to_solver_;
  fillpv_pq id_me_to_solver;;
  assign (fun m => set_generators
                     (DataGen.init_q_vector (generators_ m) (vec_size (bus_vn_kv_ m))) m);;
  Sbus ← call (fun m => fillSbus_me m (Sbus_ m) is_ac (id_me_to_solver_ m)
                                    (slack_bus_id_solver_ m));
  assign (set_Sbus Sbus);;
  id_solver_to_me ← member id_solver_to_me_;
  let nb_bus_solver := vec_size id_solver_to_me in
  let V := replicate (Z.to_nat nb_bus_solver) ((104 / 100)%R, 0%R) in
  V ← local (for_loop nb_bus_solver (extract_Vinit_body id_solver_to_me Vinit) V);
  call (fun m => DataGen.set_vm (generators_ m) V (id_me_to_solver_ m)).

(** The loop of [process_results] that converts the solver's voltages
    back to the "big" vector. *)
Definition expand_V_body (bus_status : list bool) (id_me_to_solver : list Z)
           (res_tmp : CplxVect) (bus_id_me : Z) (res : CplxVect) : outcome CplxVect :=
  connected ← vec_get bus_status bus_id_me;
  if negb connected then Ok res else
  bus_id_solver ← vec_get id_me_to_solver bus_id_me;
  if bus_id_solver =? _deactivated_bus_id then Throw DisconnectedBusReferenced else
  v ← vec_get res_tmp bus_id_solver;
  vec_set res bus_id_me v.

Definition process_results (conv : bool) (res : CplxVect) (Vinit : CplxVect)
  : method CplxVect :=
  if conv then
    compute ← member compute_results_;
    (if (compute : bool) then compute_results else mret tt);;
    assign (set_need_reset false);;
    res_tmp ← member (fun m => ChooseSolver.get_V (_solver m));
    (* convert back the results to "big" vector *)
    let res := replicate (length Vinit) Czero in
    nb_bus ← member (fun m => vec_size (bus_vn_kv_ m));
    call (fun m => for_loop nb_bus
                     (expand_V_body (bus_status_ m) (id_me_to_solver_ m) res_tmp) res)
  else
    (* powerflow diverge *)
    reset_results;;
    assign (set_need_reset true);;
    mret res.

(** [conv = _solver.compute_pf(Ybus_, V, Sbus_, bus_pv_, bus_pq_, max_iter, tol)]. *)
Definition solver_compute_pf (V : CplxVect) (max_iter : Z) (tol : real_type) : method bool :=
  fun m =>
    let '(conv, s) := ChooseSolver.compute_pf (_solver m) (Ybus_ m) V (Sbus_ m)
                                              (bus_pv_ m) (bus_pq_ m) max_iter tol in
    (Ok conv, set_solver s m).

(** *** ac_pf, dc_pf *)

Definition ac_pf (Vinit : CplxVect) (max_iter : Z) (tol : real_type) : method CplxVect :=
  nb_bus ← member (fun m => vec_size (bus_vn_kv_ m));
  if negb (vec_size Vinit =? nb_bus) then throw InputSizeMismatch else
  let res := [] in
  (* pre process the data to define a proper jacobian matrix, the proper voltage vector etc. *)
  V ← pre_process_solver Vinit true;
  (* start the solver *)
  conv ← solver_compute_pf V max_iter tol;
  (* store results *)
  process_results conv res Vinit.

Definition dc_pf (Vinit : CplxVect) (max_iter : Z) (tol : real_type) : method CplxVect :=
  nb_bus ← member (fun m => vec_size (bus_vn_kv_ m));
  if negb (vec_size Vinit =? nb_bus) then throw InputSizeMismatch else
  solver_type ← member (fun m => ChooseSolver.get_type (_solver m));
  assign (fun m => set_solver (ChooseSolver.change_solver (_solver m) DC) m);;
  let res := [] in
  V ← pre_process_solver Vinit false;
  conv ← solver_compute_pf V max_iter tol;
  res ← process_results conv res Vinit;
  (* put back the solver to its original state *)
  assign (fun m => set_solver (ChooseSolver.change_solver (_solver m) solver_type) m);;
  mret res.

(** *** solver control, slack, storage units *)

Definition change_solver (type : SolverType) : method unit :=
  assign (set_need_reset true);;
  assign (fun m => set_solver (ChooseSolver.change_solver (_solver m) type) m).

Definition get_solver_type (m : GridModel) : SolverType := ChooseSolver.get_type (_solver m).

(** Retrieve the number of connected buses. *)
Definition nb_bus (m : GridModel) : Z :=
  fold_left (fun res (el : bool) => if el then res + 1 else res) (bus_status_ m) 0.

Definition add_gen_slackbus (gen_id : Z) : method unit :=
  if gen_id <? 0 then throw SlackInvalid else
  nb_gen ← member (fun m => DataGen.nb (generators_ m));
  if gen_id >? nb_gen then throw SlackInvalid else
  assign (set_gen_slackbus gen_id).

Definition change_p_storage (storage_id : Z) (new_p : real_type) : method unit := fun m =>
  match DataLoad.change_p (storages_ m) storage_id new_p (need_reset_ m) with
  | Ok (storages, need_reset) => (Ok tt, set_need_reset need_reset (set_storages storages m))
  | Throw e => (Throw e, m)
  end.

(** *** dc_pf_old *)

(** [i > slack_bus_id_solver ? i - 1 : i]. *)
Definition skip_slack (slack_bus_id_solver i : Z) : Z :=
  if i >? slack_bus_id_solver then i - 1 else i.

(** "remove the slack bus from Ybus": the triplets pushed by the two
    nested loops over the columns [k] and the stored coefficients [it]
    of column [k]. *)
Definition dc_triplets (dcYbus_tmp : SparseMatrix (R * R)) (nb_bus_solver : Z)
           (slack_bus_id_solver : Z) : list (Triplet R) :=
  flat_map
    (fun k : Z =>
       if k =? slack_bus_id_solver then [] else
       flat_map
         (fun it : Triplet (R * R) =>
            if t_row it =? slack_bus_id_solver then [] else
            [mkTriplet (skip_slack slack_bus_id_solver (t_row it))
                       (skip_slack slack_bus_id_solver (t_col it))
                       (Creal (t_value it))])
         (filter (fun it : Triplet (R * R) => t_col it = k) (sm_coeffs dcYbus_tmp)))
    (map Z.of_nat (seq 0 (Z.to_nat nb_bus_solver))).

(** "remove the slack bus from Sbus". *)
Definition dc_Sbus_body (Sbus_tmp : CplxVect) (slack_bus_id_solver : Z)
           (k : Z) (Sbus : RealVect) : outcome RealVect :=
  if k =? slack_bus_id_solver then Ok Sbus else
  let col_res := skip_slack slack_bus_id_solver k in
  s ← vec_get Sbus_tmp k;
  vec_set Sbus col_res (Creal s).

(** "fill Va from dc approx". *)
Definition dc_Va_body (slack_bus_id : Z) (bus_status : list bool)
           (id_me_to_solver : list Z) (slack_bus_id_solver : Z) (Va_dc : RealVect)
           (bus_id_me : Z) (Va : RealVect) : outcome RealVect :=
  if bus_id_me =? slack_bus_id then Ok Va else   (* slack bus is handled elsewhere *)
  connected ← vec_get bus_status bus_id_me;
  if negb connected then Ok Va else
  bus_id_solver ← vec_get id_me_to_solver bus_id_me;
  if bus_id_solver =? _deactivated_bus_id then Throw DisconnectedBusReferenced else
  let bus_id_solver := skip_slack slack_bus_id_solver bus_id_solver in
  a ← vec_get Va_dc bus_id_solver;
  vec_set Va bus_id_me a.

(** The loop that puts [Vm = 0.] on the disconnected buses. *)
Definition dc_Vm_body (bus_status : list bool) (bus_id_me : Z) (Vm : RealVect)
  : outcome RealVect :=
  connected ← vec_get bus_status bus_id_me;
  if (connected : bool) then Ok Vm else vec_set Vm bus_id_me 0%R.

(** [Vm.array() * (Va.array().cos() + my_i * Va.array().sin())];
    coefficient-wise on two arrays of the same size. *)
Definition polar_vector (Vm Va : RealVect) : outcome CplxVect :=
  if vec_size Vm =? vec_size Va
  then Ok (zip_with Cpolar Vm Va)
  else Throw UndefinedBehaviour.

Definition dc_pf_old (Vinit : CplxVect) (max_iter : Z) (tol : real_type)
  : method CplxVect :=
  nb_bus ← member (fun m => vec_size (bus_vn_kv_ m));
  if negb (vec_size Vinit =? nb_bus) then throw InputSizeMismatch else
  slack ← call (fun m => DataGen.get_slack_bus_id (generators_ m) (gen_slackbus_ m));
  assign (set_slack_bus_id slack);;
  (* the references are locals here; [slack_bus_id_solver] starts
     uninitialised and is written before it is read *)
  refs ← (fun m => let '(o, refs) := init_Ybus m (mkYbusRefs sparse_empty [] [] [] 0) in
                   (match o with Ok _ => Ok refs | Throw e => Throw e end, m));
  let id_me_to_solver := r_id_me_to_solver refs in
  let id_solver_to_me := r_id_solver_to_me refs in
  let slack_bus_id_solver := r_slack_bus_id_solver refs in
  dcYbus_tmp ← call (fun m => fillYbus m (r_Ybus refs) false id_me_to_solver);
  Sbus_tmp ← call (fun m => fillSbus_me m (r_Sbus refs) false id_me_to_solver
                                        slack_bus_id_solver);
  (* extract only connected bus from Vinit *)
  let nb_bus_solver := vec_size id_solver_to_me in
  (* remove the slack bus from Ybus *)
  let tripletList := dc_triplets dcYbus_tmp nb_bus_solver slack_bus_id_solver in
  let dcYbus := mkSparse (nb_bus_solver - 1) (nb_bus_solver - 1)
                  (setFromTriplets_real (nb_bus_solver - 1) (nb_bus_solver - 1)
                                        tripletList) in
  (* initialize the solver *)
  if negb (SparseLU_factorize dcYbus) then mret [] else   (* matrix is not connected *)
  (* remove the slack bus from Sbus *)
  let Sbus := replicate (Z.to_nat (nb_bus_solver - 1)) 0%R in
  Sbus ← local (for_loop nb_bus_solver (dc_Sbus_body Sbus_tmp slack_bus_id_solver) Sbus);
  (* solve for theta: Sbus = dcY . theta *)
  match SparseLU_solve dcYbus Sbus with
  | None => mret []    (* solving failed, this should not happen in dc ... *)
  | Some Va_dc =>
      (* retrieve back the results in the proper shape *)
      nb_bus_me ← member (fun m => vec_size (bus_vn_kv_ m));
      let Va := replicate (Z.to_nat nb_bus_me) 0%R in
      Va ← call (fun m => for_loop nb_bus_me
                            (dc_Va_body (slack_bus_id_ m) (bus_status_ m) id_me_to_solver
                                        slack_bus_id_solver Va_dc) Va);
      slack_bus_id ← member slack_bus_id_;
      v_slack ← local (vec_get Vinit slack_bus_id);
      let Va := map (fun a => (a + Carg v_slack)%R) Va in
      (* fill Vm *)
      let Vm := replicate (length Vinit) 1%R in
      Vm ← call (fun m => for_loop nb_bus_me (dc_Vm_body (bus_status_ m)) Vm);
      Vm ← call (fun m => DataGen.get_vm_for_dc (generators_ m) Vm);
      local (polar_vector Vm Va)
  end.
End GridModelMethods.

(** ** Reference instances

    The element models with the defaults of [DataGeneric] (a family that
    stamps nothing and projects nothing), a solver that accepts the initial
    voltages as soon as it is allowed one iteration, the identity for the
    linear solve and an arithmetic without rounding.  They make the model
    run on concrete grids. *)

Definition default_model {E Res} `{!ResultStore Res} : ElementModel E Res := {|
  stamp_Y := fun _ _ _ res => Ok res;
  stamp_S := fun _ _ _ Sbus => Ok Sbus;
  project := fun _ _ _ _ _ _ => cleared;
  p_slack := fun _ _ _ => 0%R;
  q_by_bus := fun _ _ q => q |}.

Definition demo_compute_pf (type : SolverType) (previous : SolverResults)
           (Ybus : SparseMatrix (R * R)) (V Sbus : CplxVect) (pv pq : list Z)
           (max_iter : Z) (tol : real_type) : bool * SolverResults :=
  (0 <? max_iter, mkSolverResults V [] [] sparse_empty 0 0%R).

Definition demo_externals : Externals := {|
  line_model := default_model;
  shunt_model := default_model;
  trafo_model := default_model;
  load_model := default_model;
  gen_model := default_model;
  ext_init_q_vector := fun _ _ => [];
  ext_set_vm := fun _ V _ => Ok V;
  ext_set_p_slack := fun _ res _ _ => res;
  ext_set_q := fun _ _ res _ => res;
  ext_compute_pf := demo_compute_pf;
  setFromTriplets_cplx := fun _ _ l => l;
  setFromTriplets_real := fun _ _ l => l;
  SparseLU_factorize := fun _ => true;
  SparseLU_solve := fun _ b => Some b;
  Carg := fun z => atan (Cimag z / Creal z);
  double_arith := exact_arith |}.

(** A solver whose answer depends on the method selected: an AC method
    accepts the initial voltages, the DC method returns the flat profile. *)
Definition method_compute_pf (type : SolverType) (previous : SolverResults)
           (Ybus : SparseMatrix (R * R)) (V Sbus : CplxVect) (pv pq : list Z)
           (max_iter : Z) (tol : real_type) : bool * SolverResults :=
  match type with
  | AC _ => (0 <? max_iter, mkSolverResults V [] [] sparse_empty 0 0%R)
  | DC => (0 <? max_iter,
           mkSolverResults (map (fun _ => (1%R, 0%R)) V) [] [] sparse_empty 0 0%R)
  end.

Definition method_externals : Externals := {|
  line_model := default_model;
  shunt_model := default_model;
  trafo_model := default_model;
  load_model := default_model;
  gen_model := default_model;
  ext_init_q_vector := fun _ _ => [];
  ext_set_vm := fun _ V _ => Ok V;
  ext_set_p_slack := fun _ res _ _ => res;
  ext_set_q := fun _ _ res _ => res;
  ext_compute_pf := method_compute_pf;
  setFromTriplets_cplx := fun _ _ l => l;
  setFromTriplets_real := fun _ _ l => l;
  SparseLU_factorize := fun _ => true;
  SparseLU_solve := fun _ b => Some b;
  Carg := fun z => atan (Cimag z / Creal z);
  double_arith := exact_arith |}.

Definition no_grid2op : Grid2opAttrs :=
  mkGrid2opAttrs 0 [] [] [] [] [] [] [] [] [] [] [] [] [] [].

(** Scenario (a) of section 8: two buses of 138 kV, one line, the slack
    generator at bus 0 with V = 1.02, a load of 50 MW / 20 MVAr at bus 1,
    one storage unit at bus 1; 100 MVA base. *)
Definition two_bus_grid : GridModel :=
  mkGridModel true true (104 / 100)%R 100%R
    [138%R; 138%R] [true; true] [] []
    (mkCollection [mkLine 0 1 (1 / 100)%R (1 / 10)%R Czero true] cleared)
    (mkCollection [] cleared)
    (mkCollection [] cleared)
    (DataGen.mk [mkGen 0 0%R (102 / 100)%R (-10)%R 10%R true] cleared [])
    (mkCollection [mkPQElt 1 50%R 20%R true] cleared)
    (mkCollection [] cleared)
    (mkCollection [mkPQElt 1 5%R 0%R true] cleared)
    0 0 (-1) sparse_empty [] [] []
    (ChooseSolver.mk (AC 0) no_results)
    no_grid2op.

(** Scenario (b): the same grid with bus 0, the slack bus, deactivated. *)
Definition slack_off_grid : GridModel := set_bus_status [false; true] two_bus_grid.

Definition flat_start : CplxVect := [(1%R, 0%R); (1%R, 0%R)].


Definition dc_selected_grid : GridModel :=
  set_solver (ChooseSolver.mk DC no_results) two_bus_grid.

(** ** Specification predicates *)

(** The number of [true] entries of a status vector. *)
Definition count_connected (bus_status : list bool) : nat :=
  count_occ bool_dec bus_status true.

(** What the two index maps are for a status vector: a dense solver index
    for every connected bus, [-1] for every disconnected one, and the
    connected buses in increasing order the other way round. *)
Record index_maps (bus_status : list bool) (id_me_to_solver id_solver_to_me : list Z)
  : Prop := {
  maps_length_me : length id_me_to_solver = length bus_status;
  maps_length_solver : length id_solver_to_me = count_connected bus_status;
  maps_connected : forall i : nat,
      bus_status !! i = Some true ->
      exists j : nat, (j < count_connected bus_status)%nat /\
                      id_me_to_solver !! i = Some (Z.of_nat j) /\
                      id_solver_to_me !! j = Some (Z.of_nat i);
  maps_disconnected : forall i : nat,
      bus_status !! i = Some false -> id_me_to_solver !! i = Some (-1);
  maps_increasing : StronglySorted Z.lt id_solver_to_me;
  maps_lists_connected : forall x : Z,
      In x id_solver_to_me <->
      exists i : nat, x = Z.of_nat i /\ bus_status !! i = Some true }.

(** The invariant of the loop of [init_Ybus] once the first [k] of [n]
    buses are scanned. *)
Definition init_Ybus_inv (bus_status : list bool) (n k : nat)
           (st : list Z * list Z * Z) : Prop :=
  let '(id_me_to_solver, id_solver_to_me, bus_id_solver) := st in
  length id_me_to_solver = n /\
  bus_id_solver = Z.of_nat (length id_solver_to_me) /\
  index_maps (take k bus_status) (take k id_me_to_solver) id_solver_to_me /\
  (forall i : nat, (k <= i < n)%nat -> id_me_to_solver !! i = Some (-1)).

(** The invariant of the [fillpv] calls: the flags have one entry per
    solver bus and are raised exactly at the buses already in [bus_pv],
    which holds no bus twice and not the slack bus. *)
Definition fillpv_inv (K : nat) (slack_bus_id_solver : Z) (st : list Z * list bool) : Prop :=
  let '(bus_pv, has_bus_been_added) := st in
  length has_bus_been_added = K /\
  NoDup bus_pv /\
  (slack_bus_id_solver ∉ bus_pv) /\
  (forall x : Z, x ∈ bus_pv <->
                 exists b : nat, x = Z.of_nat b /\ has_bus_been_added !! b = Some true).

(** The invariant of the loop of [fillpv_pq] once the solver buses below
    [k] are classified. *)
Definition fillpv_pq_inv (K : nat) (slack_bus_id_solver : Z) (bus_pv : list Z) (k : nat)
           (st : list Z * list bool) : Prop :=
  let '(bus_pq, has_bus_been_added) := st in
  length has_bus_been_added = K /\
  NoDup bus_pq /\
  (forall x : Z, x ∈ bus_pq ->
                 0 <= x < Z.of_nat k /\ x <> slack_bus_id_solver /\ x ∉ bus_pv) /\
  (forall b : nat, (b < k)%nat -> Z.of_nat b <> slack_bus_id_solver ->
                   Z.of_nat b ∈ bus_pv \/ Z.of_nat b ∈ bus_pq) /\
  (forall x : Z, x ∈ bus_pv \/ x ∈ bus_pq <->
                 exists b : nat, x = Z.of_nat b /\ has_bus_been_added !! b = Some true).

(** [{slack} ⊎ pv ⊎ pq = {0..K-1}], and neither vector repeats a bus. *)
Definition classification (K : Z) (slack_bus_id_solver : Z) (bus_pv bus_pq : list Z) : Prop :=
  NoDup bus_pv /\ NoDup bus_pq /\
  (slack_bus_id_solver ∉ bus_pv) /\
  (slack_bus_id_solver ∉ bus_pq) /\
  (forall x : Z, x ∈ bus_pv -> x ∉ bus_pq) /\
  (forall x : Z, 0 <= x < K <->
                 x = slack_bus_id_solver \/ x ∈ bus_pv \/ x ∈ bus_pq).

(** The grid after [reset()]. *)
Definition after_reset (m : GridModel) : GridModel := snd (reset m).

(** The grid after [reset_results()]. *)
Definition after_reset_results (m : GridModel) : GridModel := snd (reset_results m).

(** ** Two grids that solve alike *)

(** The members a solve starts from: the buses, the elements of the five
    families that are assembled, the slack generator and the solver
    selection.  The stored results, the flags, [init_vm_pu_], [sn_mva_],
    the static generators and the storage units are not among them: no
    statement of [GridModel.cpp] reads them on the way to the voltages. *)
Record same_inputs (m1 m2 : GridModel) : Prop := {
  si_bus_vn_kv : bus_vn_kv_ m1 = bus_vn_kv_ m2;
  si_bus_status : bus_status_ m1 = bus_status_ m2;
  si_lines : elems (powerlines_ m1) = elems (powerlines_ m2);
  si_shunts : elems (shunts_ m1) = elems (shunts_ m2);
  si_trafos : elems (trafos_ m1) = elems (trafos_ m2);
  si_gens : DataGen.gens (generators_ m1) = DataGen.gens (generators_ m2);
  si_loads : elems (loads_ m1) = elems (loads_ m2);
  si_gen_slackbus : gen_slackbus_ m1 = gen_slackbus_ m2;
  si_solver_type : ChooseSolver.solver_type (_solver m1) = ChooseSolver.solver_type (_solver m2) }.

(** The members a solve rebuilds. *)
Record same_assembly (m1 m2 : GridModel) : Prop := {
  sa_id_me_to_solver : id_me_to_solver_ m1 = id_me_to_solver_ m2;
  sa_id_solver_to_me : id_solver_to_me_ m1 = id_solver_to_me_ m2;
  sa_slack_bus_id_solver : slack_bus_id_solver_ m1 = slack_bus_id_solver_ m2;
  sa_Ybus : Ybus_ m1 = Ybus_ m2;
  sa_Sbus : Sbus_ m1 = Sbus_ m2;
  sa_bus_pv : bus_pv_ m1 = bus_pv_ m2;
  sa_bus_pq : bus_pq_ m1 = bus_pq_ m2;
  sa_solver : _solver m1 = _solver m2 }.

(** After [reset()]; and once [slack_bus_id_] is assigned as well. *)
Definition same_after_reset (m1 m2 : GridModel) : Prop :=
  same_inputs m1 m2 /\ same_assembly m1 m2.

Definition same_solve_state (m1 m2 : GridModel) : Prop :=
  same_inputs m1 m2 /\ same_assembly m1 m2 /\ slack_bus_id_ m1 = slack_bus_id_ m2.

(** Two member functions that, from related grids, end alike: both throw
    the same error, or both return, with related values and related
    grids. *)
Definition sim {A} (Ra : A -> A -> Prop) (P Q : GridModel -> GridModel -> Prop)
           (x1 x2 : method A) : Prop :=
  forall m1 m2 : GridModel,
    P m1 m2 ->
    match fst (x1 m1), fst (x2 m2) with
    | Ok a1, Ok a2 => Ra a1 a2 /\ Q (snd (x1 m1)) (snd (x2 m2))
    | Throw e1, Throw e2 => e1 = e2
    | _, _ => False
    end.

(** ** Construction, copy and the vectorised updates *)

Definition set_grid2op (v : Grid2opAttrs) (m : GridModel) : GridModel :=
  mkGridModel (need_reset_ m) (compute_results_ m) (init_vm_pu_ m) (sn_mva_ m)
    (bus_vn_kv_ m) (bus_status_ m) (id_me_to_solver_ m) (id_solver_to_me_ m)
    (powerlines_ m) (shunts_ m) (trafos_ m) (generators_ m) (loads_ m) (sgens_ m)
    (storages_ m) (gen_slackbus_ m) (slack_bus_id_ m) (slack_bus_id_solver_ m) (Ybus_ m)
    (Sbus_ m) (bus_pv_ m) (bus_pq_ m) (_solver m) v.

(** [init_bus(bus_vn_kv, nb_line, nb_trafo)]: the two counts are not
    used. *)
Definition init_bus (bus_vn_kv : RealVect) (nb_line nb_trafo : Z) : method unit :=
  let nb_bus := vec_size bus_vn_kv in
  assign (set_bus_vn_kv bus_vn_kv);;                              (* base_kv *)
  (* by default everything is connected *)
  assign (set_bus_status (replicate (Z.to_nat nb_bus) true)).

(** The attributes specific to grid2op that the copy constructor assigns:
    [n_sub_], the six [*_pos_topo_vect_] and the six [*_to_subid_] of
    lines, transformers, loads and generators.  It has no statement for
    [storage_pos_topo_vect_] and [storage_to_subid_]. *)
Definition copy_grid2op (self other : Grid2opAttrs) : Grid2opAttrs :=
  mkGrid2opAttrs
    (n_sub_ other)
    (load_pos_topo_vect_ other) (gen_pos_topo_vect_ other)
    (line_or_pos_topo_vect_ other) (line_ex_pos_topo_vect_ other)
    (trafo_hv_pos_topo_vect_ other) (trafo_lv_pos_topo_vect_ other)
    (storage_pos_topo_vect_ self)
    (load_to_subid_ other) (gen_to_subid_ other)
    (line_or_to_subid_ other) (line_ex_to_subid_ other)
    (trafo_hv_to_subid_ other) (trafo_lv_to_subid_ other)
    (storage_to_subid_ self).

(** [GridModel::GridModel(const GridModel & other)], as a member function
    of the object under construction: the constructor has no initialiser
    list, so it starts from the members as default-initialisation leaves
    them and runs its body.  The assignment through [bus_vn_kv_.array()]
    is read as Eigen performs it on a resizable vector: the destination
    takes the size and the entries of the source. *)
Definition copy_constructor (other : GridModel) : method unit :=
  reset;;
  (* assign the right solver *)
  assign (fun m => set_solver (ChooseSolver.change_solver
                                 (_solver m) (ChooseSolver.get_type (_solver other))) m);;
  assign (set_compute_results (compute_results_ other));;
  (* copy the powersystem representation *)
  (* 1. bus *)
  assign (set_bus_vn_kv (bus_vn_kv_ other));;
  assign (set_bus_status (bus_status_ other));;
  (* 2. powerline *)
  assign (set_powerlines (powerlines_ other));;
  (* 3. shunt *)
  assign (set_shunts (shunts_ other));;
  (* 4. transformers *)
  assign (set_trafos (trafos_ other));;
  (* 5. generators *)
  assign (set_generators (generators_ other));;
  (* 6. loads *)
  assign (set_loads (loads_ other));;
  (* 7. slack bus *)
  assign (set_gen_slackbus (gen_slackbus_ other));;
  assign (set_slack_bus_id (slack_bus_id_ other));;
  (* copy the attributes specific grid2op (speed optimization) *)
  assign (fun m => set_grid2op (copy_grid2op (grid2op_ m) (grid2op_ other)) m).

(** [copy()]: [GridModel res( *this ); return res;].  [fresh] stands for
    the default-initialised members of [res]. *)
Definition copy (fresh this : GridModel) : GridModel :=
  snd (copy_constructor this fresh).

Definition deactivate_result_computation : method unit :=
  assign (set_compute_results false).
Definition reactivate_result_computation : method unit :=
  assign (set_compute_results true).

(** [for (int i = 0; i < n; ++i) body(i)] where the body calls member
    functions. *)
Fixpoint method_loop_from (i : Z) (count : nat) (body : Z -> method unit) : method unit :=
  match count with
  | O => mret tt
  | Datatypes.S count' => body i;; method_loop_from (i + 1) count' body
  end.

Definition method_loop (n : Z) (body : Z -> method unit) : method unit :=
  method_loop_from 0 (Z.to_nat n) body.

(** One turn of the loop of [update_continuous_values]. *)
Definition update_continuous_values_body (has_changed : list bool) (new_values : list R)
           (fun_ : Z -> real_type -> method unit) (el_id : Z) : method unit :=
  changed ← local (vec_get has_changed el_id);
  if (changed : bool) then
    new_value ← local (vec_get new_values el_id);
    fun_ el_id new_value
  else mret tt.

(** The template [update_continuous_values(has_changed, new_values, fun)];
    [fun] is a pointer to a member function such as [change_p_gen].  The
    [float] values are read as reals. *)
Definition update_continuous_values (has_changed : list bool) (new_values : list R)
           (fun_ : Z -> real_type -> method unit) : method unit :=
  method_loop (vec_size has_changed)
              (update_continuous_values_body has_changed new_values fun_).

(** One turn of the loop of [update_topo_generic]. *)
Definition update_topo_generic_body (has_changed : list bool) (new_values : list Z)
           (vect_pos vect_subid : list Z)
           (fun_react : Z -> method unit) (fun_change : Z -> Z -> method unit)
           (fun_deact : Z -> method unit) (el_id : Z) : method unit :=
  el_pos ← local (vec_get vect_pos el_id);
  changed ← local (vec_get has_changed el_pos);
  if (changed : bool) then
    new_bus ← local (vec_get new_values el_pos);
    if new_bus >? 0 then
      (* new bus is a real bus, so i need to make sure to have it turned on,
         and then change the bus *)
      init_bus_me ← local (vec_get vect_subid el_id);
      n_sub ← member (fun m => n_sub_ (grid2op_ m));
      let new_bus_backend := if new_bus =? 1 then init_bus_me else init_bus_me + n_sub in
      fun_react el_id;;
      fun_change el_id new_bus_backend
    else
      (* new bus is negative, we deactivate it *)
      fun_deact el_id
  else mret tt.

(** The template [update_topo_generic]; the three functions are pointers
    to member functions such as [reactivate_load], [change_bus_load] and
    [deactivate_load]. *)
Definition update_topo_generic (has_changed : list bool) (new_values : list Z)
           (vect_pos vect_subid : list Z)
           (fun_react : Z -> method unit) (fun_change : Z -> Z -> method unit)
           (fun_deact : Z -> method unit) : method unit :=
  method_loop (vec_size vect_pos)
              (update_topo_generic_body has_changed new_values vect_pos vect_subid
                                        fun_react fun_change fun_deact).

(** ** What the topology update asks for

    The calls of [update_topo_generic], by its comments: an element whose
    topology position is not flagged is left alone; "new bus is a real
    bus, so i need to make sure to have it turned on, and then change the
    bus"; "new bus is negative, we deactivate it". *)
Inductive topo_action : Set :=
| Reactivate_and_change (el_id new_bus init_bus_me : Z)
| Deactivate (el_id : Z).

(** The actions for the elements [el_id], [el_id + 1], ... whose
    positions and substations are listed. *)
Fixpoint topo_actions_from (has_changed : list bool) (new_values : list Z) (el_id : Z)
         (vect_pos vect_subid : list Z) : list topo_action :=
  match vect_pos, vect_subid with
  | el_pos :: vect_pos', init_bus_me :: vect_subid' =>
      match has_changed !! Z.to_nat el_pos, new_values !! Z.to_nat el_pos with
      | Some true, Some new_bus =>
          [if 0 <? new_bus then Reactivate_and_change el_id new_bus init_bus_me
           else Deactivate el_id]
      | _, _ => []
      end ++ topo_actions_from has_changed new_values (el_id + 1) vect_pos' vect_subid'
  | _, _ => []
  end.

Definition topo_actions (has_changed : list bool) (new_values vect_pos vect_subid : list Z)
  : list topo_action :=
  topo_actions_from has_changed new_values 0 vect_pos vect_subid.

(** Carrying out one action with the member functions given: the bus of
    the first busbar of the substation for the value 1, the bus [n_sub_]
    further for any other positive value. *)
Definition perform (fun_react : Z -> method unit) (fun_change : Z -> Z -> method unit)
           (fun_deact : Z -> method unit) (a : topo_action) : method unit :=
  match a with
  | Reactivate_and_change el_id new_bus init_bus_me =>
      n_sub ← member (fun m => n_sub_ (grid2op_ m));
      fun_react el_id;;
      fun_change el_id (if new_bus =? 1 then init_bus_me else init_bus_me + n_sub)
  | Deactivate el_id => fun_deact el_id
  end.

(** Carrying out the actions one after the other, up to the first that
    throws. *)
Fixpoint perform_all (fun_react : Z -> method unit) (fun_change : Z -> Z -> method unit)
         (fun_deact : Z -> method unit) (l : list topo_action) : method unit :=
  match l with
  | [] => mret tt
  | a :: l' =>
      perform fun_react fun_change fun_deact a;;
      perform_all fun_react fun_change fun_deact l'
  end.

(** ** Further specification predicates *)

(** A member function that leaves every member as it is, whether it
    returns or throws. *)
Definition keeps {A} (x : method A) : Prop := forall m : GridModel, snd (x m) = m.

(** The indices [0 .. n-1]. *)
Definition iota (n : nat) : list Z := map Z.of_nat (seq 0 n).

(** The members that describe the grid and hold the results of the last
    projection, as opposed to those a solve assembles ([Ybus_], [Sbus_],
    the index maps, the classification, the slack bus ids), the solver
    and [need_reset_]. *)
Record untouched (m m' : GridModel) : Prop := {
  ut_compute_results : compute_results_ m' = compute_results_ m;
  ut_init_vm_pu : init_vm_pu_ m' = init_vm_pu_ m;
  ut_sn_mva : sn_mva_ m' = sn_mva_ m;
  ut_bus_vn_kv : bus_vn_kv_ m' = bus_vn_kv_ m;
  ut_bus_status : bus_status_ m' = bus_status_ m;
  ut_powerlines : powerlines_ m' = powerlines_ m;
  ut_shunts : shunts_ m' = shunts_ m;
  ut_trafos : trafos_ m' = trafos_ m;
  ut_gens : DataGen.gens (generators_ m') = DataGen.gens (generators_ m);
  ut_gen_res : DataGen.res (generators_ m') = DataGen.res (generators_ m);
  ut_loads : loads_ m' = loads_ m;
  ut_sgens : sgens_ m' = sgens_ m;
  ut_storages : storages_ m' = storages_ m;
  ut_gen_slackbus : gen_slackbus_ m' = gen_slackbus_ m;
  ut_grid2op : grid2op_ m' = grid2op_ m }.

(** A member function that leaves the inputs of a solve as they are,
    whether it returns or throws. *)
Definition inputs_kept {A} (x : method A) : Prop :=
  forall m : GridModel, same_inputs (snd (x m)) m.

(** A member function that leaves the value [f] reads from the grid as it
    is, whether it returns or throws. *)
Definition field_kept {A B} (f : GridModel -> B) (x : method A) : Prop :=
  forall m : GridModel, f (snd (x m)) = f m.

(** * Properties *)

(** ** Outcomes and vectors *)

Lemma bind_Ok {A B} (x : outcome A) (f : A -> outcome B) (b : B) :
  x ≫= f = Ok b <-> exists a, x = Ok a /\ f a = Ok b.
Proof.
  destruct x as [a|e]; simpl; split.
  - intros Hf. exists a. auto.
  - intros (a' & Ha & Hf). congruence.
  - discriminate.
  - intros (a' & Ha & _). discriminate.
Qed.

Lemma vec_get_Ok {A} (v : list A) (i : Z) (x : A) :
  vec_get v i = Ok x <-> 0 <= i /\ v !! Z.to_nat i = Some x.
Proof.
  unfold vec_get. destruct (Z.leb_spec 0 i) as [Hi|Hi].
  - destruct (v !! Z.to_nat i) as [y|]; split.
    + intros [= ->]. auto.
    + intros [_ [= ->]]. reflexivity.
    + discriminate.
    + intros [_ [=]].
  - split; [discriminate | lia].
Qed.

Lemma vec_get_nat {A} (v : list A) (i : nat) (x : A) :
  v !! i = Some x -> vec_get v (Z.of_nat i) = Ok x.
Proof. intros Hx. apply vec_get_Ok. rewrite Nat2Z.id. split; [lia | exact Hx]. Qed.

Lemma vec_set_Ok {A} (v : list A) (i : Z) (x : A) (v' : list A) :
  vec_set v i x = Ok v' <-> (0 <= i < vec_size v) /\ v' = <[Z.to_nat i := x]> v.
Proof.
  unfold vec_set.
  destruct (Z.leb_spec 0 i) as [Hi|Hi]; destruct (Z.ltb_spec i (vec_size v)) as [Hs|Hs];
    simpl; split; try discriminate; try (intros [? _]; lia).
  - intros [= <-]. auto.
  - intros [_ ->]. reflexivity.
Qed.

Lemma vec_set_nat {A} (v : list A) (i : nat) (x : A) :
  (i < length v)%nat -> vec_set v (Z.of_nat i) x = Ok (<[i := x]> v).
Proof.
  intros Hi. apply vec_set_Ok. rewrite Nat2Z.id. unfold vec_size. split; [lia | reflexivity].
Qed.

(** ** Loops *)

(** The invariant rule for a counted loop that runs to its end. *)
Lemma for_loop_from_inv {S} (P : nat -> S -> Prop) (body : Z -> S -> outcome S) :
  forall (count start : nat) (s s' : S),
    P start s ->
    (forall k t t', (start <= k < start + count)%nat -> P k t ->
                    body (Z.of_nat k) t = Ok t' -> P (Datatypes.S k) t') ->
    for_loop_from (Z.of_nat start) count body s = Ok s' ->
    P (start + count)%nat s'.
Proof.
  induction count as [|count IH]; intros start s s' H0 Hstep Hrun; simpl in Hrun.
  - injection Hrun as <-. now rewrite Nat.add_0_r.
  - apply bind_Ok in Hrun as (t & Hbody & Hrest).
    replace (start + Datatypes.S count)%nat with (Datatypes.S start + count)%nat by lia.
    apply (IH (Datatypes.S start) t s').
    + apply (Hstep start s t); [lia | exact H0 | exact Hbody].
    + intros k u u' Hk. apply Hstep. lia.
    + rewrite Nat2Z.inj_succ. exact Hrest.
Qed.

Lemma for_loop_inv {S} (P : nat -> S -> Prop) (body : Z -> S -> outcome S)
      (n : nat) (s s' : S) :
  P O s ->
  (forall k t t', (k < n)%nat -> P k t -> body (Z.of_nat k) t = Ok t' -> P (Datatypes.S k) t') ->
  for_loop (Z.of_nat n) body s = Ok s' ->
  P n s'.
Proof.
  intros H0 Hstep Hrun. unfold for_loop in Hrun. rewrite Nat2Z.id in Hrun.
  apply (for_loop_from_inv P body n O s s' H0); [| exact Hrun].
  intros k t t' Hk. apply Hstep. lia.
Qed.

(** A counted loop whose body cannot fail under the invariant runs to its
    end. *)
Lemma for_loop_from_runs {S} (P : nat -> S -> Prop) (body : Z -> S -> outcome S) :
  forall (count start : nat) (s : S),
    P start s ->
    (forall k t, (start <= k < start + count)%nat -> P k t ->
                 exists t', body (Z.of_nat k) t = Ok t' /\ P (Datatypes.S k) t') ->
    exists s', for_loop_from (Z.of_nat start) count body s = Ok s'.
Proof.
  induction count as [|count IH]; intros start s H0 Hstep; simpl.
  - eauto.
  - destruct (Hstep start s) as (t & Hbody & Ht); [lia | exact H0 |].
    rewrite Hbody. simpl.
    destruct (IH (Datatypes.S start) t Ht) as (s' & Hs').
    + intros k u Hk. apply Hstep. lia.
    + exists s'. rewrite Nat2Z.inj_succ in Hs'. exact Hs'.
Qed.

Lemma for_loop_runs {S} (P : nat -> S -> Prop) (body : Z -> S -> outcome S) (n : nat) (s : S) :
  P O s ->
  (forall k t, (k < n)%nat -> P k t ->
               exists t', body (Z.of_nat k) t = Ok t' /\ P (Datatypes.S k) t') ->
  exists s', for_loop (Z.of_nat n) body s = Ok s'.
Proof.
  intros H0 Hstep. unfold for_loop. rewrite Nat2Z.id.
  apply (for_loop_from_runs P body n O s H0).
  intros k t Hk. apply Hstep. lia.
Qed.

Lemma for_each_inv {A S} (P : S -> Prop) (body : A -> S -> outcome S) :
  forall (v : list A) (s s' : S),
    P s ->
    (forall x t t', In x v -> P t -> body x t = Ok t' -> P t') ->
    for_each v body s = Ok s' ->
    P s'.
Proof.
  induction v as [|x v IH]; intros s s' H0 Hstep Hrun; simpl in Hrun.
  - now injection Hrun as <-.
  - apply bind_Ok in Hrun as (t & Hbody & Hrest).
    apply (IH t s'); [| | exact Hrest].
    + apply (Hstep x s t); [now left | exact H0 | exact Hbody].
    + intros y u u' Hy. apply Hstep. now right.
Qed.

(** ** The bus index mapper *)

Lemma count_connected_snoc (bus_status : list bool) (b : bool) :
  count_connected (bus_status ++ [b]) =
  (count_connected bus_status + if b then 1 else 0)%nat.
Proof.
  unfold count_connected. rewrite count_occ_app. destruct b; reflexivity.
Qed.

Lemma nb_bus_from (bus_status : list bool) (res : Z) :
  fold_left (fun res (el : bool) => if el then res + 1 else res) bus_status res =
  res + Z.of_nat (count_connected bus_status).
Proof.
  revert res. induction bus_status as [|b l IH]; intros res; simpl.
  - unfold count_connected. simpl. lia.
  - rewrite IH. unfold count_connected. destruct b; simpl; lia.
Qed.

Lemma nb_bus_count (m : GridModel) :
  nb_bus m = Z.of_nat (count_connected (bus_status_ m)).
Proof. unfold nb_bus. rewrite nb_bus_from. lia. Qed.

Lemma StronglySorted_snoc {A} (R : A -> A -> Prop) (l : list A) (y : A) :
  StronglySorted R l -> List.Forall (fun x => R x y) l -> StronglySorted R (l ++ [y]).
Proof.
  induction 1 as [|x l Hl IH Hx]; intros Hy; simpl.
  - repeat constructor.
  - inversion Hy as [|? ? Hxy Hy']; subst. constructor.
    + apply IH. exact Hy'.
    + apply List.Forall_app. split; [exact Hx | repeat constructor; exact Hxy].
Qed.

Lemma index_maps_nil : index_maps [] [] [].
Proof.
  split; try reflexivity.
  - intros i Hi. rewrite lookup_nil in Hi. discriminate.
  - intros i Hi. rewrite lookup_nil in Hi. discriminate.
  - constructor.
  - intros x. split; [intros [] | intros (i & _ & Hi)].
    rewrite lookup_nil in Hi. discriminate.
Qed.

Lemma index_maps_snoc_false (bus_status : list bool) (me so : list Z) :
  index_maps bus_status me so ->
  index_maps (bus_status ++ [false]) (me ++ [-1]) so.
Proof.
  intros [Hlm Hls Hc Hd Hs Hl]. split.
  - rewrite !length_app, Hlm. reflexivity.
  - rewrite count_connected_snoc. lia.
  - intros i Hi. apply lookup_app_Some in Hi as [Hi | [_ Hi]].
    + destruct (Hc i Hi) as (j & Hj & Hme & Hso). exists j.
      rewrite count_connected_snoc. split; [lia | split; [| exact Hso]].
      apply lookup_app_l_Some. exact Hme.
    + apply list_lookup_singleton_Some in Hi as [_ [=]].
  - intros i Hi. apply lookup_app_Some in Hi as [Hi | [Hlen Hi]].
    + apply lookup_app_l_Some. apply Hd. exact Hi.
    + apply list_lookup_singleton_Some in Hi as [Hi _].
      assert (i = length me) as -> by lia.
      rewrite lookup_app_r by lia. now rewrite Nat.sub_diag.
  - exact Hs.
  - intros x. rewrite Hl. split; intros (i & -> & Hi); exists i; split; try reflexivity.
    + apply lookup_app_l_Some. exact Hi.
    + apply lookup_app_Some in Hi as [Hi | [_ Hi]]; [exact Hi |].
      apply list_lookup_singleton_Some in Hi as [_ [=]].
Qed.

Lemma index_maps_snoc_true (bus_status : list bool) (me so : list Z) :
  index_maps bus_status me so ->
  index_maps (bus_status ++ [true]) (me ++ [Z.of_nat (length so)])
             (so ++ [Z.of_nat (length bus_status)]).
Proof.
  intros [Hlm Hls Hc Hd Hs Hl]. split.
  - rewrite !length_app, Hlm. reflexivity.
  - rewrite count_connected_snoc, length_app, Hls. reflexivity.
  - intros i Hi. rewrite count_connected_snoc.
    apply lookup_app_Some in Hi as [Hi | [Hlen Hi]].
    + destruct (Hc i Hi) as (j & Hj & Hme & Hso). exists j.
      split; [lia | split]; apply lookup_app_l_Some; assumption.
    + apply list_lookup_singleton_Some in Hi as [Hi _].
      assert (i = length bus_status) as -> by lia.
      exists (length so). split; [lia | split].
      * rewrite lookup_app_r by lia. rewrite Hlm, Nat.sub_diag. reflexivity.
      * rewrite lookup_app_r by lia. rewrite Nat.sub_diag. reflexivity.
  - intros i Hi. apply lookup_app_Some in Hi as [Hi | [_ Hi]].
    + apply lookup_app_l_Some. apply Hd. exact Hi.
    + apply list_lookup_singleton_Some in Hi as [_ [=]].
  - apply StronglySorted_snoc; [exact Hs |].
    apply List.Forall_forall. intros x Hx. apply Hl in Hx as (i & -> & Hi).
    apply lookup_lt_Some in Hi. lia.
  - intros x. rewrite in_app_iff, Hl. split.
    + intros [(i & -> & Hi) | [<- | []]].
      * exists i. split; [reflexivity | apply lookup_app_l_Some; exact Hi].
      * exists (length bus_status). split; [reflexivity |].
        rewrite lookup_app_r by lia. now rewrite Nat.sub_diag.
    + intros (i & -> & Hi). apply lookup_app_Some in Hi as [Hi | [Hlen Hi]].
      * left. exists i. auto.
      * apply list_lookup_singleton_Some in Hi as [Hi _].
        right. left. f_equal. lia.
Qed.

(** One turn of the loop keeps the invariant. *)
Lemma init_Ybus_body_inv (bus_status : list bool) (n k : nat)
      (st st' : list Z * list Z * Z) :
  (k < n)%nat ->
  init_Ybus_inv bus_status n k st ->
  init_Ybus_body bus_status (Z.of_nat k) st = Ok st' ->
  init_Ybus_inv bus_status n (Datatypes.S k) st'.
Proof.
  destruct st as [[me so] c]. intros Hk (Hlen & Hc & Hmaps & Hrest) Hbody.
  unfold init_Ybus_body in Hbody.
  apply bind_Ok in Hbody as (b & Hb & Hbody).
  apply vec_get_Ok in Hb as [_ Hb]. rewrite Nat2Z.id in Hb.
  assert (Hme : me !! k = Some (-1)) by (apply Hrest; lia).
  destruct b.
  - apply bind_Ok in Hbody as (me' & Hset & Hret).
    apply vec_set_Ok in Hset as [_ ->]. rewrite Nat2Z.id in Hret.
    injection Hret as <-. unfold init_Ybus_inv.
    rewrite (take_S_r _ _ _ Hb), length_insert. split; [exact Hlen | split; [| split]].
    + rewrite length_app. simpl. lia.
    + assert (Htake : take (Datatypes.S k) (<[k := c]> me) = take k me ++ [c]).
      { rewrite (take_S_r _ k c).
        - rewrite take_insert_ge by lia. reflexivity.
        - apply list_lookup_insert_eq. lia. }
      rewrite Htake, Hc.
      replace (Z.of_nat k) with (Z.of_nat (length (take k bus_status))).
      * apply index_maps_snoc_true. exact Hmaps.
      * f_equal. rewrite length_take. apply lookup_lt_Some in Hb. lia.
    + intros i Hi. rewrite list_lookup_insert_ne by lia. apply Hrest. lia.
  - injection Hbody as <-. unfold init_Ybus_inv.
    rewrite (take_S_r _ _ _ Hb).
    split; [exact Hlen | split; [exact Hc | split]].
    + rewrite (take_S_r _ _ _ Hme). apply index_maps_snoc_false. exact Hmaps.
    + intros i Hi. apply Hrest. lia.
Qed.

(** With a status for every bus, no turn of the loop leaves a vector. *)
Lemma init_Ybus_body_runs (bus_status : list bool) (n k : nat) (st : list Z * list Z * Z) :
  (n <= length bus_status)%nat -> (k < n)%nat ->
  init_Ybus_inv bus_status n k st ->
  exists st', init_Ybus_body bus_status (Z.of_nat k) st = Ok st'.
Proof.
  destruct st as [[me so] c]. intros Hn Hk (Hlen & _). unfold init_Ybus_body.
  destruct (lookup_lt_is_Some_2 bus_status k) as [b Hb]; [lia |].
  rewrite (vec_get_nat _ _ _ Hb). simpl. destruct b; [| eauto].
  rewrite vec_set_nat by lia. simpl. eauto.
Qed.

Lemma init_Ybus_inv_start (bus_status : list bool) (n : nat) :
  init_Ybus_inv bus_status n O (replicate n (-1), [], 0).
Proof.
  unfold init_Ybus_inv. rewrite length_replicate.
  split; [reflexivity | split; [reflexivity | split]].
  - rewrite !take_0. apply index_maps_nil.
  - intros i Hi. apply lookup_replicate_2. lia.
Qed.

(** The loop of [init_Ybus], from start to end. *)
Lemma init_Ybus_loop (bus_status : list bool) (n : nat) :
  (n <= length bus_status)%nat ->
  exists st, for_loop (Z.of_nat n) (init_Ybus_body bus_status) (replicate n (-1), [], 0) = Ok st
             /\ init_Ybus_inv bus_status n n st.
Proof.
  intros Hn.
  destruct (for_loop_runs (init_Ybus_inv bus_status n) (init_Ybus_body bus_status) n
                          (replicate n (-1), [], 0)) as (st & Hst).
  - apply init_Ybus_inv_start.
  - intros k t Hk Ht. destruct (init_Ybus_body_runs bus_status n k t Hn Hk Ht) as (t' & Ht').
    exists t'. split; [exact Ht' |]. now apply (init_Ybus_body_inv bus_status n k t).
  - exists st. split; [exact Hst |].
    apply (for_loop_inv (init_Ybus_inv bus_status n) (init_Ybus_body bus_status) n
                        (replicate n (-1), [], 0)); [apply init_Ybus_inv_start | | exact Hst].
    intros k t t' Hk. now apply init_Ybus_body_inv.
Qed.

Lemma index_maps_range (bus_status : list bool) (me so : list Z) (i : nat) (x : Z) :
  index_maps bus_status me so ->
  me !! i = Some x ->
  x = -1 \/ 0 <= x < Z.of_nat (length so).
Proof.
  intros [Hlm Hls Hc Hd _ _] Hx.
  destruct (lookup_lt_is_Some_2 bus_status i) as [b Hb].
  { rewrite <- Hlm. apply lookup_lt_Some in Hx. exact Hx. }
  destruct b.
  - destruct (Hc i Hb) as (j & Hj & Hme & _). right.
    rewrite Hme in Hx. injection Hx as <-. lia.
  - left. rewrite (Hd i Hb) in Hx. now injection Hx as <-.
Qed.

Lemma index_maps_connected_iff (bus_status : list bool) (me so : list Z) (i : nat) (x : Z) :
  index_maps bus_status me so ->
  me !! i = Some x ->
  (x = -1 <-> bus_status !! i = Some false).
Proof.
  intros [Hlm Hls Hc Hd _ _] Hx.
  destruct (lookup_lt_is_Some_2 bus_status i) as [b Hb].
  { rewrite <- Hlm. apply lookup_lt_Some in Hx. exact Hx. }
  destruct b.
  - destruct (Hc i Hb) as (j & Hj & Hme & _).
    rewrite Hme in Hx. injection Hx as <-. split; [lia | congruence].
  - rewrite (Hd i Hb) in Hx. injection Hx as <-. tauto.
Qed.

(** What [init_Ybus] leaves in the referenced variables when it returns. *)
Lemma init_Ybus_Ok (m : GridModel) (refs refs' : YbusRefs) :
  init_Ybus m refs = (Ok tt, refs') ->
  let n := length (bus_vn_kv_ m) in
  let me := r_id_me_to_solver refs' in
  let so := r_id_solver_to_me refs' in
  (n <= length (bus_status_ m))%nat /\
  index_maps (take n (bus_status_ m)) me so /\
  r_Ybus refs' = sparse_zero (vec_size so) /\
  r_Sbus refs' = replicate (length so) Czero /\
  vec_get me (slack_bus_id_ m) = Ok (r_slack_bus_id_solver refs') /\
  r_slack_bus_id_solver refs' <> -1.
Proof.
  unfold init_Ybus, vec_size. rewrite Nat2Z.id.
  set (n := length (bus_vn_kv_ m)).
  destruct (for_loop _ _ _) as [[[me so] c]|e] eqn:Hloop; [| discriminate].
  assert (Hinv : init_Ybus_inv (bus_status_ m) n n (me, so, c)).
  { apply (for_loop_inv (init_Ybus_inv (bus_status_ m) n) (init_Ybus_body (bus_status_ m)) n
                        (replicate n (-1), [], 0)); [apply init_Ybus_inv_start | | exact Hloop].
    intros k t t' Hk. now apply init_Ybus_body_inv. }
  destruct Hinv as (Hlen & _ & Hmaps & _).
  rewrite (take_ge me) in Hmaps by lia.
  destruct (vec_get me (slack_bus_id_ m)) as [s|e] eqn:Hs; [| discriminate].
  destruct (Z.eqb_spec s _deactivated_bus_id) as [Heq|Hne]; [discriminate |].
  intros [= <-]. simpl. rewrite Nat2Z.id.
  split; [| split; [exact Hmaps | repeat split; auto]].
  pose proof (maps_length_me _ _ _ Hmaps) as Hl. rewrite length_take in Hl. lia.
Qed.

(** With a status for every bus, [init_Ybus] always rebuilds the maps:
    whether it returns or throws [SlackDisconnected]. *)
Lemma init_Ybus_maps (m : GridModel) (refs : YbusRefs) :
  length (bus_status_ m) = length (bus_vn_kv_ m) ->
  index_maps (bus_status_ m) (r_id_me_to_solver (snd (init_Ybus m refs)))
             (r_id_solver_to_me (snd (init_Ybus m refs))).
Proof.
  intros Hlen. unfold init_Ybus, vec_size. rewrite Nat2Z.id.
  set (n := length (bus_vn_kv_ m)).
  destruct (init_Ybus_loop (bus_status_ m) n) as ([[me so] c] & Hloop & Hinv); [lia |].
  unfold _deactivated_bus_id in *. rewrite Hloop.
  destruct Hinv as (Hme & _ & Hmaps & _).
  rewrite (take_ge me), (take_ge (bus_status_ m)) in Hmaps by lia.
  destruct (vec_get me (slack_bus_id_ m)) as [s|e]; [destruct (s =? -1) |]; exact Hmaps.
Qed.

(** C1.  Whenever [pre_process_solver] rebuilds the bus index maps (its
    call of [init_Ybus] on the members), every connected bus [i] gets a
    dense solver index [j] in [[0, K)] with [id_solver_to_me_[j] = i], every
    disconnected bus gets [-1], and [id_solver_to_me_] has length [K], the
    number of connected buses, and lists exactly the connected buses in
    increasing order.  This holds whether [init_Ybus] then returns or
    throws because of the slack bus. *)
Theorem init_Ybus_bus_index_maps (m : GridModel) :
  length (bus_status_ m) = length (bus_vn_kv_ m) ->
  let m' := snd (init_Ybus_members m) in
  let K := nb_bus m in
  bus_status_ m' = bus_status_ m /\
  vec_size (id_solver_to_me_ m') = K /\
  (forall i : nat,
      bus_status_ m !! i = Some true ->
      exists j : Z, 0 <= j < K /\
                    id_me_to_solver_ m' !! i = Some j /\
                    id_solver_to_me_ m' !! Z.to_nat j = Some (Z.of_nat i)) /\
  (forall i : nat,
      bus_status_ m !! i = Some false -> id_me_to_solver_ m' !! i = Some (-1)) /\
  StronglySorted Z.lt (id_solver_to_me_ m') /\
  (forall x : Z,
      In x (id_solver_to_me_ m') <->
      exists i : nat, x = Z.of_nat i /\ bus_status_ m !! i = Some true).
Proof.
  intros Hlen m' K. subst m' K. unfold init_Ybus_members.
  pose proof (init_Ybus_maps m (mkYbusRefs (Ybus_ m) (Sbus_ m) (id_me_to_solver_ m)
                                          (id_solver_to_me_ m) (slack_bus_id_solver_ m)) Hlen)
    as Hmaps.
  destruct (init_Ybus m _) as [o refs]. simpl in *.
  destruct Hmaps as [Hlm Hls Hc Hd Hs Hl].
  rewrite nb_bus_count. unfold vec_size.
  split; [reflexivity | split; [now rewrite Hls | split; [| auto]]].
  intros i Hi. destruct (Hc i Hi) as (j & Hj & Hme & Hso).
  exists (Z.of_nat j). rewrite Nat2Z.id. split; [lia | auto].
Qed.

Lemma init_Ybus_bus_index_maps_witness :
  vec_size (id_solver_to_me_ (snd (init_Ybus_members slack_off_grid))) = nb_bus slack_off_grid.
Proof.
  apply (init_Ybus_bus_index_maps slack_off_grid). reflexivity.
Defined.

(** ** The slack correction *)





(** ** The slack generator *)

(** C7.  [add_gen_slackbus] accepts the id one past the last generator:
    called with the number of generators it does not raise and records
    that id as the slack generator. *)
Theorem add_gen_slackbus_accepts_nb (m : GridModel) :
  add_gen_slackbus (DataGen.nb (generators_ m)) m
  = (Ok tt, set_gen_slackbus (DataGen.nb (generators_ m)) m).
Proof.
  unfold add_gen_slackbus, DataGen.nb, vec_size.
  destruct (Z.ltb_spec (Z.of_nat (length (DataGen.gens (generators_ m)))) 0) as [Hneg|_];
    [lia |].
  unfold mbind, method_bind, member. rewrite Z.gtb_ltb, Z.ltb_irrefl. reflexivity.
Qed.

(** What [add_gen_slackbus] does for every [gen_id]: it raises exactly
    when [gen_id < 0] or [gen_id > nb], and otherwise assigns
    [gen_slackbus_] and nothing else. *)
Lemma add_gen_slackbus_spec (gen_id : Z) (m : GridModel) :
  add_gen_slackbus gen_id m
  = if (gen_id <? 0) || (gen_id >? DataGen.nb (generators_ m))
    then (Throw SlackInvalid, m)
    else (Ok tt, set_gen_slackbus gen_id m).
Proof.
  unfold add_gen_slackbus. destruct (gen_id <? 0); [reflexivity |].
  unfold mbind, method_bind, member. simpl.
  destruct (gen_id >? DataGen.nb (generators_ m)); reflexivity.
Qed.

(** ** Storage units *)

Lemma map_insert_same {A B} (f : A -> B) (l : list A) (i : nat) (x y : A) :
  l !! i = Some x -> f y = f x -> map f (<[i := y]> l) = map f l.
Proof.
  revert i. induction l as [|z l IH]; intros [|i] Hi Hf; simpl in *; try discriminate.
  - injection Hi as ->. now rewrite Hf.
  - now rewrite (IH i Hi Hf).
Qed.

(** C9.  A call of [change_p_storage] that returns has written the new
    active power into the storage unit [storage_id] and set [need_reset_];
    the status of every storage unit (also of [storage_id], also when the
    new value is 0), its bus, its reactive power, the stored results and
    every other member of the grid are as before. *)
Theorem change_p_storage_frame (storage_id : Z) (new_p : R) (m m' : GridModel) :
  change_p_storage storage_id new_p m = (Ok tt, m') ->
  exists el : PQElt,
    0 <= storage_id /\
    elems (storages_ m) !! Z.to_nat storage_id = Some el /\
    elems (storages_ m') !! Z.to_nat storage_id
      = Some (mkPQElt (pq_bus el) new_p (pq_q_mvar el) (pq_status el)) /\
    (forall k : nat, k <> Z.to_nat storage_id ->
                     elems (storages_ m') !! k = elems (storages_ m) !! k) /\
    map pq_status (elems (storages_ m')) = map pq_status (elems (storages_ m)) /\
    map pq_bus (elems (storages_ m')) = map pq_bus (elems (storages_ m)) /\
    map pq_q_mvar (elems (storages_ m')) = map pq_q_mvar (elems (storages_ m)) /\
    results (storages_ m') = results (storages_ m) /\
    need_reset_ m' = true /\
    m' = set_need_reset true (set_storages (storages_ m') m).
Proof.
  unfold change_p_storage, DataLoad.change_p. intros Hrun.
  destruct (vec_get (elems (storages_ m)) storage_id) as [el|e] eqn:Hget; [| discriminate].
  simpl in Hrun.
  destruct (vec_set (elems (storages_ m)) storage_id (DataLoad.with_p el new_p))
    as [els|e] eqn:Hset; [| discriminate].
  simpl in Hrun. injection Hrun as <-.
  apply vec_get_Ok in Hget as [Hpos Hel]. apply vec_set_Ok in Hset as [_ ->].
  exists el. simpl. unfold DataLoad.with_p.
  split; [exact Hpos | split; [exact Hel | split; [| split]]].
  - apply list_lookup_insert_eq. apply lookup_lt_Some in Hel. exact Hel.
  - intros k Hk. apply list_lookup_insert_ne. congruence.
  - repeat split; try (apply (map_insert_same _ _ _ el); [exact Hel | reflexivity]).
Qed.

Lemma change_p_storage_frame_witness :
  exists el : PQElt,
    0 <= 0 /\
    elems (storages_ two_bus_grid) !! Z.to_nat 0 = Some el /\
    elems (storages_ (snd (change_p_storage 0 0%R two_bus_grid))) !! Z.to_nat 0
      = Some (mkPQElt (pq_bus el) 0%R (pq_q_mvar el) (pq_status el)) /\
    (forall k : nat, k <> Z.to_nat 0 ->
                     elems (storages_ (snd (change_p_storage 0 0%R two_bus_grid))) !! k
                     = elems (storages_ two_bus_grid) !! k) /\
    map pq_status (elems (storages_ (snd (change_p_storage 0 0%R two_bus_grid))))
      = map pq_status (elems (storages_ two_bus_grid)) /\
    map pq_bus (elems (storages_ (snd (change_p_storage 0 0%R two_bus_grid))))
      = map pq_bus (elems (storages_ two_bus_grid)) /\
    map pq_q_mvar (elems (storages_ (snd (change_p_storage 0 0%R two_bus_grid))))
      = map pq_q_mvar (elems (storages_ two_bus_grid)) /\
    results (storages_ (snd (change_p_storage 0 0%R two_bus_grid)))
      = results (storages_ two_bus_grid) /\
    need_reset_ (snd (change_p_storage 0 0%R two_bus_grid)) = true /\
    snd (change_p_storage 0 0%R two_bus_grid)
      = set_need_reset true
          (set_storages (storages_ (snd (change_p_storage 0 0%R two_bus_grid))) two_bus_grid).
Proof.
  apply (change_p_storage_frame 0 0%R two_bus_grid). reflexivity.
Defined.

(** A call of [change_p_storage] that throws leaves the grid untouched. *)
Lemma change_p_storage_throw (storage_id : Z) (new_p : R) (m m' : GridModel) (e : error) :
  change_p_storage storage_id new_p m = (Throw e, m') -> m' = m.
Proof.
  unfold change_p_storage.
  destruct (DataLoad.change_p _ _ _ _) as [[d b]|e']; [discriminate |].
  now intros [= _ <-].
Qed.

(** ** Member functions, step by step *)

Lemma method_bind_Ok {A B} (x : method A) (f : A -> method B) (m m' : GridModel) (b : B) :
  (x ≫= f) m = (Ok b, m') ->
  exists (a : A) (m1 : GridModel), x m = (Ok a, m1) /\ f a m1 = (Ok b, m').
Proof.
  unfold mbind, method_bind. destruct (x m) as [[a|e] m1]; [eauto | discriminate].
Qed.

Lemma method_bind_run {A B} (x : method A) (f : A -> method B) (m m1 : GridModel) (a : A) :
  x m = (Ok a, m1) -> (x ≫= f) m = f a m1.
Proof. unfold mbind, method_bind. now intros ->. Qed.

Lemma method_bind_throw {A B} (x : method A) (f : A -> method B) (m m1 : GridModel)
      (e : error) :
  x m = (Throw e, m1) -> (x ≫= f) m = (Throw e, m1).
Proof. unfold mbind, method_bind. now intros ->. Qed.

Lemma NoDup_snoc {A} (l : list A) (x : A) :
  NoDup l -> x ∉ l -> NoDup (l ++ [x]).
Proof.
  intros Hl Hx. apply NoDup_app. split; [exact Hl | split].
  - intros y Hy Hy'. apply list_elem_of_singleton in Hy'. now subst y.
  - apply NoDup_singleton.
Qed.

(** ** The bus classifier *)

Lemma fillpv_inv_start (K : nat) (slack : Z) :
  fillpv_inv K slack ([], replicate K false).
Proof.
  unfold fillpv_inv. rewrite length_replicate.
  split; [reflexivity | split; [constructor | split; [apply not_elem_of_nil |]]].
  intros x. split; [intros Hx; now apply elem_of_nil in Hx |].
  intros (b & _ & Hb). apply lookup_replicate in Hb as [[=] _].
Qed.

(** A generator keeps the invariant: it adds its bus to [bus_pv] only if
    the bus is not the slack bus and not yet flagged. *)
Lemma fillpv_one_inv (K : nat) (slack : Z) (id_grid_to_solver : list Z) (g : Gen)
      (st st' : list Z * list bool) :
  fillpv_inv K slack st ->
  DataGen.fillpv_one slack id_grid_to_solver g st = Ok st' ->
  fillpv_inv K slack st'.
Proof.
  destruct st as [pv has]. intros (Hlen & Hnd & Hslack & Hflag) Hrun.
  unfold DataGen.fillpv_one in Hrun.
  destruct (negb (gen_status g)); [now injection Hrun as <- |].
  apply bind_Ok in Hrun as (b & _ & Hrun).
  destruct (b =? _deactivated_bus_id); [discriminate |].
  destruct (Z.eqb_spec b slack) as [_|Hne]; [now injection Hrun as <- |].
  apply bind_Ok in Hrun as (added & Hadded & Hrun).
  apply vec_get_Ok in Hadded as [Hpos Hadded].
  destruct added; [now injection Hrun as <- |].
  apply bind_Ok in Hrun as (has' & Hset & Hrun).
  apply vec_set_Ok in Hset as [_ ->]. injection Hrun as <-.
  assert (Hfresh : b ∉ pv).
  { intros Hin. apply Hflag in Hin as (c & Hc & Hflagged).
    subst b. rewrite Nat2Z.id in Hadded. congruence. }
  unfold fillpv_inv. rewrite length_insert.
  split; [exact Hlen | split; [now apply NoDup_snoc | split]].
  - rewrite elem_of_app, list_elem_of_singleton.
    intros [Hin | Heq]; [contradiction | congruence].
  - intros x. rewrite elem_of_app, list_elem_of_singleton, Hflag. split.
    + intros [(c & -> & Hc) | ->].
      * exists c. split; [reflexivity |].
        rewrite list_lookup_insert_ne; [exact Hc |]. intros Heq.
        rewrite Heq in Hadded. congruence.
      * exists (Z.to_nat b). split; [lia |].
        apply list_lookup_insert_eq. apply lookup_lt_Some in Hadded. exact Hadded.
    + intros (c & -> & Hc). destruct (Nat.eq_dec (Z.to_nat b) c) as [Heq|Hneq].
      * right. lia.
      * left. exists c. split; [reflexivity |].
        now rewrite list_lookup_insert_ne in Hc.
Qed.

Lemma fillpv_elements_inv (m : GridModel) (K : nat) (id_me_to_solver : list Z)
      (bus_pv : list Z) (has : list bool) :
  fillpv_elements m [] (replicate K false) id_me_to_solver = Ok (bus_pv, has) ->
  fillpv_inv K (slack_bus_id_solver_ m) (bus_pv, has).
Proof.
  unfold fillpv_elements, DataGeneric.fillpv, DataGen.fillpv. simpl. intros Hrun.
  apply (for_each_inv (fillpv_inv K (slack_bus_id_solver_ m)) _ _ _ _
                      (fillpv_inv_start K _)) in Hrun; [exact Hrun |].
  intros g t t' _. apply fillpv_one_inv.
Qed.

Lemma fillpv_pq_inv_start (K : nat) (slack : Z) (bus_pv : list Z) (has : list bool) :
  fillpv_inv K slack (bus_pv, has) ->
  fillpv_pq_inv K slack bus_pv O ([], has).
Proof.
  intros (Hlen & _ & _ & Hflag). unfold fillpv_pq_inv.
  split; [exact Hlen | split; [constructor | split; [| split]]].
  - intros x Hx. now apply elem_of_nil in Hx.
  - intros b Hb. lia.
  - intros x. rewrite <- Hflag, elem_of_nil. tauto.
Qed.

(** One turn of the loop of [fillpv_pq] keeps the invariant. *)
Lemma fillpv_pq_body_inv (K : nat) (slack : Z) (bus_pv : list Z) (k : nat)
      (st st' : list Z * list bool) :
  fillpv_pq_inv K slack bus_pv k st ->
  fillpv_pq_body slack (Z.of_nat k) st = Ok st' ->
  fillpv_pq_inv K slack bus_pv (Datatypes.S k) st'.
Proof.
  destruct st as [pq has]. intros (Hlen & Hnd & Hpq & Hbelow & Hflag) Hrun.
  unfold fillpv_pq_body in Hrun.
  destruct (Z.eqb_spec (Z.of_nat k) slack) as [Heq|Hne].
  { injection Hrun as <-. unfold fillpv_pq_inv.
    split; [exact Hlen | split; [exact Hnd | split; [| split; [| exact Hflag]]]].
    - intros x Hx. destruct (Hpq x Hx) as (? & ? & ?). split; [lia | auto].
    - intros b Hb Hbs. apply Hbelow; [| exact Hbs].
      destruct (Nat.eq_dec b k) as [-> | ?]; [contradiction | lia]. }
  apply bind_Ok in Hrun as (added & Hadded & Hrun).
  apply vec_get_Ok in Hadded as [_ Hadded]. rewrite Nat2Z.id in Hadded.
  assert (Hk_pq : Z.of_nat k ∉ pq).
  { intros Hin. apply Hpq in Hin. lia. }
  destruct added.
  { injection Hrun as <-. unfold fillpv_pq_inv.
    split; [exact Hlen | split; [exact Hnd | split; [| split; [| exact Hflag]]]].
    - intros x Hx. destruct (Hpq x Hx) as (? & ? & ?). split; [lia | auto].
    - intros b Hb Hbs. destruct (Nat.eq_dec b k) as [-> | ?]; [| apply Hbelow; [lia | auto]].
      apply Hflag. eauto. }
  apply bind_Ok in Hrun as (has' & Hset & Hrun).
  apply vec_set_Ok in Hset as [_ ->]. rewrite Nat2Z.id in Hrun. injection Hrun as <-.
  assert (Hk_new : ~ (Z.of_nat k ∈ bus_pv \/ Z.of_nat k ∈ pq)).
  { intros Hin. apply Hflag in Hin as (c & Hc & Hflagged).
    apply Nat2Z.inj in Hc. subst c. congruence. }
  unfold fillpv_pq_inv. rewrite length_insert.
  split; [exact Hlen | split; [apply NoDup_snoc; assumption | split; [| split]]].
  - intros x. rewrite elem_of_app, list_elem_of_singleton. intros [Hx | ->].
    + destruct (Hpq x Hx) as (? & ? & ?). split; [lia | auto].
    + split; [lia | split; [exact Hne | tauto]].
  - intros b Hb Hbs. rewrite elem_of_app, list_elem_of_singleton.
    destruct (Nat.eq_dec b k) as [-> | ?]; [right; now right |].
    destruct (Hbelow b) as [? | ?]; [lia | exact Hbs | auto | auto].
  - intros x. rewrite elem_of_app, list_elem_of_singleton. split.
    + intros [Hx | [Hx | ->]].
      * destruct (proj1 (Hflag x) (or_introl Hx)) as (c & -> & Hc).
        exists c. split; [reflexivity |].
        rewrite list_lookup_insert_ne; [exact Hc | congruence].
      * destruct (proj1 (Hflag x) (or_intror Hx)) as (c & -> & Hc).
        exists c. split; [reflexivity |].
        rewrite list_lookup_insert_ne; [exact Hc | congruence].
      * exists k. split; [reflexivity |].
        apply list_lookup_insert_eq. apply lookup_lt_Some in Hadded. exact Hadded.
    + intros (c & -> & Hc). destruct (Nat.eq_dec k c) as [<- | Hneq].
      * right. now right.
      * rewrite list_lookup_insert_ne in Hc by exact Hneq.
        destruct (proj2 (Hflag (Z.of_nat c))) as [? | ?]; eauto.
Qed.

(** The two invariants at the end of [fillpv_pq] give the partition,
    provided the slack bus is a solver bus. *)
Lemma classification_from_inv (K : nat) (slack : Z) (bus_pv bus_pq : list Z)
      (has has' : list bool) :
  0 <= slack < Z.of_nat K ->
  fillpv_inv K slack (bus_pv, has) ->
  fillpv_pq_inv K slack bus_pv K (bus_pq, has') ->
  classification (Z.of_nat K) slack bus_pv bus_pq.
Proof.
  intros Hslack (Hlen & Hnd & Hns & Hflag) (Hlen' & Hnd' & Hpq & Hbelow & Hflag').
  unfold classification.
  split; [exact Hnd | split; [exact Hnd' | split; [exact Hns | split; [| split]]]].
  - intros Hin. apply Hpq in Hin. tauto.
  - intros x Hx Hx'. apply Hpq in Hx'. tauto.
  - intros x. split.
    + intros Hx. destruct (Z.eq_dec x slack) as [? | Hne]; [now left | right].
      replace x with (Z.of_nat (Z.to_nat x)) in * by lia.
      apply Hbelow; [lia | exact Hne].
    + intros [-> | [Hx | Hx]]; [exact Hslack | |].
      * apply Hflag in Hx as (b & -> & Hb). apply lookup_lt_Some in Hb. lia.
      * apply Hpq in Hx. lia.
Qed.

(** What a call of [fillpv_pq] that returns has done. *)
Lemma fillpv_pq_Ok (id_me_to_solver : list Z) (m m' : GridModel) :
  fillpv_pq id_me_to_solver m = (Ok tt, m') ->
  0 <= slack_bus_id_solver_ m < vec_size (id_solver_to_me_ m) ->
  exists bus_pv bus_pq : list Z,
    m' = set_bus_pq bus_pq (set_bus_pv bus_pv (set_bus_pq [] (set_bus_pv [] m))) /\
    classification (vec_size (id_solver_to_me_ m)) (slack_bus_id_solver_ m) bus_pv bus_pq.
Proof.
  intros Hrun Hslack. unfold fillpv_pq in Hrun.
  unfold mbind, method_bind, member, assign, call, local in Hrun. simpl in Hrun.
  unfold vec_size in *. rewrite Nat2Z.id in Hrun.
  set (K := length (id_solver_to_me_ m)) in *.
  destruct (fillpv_elements _ [] (replicate K false) id_me_to_solver)
    as [[bus_pv has]|e] eqn:Hpv; [| discriminate].
  apply fillpv_elements_inv in Hpv. simpl in Hrun.
  destruct (for_loop (Z.of_nat K) (fillpv_pq_body (slack_bus_id_solver_ m)) ([], has))
    as [[bus_pq has']|e] eqn:Hpq; [| discriminate].
  injection Hrun as <-. exists bus_pv, bus_pq. split; [reflexivity |].
  apply (classification_from_inv K _ _ _ has has' Hslack Hpv).
  apply (for_loop_inv (fillpv_pq_inv K (slack_bus_id_solver_ m) bus_pv)
                      (fillpv_pq_body (slack_bus_id_solver_ m)) K ([], has));
    [now apply fillpv_pq_inv_start | | exact Hpq].
  intros k t t' _. apply fillpv_pq_body_inv.
Qed.

(** ** The stages of pre_process_solver *)

(** Read a member through one assignment: the assigned value, or the
    member of the object before. *)
Ltac member_of_assign :=
  repeat match goal with
    | |- context [?f (?s ?v ?m)] =>
        is_const f; is_const s;
        lazymatch type of m with GridModel => idtac end;
        lazymatch type of (s v m) with GridModel => idtac end;
        let E := fresh "E" in
        first [ assert (E : forall m0 : GridModel, f (s v m0) = f m0) by reflexivity
              | assert (E : forall m0 : GridModel, f (s v m0) = v) by reflexivity ];
        rewrite !E; clear E
    end.

(** Split off the first statement of a member function that returned. *)
Ltac method_step H :=
  let a := fresh "a" in
  let m := fresh "m" in
  let Hs := fresh "Hstep" in
  apply method_bind_Ok in H as (a & m & Hs & H);
  try (match type of a with unit => destruct a end);
  lazymatch type of Hs with
  | reset ?m0 = _ =>
      change (reset m0) with (Ok tt, after_reset m0) in Hs; injection Hs as <-
  | assign ?f ?m0 = _ =>
      change (assign f m0) with (Ok tt, f m0) in Hs; injection Hs as <-
  | member ?f ?m0 = _ =>
      change (member f m0) with (Ok (f m0), m0) in Hs; injection Hs as <- <-
  | call ?f ?m0 = _ =>
      change (call f m0) with (f m0, m0) in Hs; injection Hs as Hs <-
  | local ?o ?m0 = _ =>
      change (local o m0) with (o, m0) in Hs; injection Hs as Hs <-
  | _ => idtac
  end;
  cbv beta in *.

Lemma after_reset_eq (m : GridModel) :
  after_reset m =
  set_solver (ChooseSolver.reset (_solver m))
    (set_need_reset true
       (set_bus_pq []
          (set_bus_pv []
             (set_slack_bus_id_solver (-1)
                (set_id_solver_to_me []
                   (set_id_me_to_solver [] (set_Sbus [] (set_Ybus sparse_empty m)))))))).
Proof. reflexivity. Qed.

Section Stages.
Context `{Externals}.

(** A run of [pre_process_solver] that returns, stage by stage. *)
Lemma pre_process_solver_Ok (Vinit : list (R * R)) (is_ac : bool) (m m' : GridModel)
      (V : list (R * R)) :
  pre_process_solver Vinit is_ac m = (Ok V, m') ->
  exists (slack : Z) (m2 : GridModel) (Ybus : SparseMatrix (R * R)) (m4 : GridModel)
         (Sbus V0 : list (R * R)),
    DataGen.get_slack_bus_id (generators_ m) (gen_slackbus_ m) = Ok slack /\
    init_Ybus_members (set_slack_bus_id slack (after_reset m)) = (Ok tt, m2) /\
    fillYbus m2 (Ybus_ m2) is_ac (id_me_to_solver_ m2) = Ok Ybus /\
    fillpv_pq (id_me_to_solver_ m2) (set_Ybus Ybus m2) = (Ok tt, m4) /\
    fillSbus_me (set_generators
                   (DataGen.init_q_vector (generators_ m4) (vec_size (bus_vn_kv_ m4))) m4)
                (Sbus_ m4) is_ac (id_me_to_solver_ m4) (slack_bus_id_solver_ m4) = Ok Sbus /\
    m' = set_Sbus Sbus
           (set_generators
              (DataGen.init_q_vector (generators_ m4) (vec_size (bus_vn_kv_ m4))) m4) /\
    for_loop (vec_size (id_solver_to_me_ m4))
             (extract_Vinit_body (id_solver_to_me_ m4) Vinit)
             (replicate (Z.to_nat (vec_size (id_solver_to_me_ m4))) ((104 / 100)%R, 0%R))
      = Ok V0 /\
    DataGen.set_vm (DataGen.init_q_vector (generators_ m4) (vec_size (bus_vn_kv_ m4)))
                   V0 (id_me_to_solver_ m4) = Ok V.
Proof.
  unfold pre_process_solver. intros Hrun.
  do 13 method_step Hrun.
  unfold call in Hrun. injection Hrun as Hvm <-.
  repeat eexists; eassumption.
Qed.

(** What [init_Ybus] leaves in the members when it returns: the slack bus
    is a solver bus. *)
Lemma init_Ybus_members_Ok (m m2 : GridModel) :
  init_Ybus_members m = (Ok tt, m2) ->
  index_maps (take (length (bus_vn_kv_ m)) (bus_status_ m))
             (id_me_to_solver_ m2) (id_solver_to_me_ m2) /\
  vec_get (id_me_to_solver_ m2) (slack_bus_id_ m) = Ok (slack_bus_id_solver_ m2) /\
  0 <= slack_bus_id_solver_ m2 < vec_size (id_solver_to_me_ m2) /\
  Sbus_ m2 = replicate (length (id_solver_to_me_ m2)) Czero /\
  bus_status_ m2 = bus_status_ m /\ bus_vn_kv_ m2 = bus_vn_kv_ m /\
  slack_bus_id_ m2 = slack_bus_id_ m /\ generators_ m2 = generators_ m /\
  _solver m2 = _solver m.
Proof.
  unfold init_Ybus_members.
  destruct (init_Ybus m _) as [o refs] eqn:Hinit. intros [= -> <-].
  apply init_Ybus_Ok in Hinit as (_ & Hmaps & _ & HS & Hslack & Hne).
  member_of_assign.
  split; [exact Hmaps | split; [exact Hslack | split; [| split; [exact HS | auto 10]]]].
  apply vec_get_Ok in Hslack as [_ Hslack].
  destruct (index_maps_range _ _ _ _ _ Hmaps Hslack) as [Hoff | Hrange];
    [contradiction | exact Hrange].
Qed.

End Stages.

(** C2.  In every solve that gets through [pre_process_solver] (so after
    [fillpv_pq] has classified the buses), the slack bus, the entries of
    [bus_pv_] and the entries of [bus_pq_] are pairwise disjoint, neither
    vector holds a bus twice, and together they are exactly the solver
    buses [0 .. K-1], [K] being the length of [id_solver_to_me_]. *)
Theorem fillpv_pq_partition `{Externals} (Vinit : list (R * R)) (is_ac : bool)
        (m m' : GridModel) (V : list (R * R)) :
  pre_process_solver Vinit is_ac m = (Ok V, m') ->
  let K := vec_size (id_solver_to_me_ m') in
  let slack := slack_bus_id_solver_ m' in
  NoDup (bus_pv_ m') /\ NoDup (bus_pq_ m') /\
  (slack ∉ bus_pv_ m') /\ (slack ∉ bus_pq_ m') /\
  (forall x : Z, x ∈ bus_pv_ m' -> x ∉ bus_pq_ m') /\
  (forall x : Z, 0 <= x < K <-> x = slack \/ x ∈ bus_pv_ m' \/ x ∈ bus_pq_ m').
Proof.
  intros Hrun.
  apply pre_process_solver_Ok in Hrun
    as (slack & m2 & Ybus & m4 & Sbus & V0 & _ & Hinit & _ & Hpq & _ & -> & _).
  apply init_Ybus_members_Ok in Hinit as (_ & _ & Hslack & _).
  apply fillpv_pq_Ok in Hpq as (bus_pv & bus_pq & -> & Hclass).
  - revert Hclass. member_of_assign. intros Hclass. exact Hclass.
  - member_of_assign. exact Hslack.
Qed.

Lemma fillpv_pq_partition_witness :
  let m' := snd (pre_process_solver (H := demo_externals) flat_start true two_bus_grid) in
  let K := vec_size (id_solver_to_me_ m') in
  let slack := slack_bus_id_solver_ m' in
  NoDup (bus_pv_ m') /\ NoDup (bus_pq_ m') /\
  (slack ∉ bus_pv_ m') /\ (slack ∉ bus_pq_ m') /\
  (forall x : Z, x ∈ bus_pv_ m' -> x ∉ bus_pq_ m') /\
  (forall x : Z, 0 <= x < K <-> x = slack \/ x ∈ bus_pv_ m' \/ x ∈ bus_pq_ m').
Proof.
  apply (fillpv_pq_partition
           (H := demo_externals) flat_start true two_bus_grid
           (snd (pre_process_solver (H := demo_externals) flat_start true two_bus_grid))
           [(1%R, 0%R); (1%R, 0%R)]).
  cbv -[Rplus Rminus Rmult Rdiv Rinv Ropp IZR cos sin atan].
  reflexivity.
Defined.

(** ** Running a member function forwards *)

(** Run the first statement of a member function when it is [reset], an
    assignment or the reading of a member. *)
Ltac method_run :=
  lazymatch goal with
  | |- context [(reset ≫= ?f) ?m] =>
      rewrite (method_bind_run reset f m (after_reset m) tt eq_refl)
  | |- context [(assign ?g ≫= ?f) ?m] =>
      rewrite (method_bind_run (assign g) f m (g m) tt eq_refl)
  | |- context [(member ?g ≫= ?f) ?m] =>
      rewrite (method_bind_run (member g) f m m (g m) eq_refl)
  end;
  cbv beta.

Lemma call_run {A B} (g : GridModel -> outcome A) (f : A -> method B) (m : GridModel) (a : A) :
  g m = Ok a -> (call g ≫= f) m = f a m.
Proof. intros Hg. apply method_bind_run. unfold call. now rewrite Hg. Qed.

Lemma call_throw {A B} (g : GridModel -> outcome A) (f : A -> method B) (m : GridModel)
      (e : error) :
  g m = Throw e -> (call g ≫= f) m = (Throw e, m).
Proof. intros Hg. apply method_bind_throw. unfold call. now rewrite Hg. Qed.

(** The members that [reset()] leaves alone, and the solver after it. *)
Lemma after_reset_frame (m : GridModel) :
  bus_vn_kv_ (after_reset m) = bus_vn_kv_ m /\
  bus_status_ (after_reset m) = bus_status_ m /\
  generators_ (after_reset m) = generators_ m /\
  gen_slackbus_ (after_reset m) = gen_slackbus_ m /\
  _solver (after_reset m) = ChooseSolver.reset (_solver m).
Proof. repeat split. Qed.

(** ** The slack bus must be connected *)

Lemma init_Ybus_slack_disconnected (m : GridModel) (refs : YbusRefs) :
  length (bus_status_ m) = length (bus_vn_kv_ m) ->
  0 <= slack_bus_id_ m ->
  bus_status_ m !! Z.to_nat (slack_bus_id_ m) = Some false ->
  fst (init_Ybus m refs) = Throw SlackDisconnected.
Proof.
  intros Hlen Hpos Hoff. unfold init_Ybus, vec_size. rewrite Nat2Z.id.
  set (n := length (bus_vn_kv_ m)).
  destruct (init_Ybus_loop (bus_status_ m) n) as ([[me so] c] & Hloop & Hinv); [lia |].
  unfold _deactivated_bus_id in *. rewrite Hloop.
  destruct Hinv as (Hme & _ & Hmaps & _).
  rewrite (take_ge me), (take_ge (bus_status_ m)) in Hmaps by lia.
  assert (Hget : vec_get me (slack_bus_id_ m) = Ok (-1)).
  { apply vec_get_Ok. split; [exact Hpos |]. now apply (maps_disconnected _ _ _ Hmaps). }
  rewrite Hget. reflexivity.
Qed.

Lemma init_Ybus_members_slack_disconnected (m : GridModel) :
  length (bus_status_ m) = length (bus_vn_kv_ m) ->
  0 <= slack_bus_id_ m ->
  bus_status_ m !! Z.to_nat (slack_bus_id_ m) = Some false ->
  exists m' : GridModel,
    init_Ybus_members m = (Throw SlackDisconnected, m') /\ _solver m' = _solver m.
Proof.
  intros Hlen Hpos Hoff. unfold init_Ybus_members.
  pose proof (init_Ybus_slack_disconnected
                m (mkYbusRefs (Ybus_ m) (Sbus_ m) (id_me_to_solver_ m)
                              (id_solver_to_me_ m) (slack_bus_id_solver_ m)) Hlen Hpos Hoff)
    as Hthrow.
  destruct (init_Ybus m _) as [o refs]. simpl in Hthrow. subst o.
  eexists. split; reflexivity.
Qed.

Lemma get_slack_bus_id_active (d : DataGen.t) (gen_id : Z) (g : Gen) :
  0 <= gen_id ->
  DataGen.gens d !! Z.to_nat gen_id = Some g ->
  gen_status g = true ->
  DataGen.get_slack_bus_id d gen_id = Ok (gen_bus g).
Proof.
  intros Hpos Hg Hon. unfold DataGen.get_slack_bus_id, DataGen.nb, vec_size.
  pose proof (lookup_lt_Some _ _ _ Hg) as Hlt.
  destruct (Z.leb_spec 0 gen_id); [| lia].
  destruct (Z.ltb_spec gen_id (Z.of_nat (length (DataGen.gens d)))); [| lia].
  simpl. rewrite (proj2 (vec_get_Ok _ _ _) (conj Hpos Hg)). simpl. now rewrite Hon.
Qed.

Section SlackDisconnected.
Context `{Externals}.
Variables (Vinit : list (R * R)) (m : GridModel) (g : Gen).
Hypothesis Hstatus : length (bus_status_ m) = length (bus_vn_kv_ m).
Hypothesis Hgen_id : 0 <= gen_slackbus_ m.
Hypothesis Hgen : DataGen.gens (generators_ m) !! Z.to_nat (gen_slackbus_ m) = Some g.
Hypothesis Hactive : gen_status g = true.
Hypothesis Hbus : 0 <= gen_bus g.
Hypothesis Hoff : bus_status_ m !! Z.to_nat (gen_bus g) = Some false.

(** With the slack bus disconnected, [pre_process_solver] throws in
    [init_Ybus]; the solver holder has only been reset. *)
Lemma pre_process_solver_slack_disconnected (is_ac : bool) :
  exists m' : GridModel,
    pre_process_solver Vinit is_ac m = (Throw SlackDisconnected, m') /\
    _solver m' = ChooseSolver.reset (_solver m).
Proof.
  unfold pre_process_solver. method_run.
  rewrite (call_run _ _ _ (gen_bus g)).
  2:{ destruct (after_reset_frame m) as (_ & _ & -> & -> & _).
      now apply get_slack_bus_id_active. }
  method_run.
  destruct (init_Ybus_members_slack_disconnected
              (set_slack_bus_id (gen_bus g) (after_reset m)))
    as (m' & Hthrow & Hsolver); try assumption.
  exists m'. split.
  - apply method_bind_throw. exact Hthrow.
  - rewrite Hsolver. reflexivity.
Qed.

Hypothesis Hsize : vec_size Vinit = vec_size (bus_vn_kv_ m).

Lemma ac_pf_slack_disconnected (max_iter : Z) (tol : R) :
  exists m' : GridModel,
    ac_pf Vinit max_iter tol m = (Throw SlackDisconnected, m') /\
    _solver m' = ChooseSolver.reset (_solver m).
Proof.
  unfold ac_pf. method_run. rewrite Hsize, Z.eqb_refl. cbn [negb].
  destruct (pre_process_solver_slack_disconnected true) as (m' & Hthrow & Hs).
  exists m'. split; [| exact Hs].
  apply method_bind_throw. exact Hthrow.
Qed.
End SlackDisconnected.

Lemma dc_pf_slack_disconnected `{Externals} (Vinit : list (R * R)) (m : GridModel)
      (g : Gen) (max_iter : Z) (tol : R) :
  length (bus_status_ m) = length (bus_vn_kv_ m) ->
  0 <= gen_slackbus_ m ->
  DataGen.gens (generators_ m) !! Z.to_nat (gen_slackbus_ m) = Some g ->
  gen_status g = true ->
  0 <= gen_bus g ->
  bus_status_ m !! Z.to_nat (gen_bus g) = Some false ->
  vec_size Vinit = vec_size (bus_vn_kv_ m) ->
  exists m' : GridModel,
    dc_pf Vinit max_iter tol m = (Throw SlackDisconnected, m') /\
    _solver m' = ChooseSolver.reset (ChooseSolver.change_solver (_solver m) DC).
Proof.
  intros Hstatus Hgen_id Hgen Hactive Hbus Hoff Hsize.
  unfold dc_pf. method_run. rewrite Hsize, Z.eqb_refl. cbn [negb].
  method_run. method_run.
  destruct (pre_process_solver_slack_disconnected
              Vinit (set_solver (ChooseSolver.change_solver (_solver m) DC) m) g
              Hstatus Hgen_id Hgen Hactive Hbus Hoff false) as (m' & Hthrow & Hs).
  exists m'. split; [| exact Hs].
  apply method_bind_throw. exact Hthrow.
Qed.

(** C6, as amended.  For every grid whose slack generator is an active
    generator and whose bus, the designated slack bus, is marked
    disconnected in [bus_status_], every solve ([ac_pf] or [dc_pf]) that is
    given a [Vinit] with one entry per bus throws [SlackDisconnected] from
    [init_Ybus], before the solver is called: the solver holder has only
    been reset and holds no result. *)
Theorem slack_disconnected_solve_fails `{Externals} (Vinit : list (R * R)) (m : GridModel)
        (g : Gen) (max_iter : Z) (tol : R) :
  vec_size Vinit = vec_size (bus_vn_kv_ m) ->
  length (bus_status_ m) = length (bus_vn_kv_ m) ->
  0 <= gen_slackbus_ m ->
  DataGen.gens (generators_ m) !! Z.to_nat (gen_slackbus_ m) = Some g ->
  gen_status g = true ->
  0 <= gen_bus g ->
  bus_status_ m !! Z.to_nat (gen_bus g) = Some false ->
  (exists m' : GridModel,
      ac_pf Vinit max_iter tol m = (Throw SlackDisconnected, m') /\
      ChooseSolver.solver_results (_solver m') = no_results) /\
  (exists m' : GridModel,
      dc_pf Vinit max_iter tol m = (Throw SlackDisconnected, m') /\
      ChooseSolver.solver_results (_solver m') = no_results).
Proof.
  intros Hsize Hstatus Hgen_id Hgen Hactive Hbus Hoff. split.
  - destruct (ac_pf_slack_disconnected Vinit m g Hstatus Hgen_id Hgen Hactive Hbus Hoff
                                       Hsize max_iter tol) as (m' & Hthrow & Hs).
    exists m'. split; [exact Hthrow | now rewrite Hs].
  - destruct (dc_pf_slack_disconnected Vinit m g max_iter tol Hstatus Hgen_id Hgen Hactive
                                       Hbus Hoff Hsize) as (m' & Hthrow & Hs).
    exists m'. split; [exact Hthrow | now rewrite Hs].
Qed.

Lemma slack_disconnected_solve_fails_witness :
  (exists m' : GridModel,
      ac_pf (H := demo_externals) flat_start 10 (1 / 100000000)%R slack_off_grid
      = (Throw SlackDisconnected, m') /\
      ChooseSolver.solver_results (_solver m') = no_results) /\
  (exists m' : GridModel,
      dc_pf (H := demo_externals) flat_start 10 (1 / 100000000)%R slack_off_grid
      = (Throw SlackDisconnected, m') /\
      ChooseSolver.solver_results (_solver m') = no_results).
Proof.
  apply (slack_disconnected_solve_fails
           (H := demo_externals) flat_start slack_off_grid
           (mkGen 0 0%R (102 / 100)%R (-10)%R 10%R true));
    first [reflexivity | lia].
Defined.

(** C6, as stated, fails when [Vinit] has the wrong length: scenario (b)
    with a one-entry [Vinit] is rejected by the size check of [ac_pf] and
    of [dc_pf], which comes before the assembly; the error is not
    [SlackDisconnected]. *)
Lemma slack_disconnected_wrong_size :
  DataGen.get_slack_bus_id (generators_ slack_off_grid) (gen_slackbus_ slack_off_grid) = Ok 0 /\
  bus_status_ slack_off_grid !! Z.to_nat 0 = Some false /\
  fst (ac_pf (H := demo_externals) [(1%R, 0%R)] 10 (1 / 100000000)%R slack_off_grid)
  = Throw InputSizeMismatch /\
  fst (dc_pf (H := demo_externals) [(1%R, 0%R)] 10 (1 / 100000000)%R slack_off_grid)
  = Throw InputSizeMismatch /\
  fst (ac_pf (H := demo_externals) [(1%R, 0%R)] 10 (1 / 100000000)%R slack_off_grid)
  <> Throw SlackDisconnected.
Proof.
  repeat split; try reflexivity. discriminate.
Qed.

(** ** The solver selection across dc_pf *)

(** A call of [dc_pf] that returns, converged or not, has put the solver
    selection back. *)
Lemma dc_pf_restores_solver_type `{Externals} (Vinit : list (R * R)) (max_iter : Z) (tol : R)
      (m m' : GridModel) (res : list (R * R)) :
  dc_pf Vinit max_iter tol m = (Ok res, m') ->
  get_solver_type m' = get_solver_type m.
Proof.
  unfold dc_pf. intros Hrun. method_step Hrun.
  destruct (negb _); [discriminate |].
  do 5 method_step Hrun. method_step Hrun.
  injection Hrun as _ <-. reflexivity.
Qed.

(** C10: the failing input.  When [pre_process_solver] throws inside
    [dc_pf] (here because the slack bus is disconnected), the statement
    that puts the solver back is not reached: the grid is left with the
    DC solver selected, whatever was selected before. *)
Theorem dc_pf_throw_leaves_DC `{Externals} (Vinit : list (R * R)) (m : GridModel)
        (g : Gen) (max_iter : Z) (tol : R) :
  vec_size Vinit = vec_size (bus_vn_kv_ m) ->
  length (bus_status_ m) = length (bus_vn_kv_ m) ->
  0 <= gen_slackbus_ m ->
  DataGen.gens (generators_ m) !! Z.to_nat (gen_slackbus_ m) = Some g ->
  gen_status g = true ->
  0 <= gen_bus g ->
  bus_status_ m !! Z.to_nat (gen_bus g) = Some false ->
  exists m' : GridModel,
    dc_pf Vinit max_iter tol m = (Throw SlackDisconnected, m') /\
    get_solver_type m' = DC.
Proof.
  intros Hsize Hstatus Hgen_id Hgen Hactive Hbus Hoff.
  destruct (dc_pf_slack_disconnected Vinit m g max_iter tol Hstatus Hgen_id Hgen Hactive
                                     Hbus Hoff Hsize) as (m' & Hthrow & Hs).
  exists m'. split; [exact Hthrow |].
  unfold get_solver_type. rewrite Hs. reflexivity.
Qed.

Lemma dc_pf_throw_leaves_DC_witness :
  get_solver_type slack_off_grid = AC 0 /\
  exists m' : GridModel,
    dc_pf (H := demo_externals) flat_start 10 (1 / 100000000)%R slack_off_grid
    = (Throw SlackDisconnected, m') /\
    get_solver_type m' = DC.
Proof.
  split; [reflexivity |].
  apply (dc_pf_throw_leaves_DC
           (H := demo_externals) flat_start slack_off_grid
           (mkGen 0 0%R (102 / 100)%R (-10)%R 10%R true));
    first [reflexivity | lia].
Defined.

(** ** Divergence *)

Lemma reset_results_run {B} (f : unit -> method B) (m : GridModel) :
  (reset_results ≫= f) m = f tt (after_reset_results m).
Proof. apply method_bind_run. reflexivity. Qed.

Lemma after_reset_results_members (m : GridModel) :
  results (powerlines_ (after_reset_results m)) = cleared /\
  results (shunts_ (after_reset_results m)) = cleared /\
  results (trafos_ (after_reset_results m)) = cleared /\
  results (loads_ (after_reset_results m)) = cleared /\
  DataGen.res (generators_ (after_reset_results m)) = cleared /\
  _solver (after_reset_results m) = _solver m.
Proof. repeat split. Qed.

(** [process_results] on the diverged path: the results of the five
    families are cleared, [need_reset_] is raised, and [res] is returned
    as it came. *)
Lemma process_results_diverged `{Externals} (res Vinit : list (R * R)) (m : GridModel) :
  process_results false res Vinit m
  = (Ok res, set_need_reset true (after_reset_results m)).
Proof.
  unfold process_results. rewrite reset_results_run. method_run. reflexivity.
Qed.

(** The static generators and the storage units are not among the
    families that [GridModel.cpp] assembles, projects or clears. *)
Lemma init_Ybus_members_frame (m m' : GridModel) (o : outcome unit) :
  init_Ybus_members m = (o, m') ->
  sgens_ m' = sgens_ m /\ storages_ m' = storages_ m.
Proof.
  unfold init_Ybus_members. destruct (init_Ybus _ _) as [o' refs].
  intros [= _ <-]. split; reflexivity.
Qed.

Lemma fillpv_pq_frame (id_me_to_solver : list Z) (m m' : GridModel) :
  fillpv_pq id_me_to_solver m = (Ok tt, m') ->
  sgens_ m' = sgens_ m /\ storages_ m' = storages_ m.
Proof.
  unfold fillpv_pq, mbind, method_bind, member, assign, call, local. simpl.
  destruct (fillpv_elements _ _ _ _) as [[bus_pv has]|e]; [| discriminate]. simpl.
  destruct (for_loop _ _ _) as [[bus_pq has']|e]; [| discriminate].
  intros [= <-]. split; reflexivity.
Qed.

(** A pre-processing that returns has not touched them. *)
Lemma pre_process_solver_frame `{Externals} (Vinit : list (R * R)) (is_ac : bool)
      (m m' : GridModel) (V : list (R * R)) :
  pre_process_solver Vinit is_ac m = (Ok V, m') ->
  sgens_ m' = sgens_ m /\ storages_ m' = storages_ m.
Proof.
  intros Hrun.
  apply pre_process_solver_Ok in Hrun
    as (slack & m2 & Ybus & m4 & Sbus & V0 & _ & Hinit & _ & Hpq & _ & -> & _).
  apply init_Ybus_members_frame in Hinit as [H2 H2'].
  apply fillpv_pq_frame in Hpq as [H4 H4'].
  split.
  - transitivity (sgens_ m4); [reflexivity |]. rewrite H4.
    transitivity (sgens_ m2); [reflexivity |]. rewrite H2. reflexivity.
  - transitivity (storages_ m4); [reflexivity |]. rewrite H4'.
    transitivity (storages_ m2); [reflexivity |]. rewrite H2'. reflexivity.
Qed.

(** C8.  Whenever the solver reports non-convergence after the
    pre-processing of [ac_pf], [ac_pf] returns normally, with the empty
    vector; [need_reset_] is set, and the results of the five element
    families that a solve computes (lines, shunts, transformers, loads and
    generators) are cleared.  The static generators and the storage units,
    for which [compute_results] computes nothing, are as before the
    call. *)
Theorem ac_pf_divergence `{Externals} (Vinit : list (R * R)) (max_iter : Z) (tol : R)
        (m m1 : GridModel) (V : list (R * R)) :
  vec_size Vinit = vec_size (bus_vn_kv_ m) ->
  pre_process_solver Vinit true m = (Ok V, m1) ->
  fst (ChooseSolver.compute_pf (_solver m1) (Ybus_ m1) V (Sbus_ m1) (bus_pv_ m1) (bus_pq_ m1)
                               max_iter tol) = false ->
  exists m' : GridModel,
    ac_pf Vinit max_iter tol m = (Ok [], m') /\
    need_reset_ m' = true /\
    results (powerlines_ m') = cleared /\
    results (shunts_ m') = cleared /\
    results (trafos_ m') = cleared /\
    results (loads_ m') = cleared /\
    DataGen.res (generators_ m') = cleared /\
    sgens_ m' = sgens_ m /\ storages_ m' = storages_ m.
Proof.
  intros Hsize Hpre Hconv.
  destruct (pre_process_solver_frame _ _ _ _ _ Hpre) as [Hsgens Hstorages].
  unfold ac_pf. method_run. rewrite Hsize, Z.eqb_refl. cbn [negb].
  rewrite (method_bind_run _ _ _ _ _ Hpre).
  unfold solver_compute_pf at 1. unfold mbind at 1, method_bind at 1.
  destruct (ChooseSolver.compute_pf _ _ _ _ _ _ _ _) as [conv s]. simpl in Hconv. subst conv.
  rewrite process_results_diverged.
  eexists. split; [reflexivity |].
  split; [reflexivity |].
  member_of_assign.
  destruct (after_reset_results_members (set_solver s m1)) as (Hl & Hs & Ht & Hd & Hg & _).
  do 5 (split; [assumption |]).
  rewrite <- Hsgens, <- Hstorages. split; reflexivity.
Qed.

Lemma ac_pf_divergence_witness :
  exists m' : GridModel,
    ac_pf (H := demo_externals) flat_start 0 (1 / 100000000)%R two_bus_grid = (Ok [], m') /\
    need_reset_ m' = true /\
    results (powerlines_ m') = cleared /\
    results (shunts_ m') = cleared /\
    results (trafos_ m') = cleared /\
    results (loads_ m') = cleared /\
    DataGen.res (generators_ m') = cleared /\
    sgens_ m' = sgens_ two_bus_grid /\ storages_ m' = storages_ two_bus_grid.
Proof.
  apply (ac_pf_divergence
           (H := demo_externals) flat_start 0 (1 / 100000000)%R two_bus_grid
           (snd (pre_process_solver (H := demo_externals) flat_start true two_bus_grid))
           [(1%R, 0%R); (1%R, 0%R)]).
  - reflexivity.
  - cbv -[Rplus Rminus Rmult Rdiv Rinv Ropp IZR cos sin atan]. reflexivity.
  - reflexivity.
Defined.

(** ** Member functions on two grids that solve alike *)

Lemma sim_bind {A B} (Ra : A -> A -> Prop) (Rb : B -> B -> Prop)
      (P Q T : GridModel -> GridModel -> Prop)
      (x1 x2 : method A) (f1 f2 : A -> method B) :
  sim Ra P Q x1 x2 ->
  (forall a1 a2, Ra a1 a2 -> sim Rb Q T (f1 a1) (f2 a2)) ->
  sim Rb P T (x1 ≫= f1) (x2 ≫= f2).
Proof.
  intros Hx Hf m1 m2 HP. specialize (Hx m1 m2 HP).
  unfold mbind, method_bind.
  destruct (x1 m1) as [[a1|e1] m1'], (x2 m2) as [[a2|e2] m2']; simpl in *;
    try contradiction; try assumption.
  destruct Hx as [Ha HQ]. exact (Hf a1 a2 Ha m1' m2' HQ).
Qed.

(** The common case: the same statement on both sides, returning the same
    value. *)
Lemma sim_bind_eq {A B} (Rb : B -> B -> Prop) (P Q T : GridModel -> GridModel -> Prop)
      (x : method A) (f1 f2 : A -> method B) :
  sim eq P Q x x ->
  (forall a, sim Rb Q T (f1 a) (f2 a)) ->
  sim Rb P T (x ≫= f1) (x ≫= f2).
Proof.
  intros Hx Hf. apply (sim_bind eq Rb P Q T); [exact Hx |].
  intros a1 a2 <-. apply Hf.
Qed.

Lemma sim_member {A} (P : GridModel -> GridModel -> Prop) (g : GridModel -> A) :
  (forall m1 m2, P m1 m2 -> g m1 = g m2) ->
  sim eq P P (member g) (member g).
Proof. intros Hg m1 m2 HP. simpl. split; [now apply Hg | exact HP]. Qed.

Lemma sim_member_any {A} (P : GridModel -> GridModel -> Prop) (g : GridModel -> A) :
  sim (fun _ _ => True) P P (member g) (member g).
Proof. intros m1 m2 HP. simpl. split; [exact I | exact HP]. Qed.

Lemma sim_assign (P Q : GridModel -> GridModel -> Prop) (g : GridModel -> GridModel) :
  (forall m1 m2, P m1 m2 -> Q (g m1) (g m2)) ->
  sim eq P Q (assign g) (assign g).
Proof. intros Hg m1 m2 HP. simpl. split; [reflexivity | now apply Hg]. Qed.

Lemma sim_call {A} (P : GridModel -> GridModel -> Prop) (g : GridModel -> outcome A) :
  (forall m1 m2, P m1 m2 -> g m1 = g m2) ->
  sim eq P P (call g) (call g).
Proof.
  intros Hg m1 m2 HP. unfold call. simpl. rewrite (Hg m1 m2 HP).
  destruct (g m2); [split |]; auto.
Qed.

Lemma sim_local {A} (P : GridModel -> GridModel -> Prop) (o : outcome A) :
  sim eq P P (local o) (local o).
Proof. intros m1 m2 HP. unfold local. simpl. destruct o; [split |]; auto. Qed.

Lemma sim_ret {A} (P : GridModel -> GridModel -> Prop) (a : A) :
  sim eq P P (mret a) (mret a).
Proof. intros m1 m2 HP. simpl. auto. Qed.

Lemma sim_throw {A} (Ra : A -> A -> Prop) (P Q : GridModel -> GridModel -> Prop) (e : error) :
  sim Ra P Q (throw e) (throw e).
Proof. intros m1 m2 HP. reflexivity. Qed.

Lemma sim_weaken {A} (Ra Ra' : A -> A -> Prop) (P Q : GridModel -> GridModel -> Prop)
      (x1 x2 : method A) :
  (forall a1 a2, Ra a1 a2 -> Ra' a1 a2) ->
  sim Ra P Q x1 x2 -> sim Ra' P Q x1 x2.
Proof.
  intros HR Hx m1 m2 HP. specialize (Hx m1 m2 HP).
  destruct (fst (x1 m1)), (fst (x2 m2)); try assumption.
  destruct Hx. auto.
Qed.

(** The relations are equivalences where it matters. *)
Lemma same_solve_state_refl (m : GridModel) : same_solve_state m m.
Proof. repeat split. Qed.

Lemma same_solve_state_sym (m1 m2 : GridModel) :
  same_solve_state m1 m2 -> same_solve_state m2 m1.
Proof. intros ([] & [] & ?). repeat split; congruence. Qed.

Lemma same_solve_state_trans (m1 m2 m3 : GridModel) :
  same_solve_state m1 m2 -> same_solve_state m2 m3 -> same_solve_state m1 m3.
Proof. intros ([] & [] & ?) ([] & [] & ?). repeat split; congruence. Qed.

(** Unpack a relation between two grids into its member equations. *)
Ltac unpack_inputs H :=
  destruct H as [si_bus_vn_kv si_bus_status si_lines si_shunts si_trafos si_gens
                 si_loads si_gen_slackbus si_solver_type].

Ltac unpack_assembly H :=
  destruct H as [sa_id_me_to_solver sa_id_solver_to_me sa_slack_bus_id_solver
                 sa_Ybus sa_Sbus sa_bus_pv sa_bus_pq sa_solver].

Ltac unpack_same H :=
  lazymatch type of H with
  | same_solve_state _ _ =>
      let Hi := fresh "Hi" in
      let Ha := fresh "Ha" in
      let Hs := fresh "Hslack" in
      destruct H as (Hi & Ha & Hs); unpack_inputs Hi; unpack_assembly Ha
  | same_after_reset _ _ =>
      let Hi := fresh "Hi" in
      let Ha := fresh "Ha" in
      destruct H as (Hi & Ha); unpack_inputs Hi; unpack_assembly Ha
  | same_inputs _ _ => unpack_inputs H
  end.

(** Prove a relation between two grids member by member. *)
Ltac solve_same :=
  unfold same_solve_state, same_after_reset;
  repeat split; member_of_assign; simpl; try assumption; try congruence.

Lemma sim_reset : sim eq same_inputs same_after_reset reset reset.
Proof.
  intros m1 m2 HI.
  change (reset m1) with (Ok tt, after_reset m1).
  change (reset m2) with (Ok tt, after_reset m2).
  cbn [fst snd]. split; [reflexivity |].
  rewrite !after_reset_eq. unpack_same HI. solve_same.
  unfold ChooseSolver.reset. congruence.
Qed.

Lemma init_Ybus_congr (m1 m2 : GridModel) (refs1 refs2 : YbusRefs) :
  bus_vn_kv_ m1 = bus_vn_kv_ m2 ->
  bus_status_ m1 = bus_status_ m2 ->
  slack_bus_id_ m1 = slack_bus_id_ m2 ->
  fst (init_Ybus m1 refs1) = fst (init_Ybus m2 refs2) /\
  (fst (init_Ybus m1 refs1) = Ok tt -> snd (init_Ybus m1 refs1) = snd (init_Ybus m2 refs2)).
Proof.
  intros Hvn Hst Hsl. unfold init_Ybus. rewrite Hvn, Hst, Hsl.
  destruct (for_loop _ _ _) as [[[me so] c]|e]; [| split; [reflexivity | discriminate]].
  destruct (vec_get me (slack_bus_id_ m2)) as [s|e]; [| split; [reflexivity | discriminate]].
  destruct (s =? _deactivated_bus_id); split; try reflexivity; discriminate.
Qed.

Lemma sim_init_Ybus_members :
  sim eq same_solve_state same_solve_state init_Ybus_members init_Ybus_members.
Proof.
  intros m1 m2 HE. unfold init_Ybus_members.
  unpack_same HE.
  destruct (init_Ybus_congr
              m1 m2
              (mkYbusRefs (Ybus_ m1) (Sbus_ m1) (id_me_to_solver_ m1) (id_solver_to_me_ m1)
                          (slack_bus_id_solver_ m1))
              (mkYbusRefs (Ybus_ m2) (Sbus_ m2) (id_me_to_solver_ m2) (id_solver_to_me_ m2)
                          (slack_bus_id_solver_ m2))) as [Hfst Hsnd]; try assumption.
  destruct (init_Ybus m1 _) as [o1 r1], (init_Ybus m2 _) as [o2 r2].
  cbn [fst snd] in *. subst o2.
  destruct o1 as [[]|e]; [| reflexivity].
  rewrite (Hsnd eq_refl). split; [reflexivity |]. solve_same.
Qed.

Lemma sim_fillpv_pq (id_me_to_solver : list Z) :
  sim eq same_solve_state same_solve_state (fillpv_pq id_me_to_solver)
      (fillpv_pq id_me_to_solver).
Proof.
  unfold fillpv_pq.
  apply (sim_bind_eq _ _ same_solve_state).
  { apply sim_member. intros m1 m2 HE. unpack_same HE. congruence. }
  intros nb.
  apply (sim_bind_eq _ _ same_solve_state).
  { apply sim_assign. intros m1 m2 HE. unpack_same HE. solve_same. }
  intros [].
  apply (sim_bind_eq _ _ same_solve_state).
  { apply sim_assign. intros m1 m2 HE. unpack_same HE. solve_same. }
  intros [].
  apply (sim_bind_eq _ _ same_solve_state).
  { apply sim_call. intros m1 m2 HE. unpack_same HE.
    unfold fillpv_elements, DataGeneric.fillpv, DataGen.fillpv. simpl. congruence. }
  intros [bus_pv has].
  apply (sim_bind_eq _ _ same_solve_state).
  { apply sim_member. intros m1 m2 HE. unpack_same HE. congruence. }
  intros slack.
  apply (sim_bind_eq _ _ same_solve_state); [apply sim_local |].
  intros [bus_pq has'].
  apply (sim_bind_eq _ _ same_solve_state).
  { apply sim_assign. intros m1 m2 HE. unpack_same HE. solve_same. }
  intros []. apply sim_assign. intros m1 m2 HE. unpack_same HE. solve_same.
Qed.

Section RoundTrip.
Context `{Externals}.

Lemma sim_pre_process_solver (Vinit : list (R * R)) (is_ac : bool) :
  sim eq same_inputs same_solve_state
      (pre_process_solver Vinit is_ac) (pre_process_solver Vinit is_ac).
Proof.
  unfold pre_process_solver.
  apply (sim_bind_eq _ _ same_after_reset); [apply sim_reset |]. intros [].
  apply (sim_bind_eq _ _ same_after_reset).
  { apply sim_call. intros m1 m2 HE. unpack_same HE.
    cbv beta. unfold DataGen.get_slack_bus_id, DataGen.nb.
    rewrite si_gens, si_gen_slackbus. reflexivity. }
  intros slack.
  apply (sim_bind_eq _ _ same_solve_state).
  { apply sim_assign. intros m1 m2 HE. unpack_same HE. solve_same. }
  intros [].
  apply (sim_bind_eq _ _ same_solve_state); [apply sim_init_Ybus_members |]. intros [].
  apply (sim_bind_eq _ _ same_solve_state).
  { apply sim_call. intros m1 m2 HE. unpack_same HE.
    cbv beta. unfold fillYbus, DataGeneric.fillYbus, DataGen.fillYbus.
    rewrite si_lines, si_shunts, si_trafos, si_loads, si_gens, sa_Ybus,
      sa_id_me_to_solver. reflexivity. }
  intros Ybus.
  apply (sim_bind_eq _ _ same_solve_state).
  { apply sim_assign. intros m1 m2 HE. unpack_same HE. solve_same. }
  intros [].
  apply (sim_bind_eq _ _ same_solve_state).
  { apply sim_member. intros m1 m2 HE. unpack_same HE. congruence. }
  intros id_me_to_solver.
  apply (sim_bind_eq _ _ same_solve_state); [apply sim_fillpv_pq |]. intros [].
  apply (sim_bind_eq _ _ same_solve_state).
  { apply sim_assign. intros m1 m2 HE. unpack_same HE. solve_same. }
  intros [].
  apply (sim_bind_eq _ _ same_solve_state).
  { apply sim_call. intros m1 m2 HE. unpack_same HE.
    cbv beta.
    unfold fillSbus_me, fillSbus_elements, DataGeneric.fillSbus, DataGen.fillSbus.
    rewrite si_lines, si_shunts, si_trafos, si_loads, si_gens, sa_Sbus,
      sa_id_me_to_solver, sa_slack_bus_id_solver. reflexivity. }
  intros Sbus.
  apply (sim_bind_eq _ _ same_solve_state).
  { apply sim_assign. intros m1 m2 HE. unpack_same HE. solve_same. }
  intros [].
  apply (sim_bind_eq _ _ same_solve_state).
  { apply sim_member. intros m1 m2 HE. unpack_same HE. congruence. }
  intros id_solver_to_me.
  apply (sim_bind_eq _ _ same_solve_state); [apply sim_local |]. intros V.
  apply sim_call. intros m1 m2 HE. unpack_same HE. cbv beta. unfold DataGen.set_vm.
  rewrite si_gens, sa_id_me_to_solver. reflexivity.
Qed.

Lemma sim_solver_compute_pf (V : list (R * R)) (max_iter : Z) (tol : R) :
  sim eq same_solve_state same_solve_state
      (solver_compute_pf V max_iter tol) (solver_compute_pf V max_iter tol).
Proof.
  intros m1 m2 HE. unfold solver_compute_pf. unpack_same HE.
  rewrite sa_solver, sa_Ybus, sa_Sbus, sa_bus_pv, sa_bus_pq.
  destruct (ChooseSolver.compute_pf _ _ _ _ _ _ _ _) as [conv s].
  cbn [fst snd]. split; [reflexivity |]. solve_same.
Qed.

(** The projection writes results only: the grid solves as before. *)
Lemma compute_results_frame (m : GridModel) :
  fst (compute_results m) = Ok tt /\ same_solve_state m (snd (compute_results m)).
Proof.
  unfold compute_results. do 10 method_run. unfold assign. cbn [fst snd].
  split; [reflexivity |]. solve_same.
Qed.

Lemma reset_results_frame (m : GridModel) : same_solve_state m (after_reset_results m).
Proof. repeat split. Qed.

Lemma sim_maybe_compute_results (c1 c2 : bool) :
  sim (fun _ _ => True) same_solve_state same_solve_state
      (if c1 then compute_results else mret tt) (if c2 then compute_results else mret tt).
Proof.
  intros m1 m2 HE.
  destruct (compute_results_frame m1) as [Hf1 Hs1], (compute_results_frame m2) as [Hf2 Hs2].
  destruct c1, c2; rewrite ?Hf1, ?Hf2; cbn [fst snd mret method_ret]; (split; [exact I |]).
  - apply (same_solve_state_trans _ m1); [now apply same_solve_state_sym |].
    now apply (same_solve_state_trans _ m2).
  - apply (same_solve_state_trans _ m1); [now apply same_solve_state_sym | exact HE].
  - now apply (same_solve_state_trans _ m2).
  - exact HE.
Qed.

Lemma sim_reset_results :
  sim eq same_solve_state same_solve_state reset_results reset_results.
Proof.
  intros m1 m2 HE.
  change (reset_results m1) with (Ok tt, after_reset_results m1).
  change (reset_results m2) with (Ok tt, after_reset_results m2).
  cbn [fst snd]. split; [reflexivity |].
  apply (same_solve_state_trans _ m1);
    [apply same_solve_state_sym, reset_results_frame |].
  apply (same_solve_state_trans _ m2); [exact HE | apply reset_results_frame].
Qed.

Lemma sim_process_results (conv : bool) (res Vinit : list (R * R)) :
  sim eq same_solve_state same_solve_state
      (process_results conv res Vinit) (process_results conv res Vinit).
Proof.
  unfold process_results. destruct conv.
  - apply (sim_bind (fun _ _ => True) eq _ same_solve_state); [apply sim_member_any |].
    intros c1 c2 _.
    apply (sim_bind (fun _ _ => True) eq _ same_solve_state);
      [apply sim_maybe_compute_results |].
    intros [] [] _.
    apply (sim_bind_eq _ _ same_solve_state).
    { apply sim_assign. intros m1 m2 HE. unpack_same HE. solve_same. }
    intros [].
    apply (sim_bind_eq _ _ same_solve_state).
    { apply sim_member. intros m1 m2 HE. unpack_same HE. congruence. }
    intros res_tmp.
    apply (sim_bind_eq _ _ same_solve_state).
    { apply sim_member. intros m1 m2 HE. unpack_same HE. congruence. }
    intros nb.
    apply sim_call. intros m1 m2 HE. unpack_same HE. congruence.
  - apply (sim_bind_eq _ _ same_solve_state); [apply sim_reset_results |]. intros [].
    apply (sim_bind_eq _ _ same_solve_state).
    { apply sim_assign. intros m1 m2 HE. unpack_same HE. solve_same. }
    intros []. apply sim_ret.
Qed.

(** Two grids with the same inputs solve alike. *)
Lemma sim_ac_pf (Vinit : list (R * R)) (max_iter : Z) (tol : R) :
  sim eq same_inputs same_solve_state (ac_pf Vinit max_iter tol) (ac_pf Vinit max_iter tol).
Proof.
  unfold ac_pf.
  apply (sim_bind_eq _ _ same_inputs).
  { apply sim_member. intros m1 m2 HE. unpack_same HE. congruence. }
  intros nb. destruct (negb _); [apply sim_throw |].
  apply (sim_bind_eq _ _ same_solve_state); [apply sim_pre_process_solver |]. intros V.
  apply (sim_bind_eq _ _ same_solve_state); [apply sim_solver_compute_pf |]. intros conv.
  apply sim_process_results.
Qed.
End RoundTrip.

(** [set_state] never throws, and it loads every input of a solve from the
    state tuple; the solver selection stays that of the receiving grid. *)
Lemma set_state_Ok (my_state : StateRes) (m0 : GridModel) :
  fst (set_state my_state m0) = Ok tt.
Proof. reflexivity. Qed.

Lemma set_state_get_state_inputs (m m0 : GridModel) :
  get_solver_type m0 = get_solver_type m ->
  same_inputs (snd (set_state (get_state m) m0)) m.
Proof.
  unfold get_solver_type, ChooseSolver.get_type. intros Htype.
  split; try reflexivity. exact Htype.
Qed.

(** C4.  Capturing the state of a grid with [get_state] and restoring it
    with [set_state], in the same grid or in any grid with the same solver
    selection, yields a grid on which [ac_pf] with the same arguments ends
    as on the original: the same voltage vector, or the same error. *)
Theorem set_state_get_state_ac_pf `{Externals} (m m0 : GridModel) (Vinit : list (R * R))
        (max_iter : Z) (tol : R) :
  get_solver_type m0 = get_solver_type m ->
  fst (ac_pf Vinit max_iter tol (snd (set_state (get_state m) m0)))
  = fst (ac_pf Vinit max_iter tol m).
Proof.
  intros Htype.
  pose proof (sim_ac_pf Vinit max_iter tol _ _ (set_state_get_state_inputs m m0 Htype)) as Hsim.
  destruct (fst (ac_pf Vinit max_iter tol (snd (set_state (get_state m) m0)))) as [V1|e1],
           (fst (ac_pf Vinit max_iter tol m)) as [V2|e2]; try contradiction.
  - destruct Hsim as [-> _]. reflexivity.
  - now subst e2.
Qed.

(** The state of scenario (a) restored into the grid of scenario (b), which
    has another bus status and the same solver selected. *)
Lemma set_state_get_state_ac_pf_witness :
  fst (ac_pf (H := demo_externals) flat_start 10 (1 / 100000000)%R
             (snd (set_state (get_state two_bus_grid) slack_off_grid)))
  = fst (ac_pf (H := demo_externals) flat_start 10 (1 / 100000000)%R two_bus_grid).
Proof.
  apply (set_state_get_state_ac_pf (H := demo_externals) two_bus_grid slack_off_grid).
  reflexivity.
Defined.

(** C4, as stated, fails when the state is restored into a grid with
    another solver selected: the solver selection is not part of the
    state.  Take the state of scenario (a), where an AC method is
    selected, and restore it into a grid where the DC method is selected.
    The restored grid has the state of the original, and [ac_pf], which
    runs whatever method is selected, returns the voltages of the DC
    method there and those of the AC method on the original. *)
Theorem set_state_other_solver_differs :
  let Vinit := [((102 / 100)%R, 0%R); (1%R, 0%R)] in
  let restored := snd (set_state (get_state two_bus_grid) dc_selected_grid) in
  get_state restored = get_state two_bus_grid /\
  fst (ac_pf (H := method_externals) Vinit 10 (1 / 100000000)%R two_bus_grid)
  = Ok [((102 / 100)%R, 0%R); (1%R, 0%R)] /\
  fst (ac_pf (H := method_externals) Vinit 10 (1 / 100000000)%R restored)
  = Ok [(1%R, 0%R); (1%R, 0%R)] /\
  fst (ac_pf (H := method_externals) Vinit 10 (1 / 100000000)%R restored)
  <> fst (ac_pf (H := method_externals) Vinit 10 (1 / 100000000)%R two_bus_grid).
Proof.
  intros Vinit restored.
  assert (Horig : fst (ac_pf (H := method_externals) Vinit 10 (1 / 100000000)%R two_bus_grid)
                  = Ok [((102 / 100)%R, 0%R); (1%R, 0%R)])
    by (cbv -[Rplus Rminus Rmult Rdiv Rinv Ropp IZR cos sin atan]; reflexivity).
  assert (Hrest : fst (ac_pf (H := method_externals) Vinit 10 (1 / 100000000)%R restored)
                  = Ok [(1%R, 0%R); (1%R, 0%R)])
    by (cbv -[Rplus Rminus Rmult Rdiv Rinv Ropp IZR cos sin atan]; reflexivity).
  split; [reflexivity |]. split; [exact Horig |]. split; [exact Hrest |].
  rewrite Horig, Hrest. intros Heq. injection Heq as Heq. lra.
Qed.

(** The state tuple of [GridModel.cpp] holds the eight components that
    [get_state] passes to the constructor of [StateRes], and nothing of
    the other members: two grids that agree on the buses, on the elements
    of the five families and on the slack generator have the same state. *)
Lemma get_state_reads (m1 m2 : GridModel) :
  bus_vn_kv_ m1 = bus_vn_kv_ m2 ->
  bus_status_ m1 = bus_status_ m2 ->
  elems (powerlines_ m1) = elems (powerlines_ m2) ->
  elems (shunts_ m1) = elems (shunts_ m2) ->
  elems (trafos_ m1) = elems (trafos_ m2) ->
  DataGen.gens (generators_ m1) = DataGen.gens (generators_ m2) ->
  elems (loads_ m1) = elems (loads_ m2) ->
  gen_slackbus_ m1 = gen_slackbus_ m2 ->
  get_state m1 = get_state m2.
Proof.
  unfold get_state, DataGeneric.get_state, DataGen.get_state. cbv zeta. congruence.
Qed.

(** What [set_state] does not touch: the static generators, the storage
    units, [sn_mva_], [init_vm_pu_] and the solver selection stay those of
    the receiving grid. *)
Lemma set_state_keeps (my_state : StateRes) (m0 : GridModel) :
  sgens_ (snd (set_state my_state m0)) = sgens_ m0 /\
  storages_ (snd (set_state my_state m0)) = storages_ m0 /\
  sn_mva_ (snd (set_state my_state m0)) = sn_mva_ m0 /\
  init_vm_pu_ (snd (set_state my_state m0)) = init_vm_pu_ m0 /\
  get_solver_type (snd (set_state my_state m0)) = get_solver_type m0.
Proof. repeat split. Qed.

(** ** The DC solve of dc_pf_old *)

(** What every element of a traversal that ran to its end satisfies. *)
Lemma for_each_all {A S} (Q : A -> Prop) (body : A -> S -> outcome S) :
  (forall x s s', body x s = Ok s' -> Q x) ->
  forall (v : list A) (s s' : S),
    for_each v body s = Ok s' -> forall x, x ∈ v -> Q x.
Proof.
  intros Hbody. induction v as [|y v IH]; intros s s' Hrun x Hx; simpl in Hrun.
  - now apply elem_of_nil in Hx.
  - apply bind_Ok in Hrun as (t & Hy & Hrest).
    apply elem_of_cons in Hx as [-> | Hx]; [exact (Hbody _ _ _ Hy) | exact (IH _ _ Hrest x Hx)].
Qed.

(** "fill Va from dc approx" never writes the entry of the slack bus. *)
Lemma dc_Va_loop (slack_bus_id : Z) (bus_status : list bool) (id_me_to_solver : list Z)
      (slack_bus_id_solver : Z) (Va_dc : list R) (n : nat) (Va : list R) :
  for_loop (Z.of_nat n)
           (dc_Va_body slack_bus_id bus_status id_me_to_solver slack_bus_id_solver Va_dc)
           (replicate n 0%R) = Ok Va ->
  length Va = n /\
  (0 <= slack_bus_id -> (Z.to_nat slack_bus_id < n)%nat ->
   Va !! Z.to_nat slack_bus_id = Some 0%R).
Proof.
  intros Hrun.
  apply (for_loop_inv
           (fun (_ : nat) (Va : list R) =>
              length Va = n /\
              (0 <= slack_bus_id -> (Z.to_nat slack_bus_id < n)%nat ->
               Va !! Z.to_nat slack_bus_id = Some 0%R))
           (dc_Va_body slack_bus_id bus_status id_me_to_solver slack_bus_id_solver Va_dc)
           n (replicate n 0%R)); [| | exact Hrun].
  - rewrite length_replicate. split; [reflexivity |].
    intros _ Hlt. now apply lookup_replicate_2.
  - intros k t t' Hk [Hlen Hslack] Hbody. unfold dc_Va_body in Hbody.
    destruct (Z.eqb_spec (Z.of_nat k) slack_bus_id) as [Heq|Hne];
      [injection Hbody as <-; auto |].
    apply bind_Ok in Hbody as (c & _ & Hbody).
    destruct (negb c); [injection Hbody as <-; auto |].
    apply bind_Ok in Hbody as (b & _ & Hbody).
    destruct (b =? _deactivated_bus_id); [discriminate |].
    apply bind_Ok in Hbody as (a & _ & Hset).
    apply vec_set_Ok in Hset as [_ ->]. rewrite Nat2Z.id, length_insert.
    split; [exact Hlen |]. intros Hpos Hlt.
    rewrite list_lookup_insert_ne by lia. auto.
Qed.

(** The loop over the buses that puts a zero magnitude on the
    disconnected ones and leaves 1 on the others. *)
Lemma dc_Vm_loop (bus_status : list bool) (n L : nat) (Vm : list R) :
  for_loop (Z.of_nat n) (dc_Vm_body bus_status) (replicate L 1%R) = Ok Vm ->
  length Vm = L /\
  (forall i : nat, (i < n)%nat -> bus_status !! i = Some false -> Vm !! i = Some 0%R) /\
  (forall i : nat, (i < L)%nat -> bus_status !! i = Some true -> Vm !! i = Some 1%R).
Proof.
  intros Hrun.
  assert (Hinv :
            length Vm = L /\
            (forall i : nat, (i < n)%nat -> bus_status !! i = Some false ->
                             Vm !! i = Some 0%R) /\
            (forall i : nat, (i < L)%nat -> (n <= i)%nat \/ bus_status !! i = Some true ->
                             Vm !! i = Some 1%R)).
  { apply (for_loop_inv
             (fun (k : nat) (Vm : list R) =>
                length Vm = L /\
                (forall i : nat, (i < k)%nat -> bus_status !! i = Some false ->
                                 Vm !! i = Some 0%R) /\
                (forall i : nat, (i < L)%nat ->
                                 (k <= i)%nat \/ bus_status !! i = Some true ->
                                 Vm !! i = Some 1%R))
             (dc_Vm_body bus_status) n (replicate L 1%R)); [| | exact Hrun].
    - rewrite length_replicate. split; [reflexivity | split].
      + intros i Hi. lia.
      + intros i Hi _. now apply lookup_replicate_2.
    - intros k t t' Hk (Hlen & Hoff & Hon) Hbody. unfold dc_Vm_body in Hbody.
      apply bind_Ok in Hbody as (c & Hc & Hbody).
      apply vec_get_Ok in Hc as [_ Hc]. rewrite Nat2Z.id in Hc.
      destruct c.
      + injection Hbody as <-. split; [exact Hlen | split].
        * intros i Hi Hfalse. apply Hoff; [| exact Hfalse].
          destruct (Nat.eq_dec i k) as [-> | ?]; [congruence | lia].
        * intros i Hi [Hge | Htrue]; apply Hon; auto. left. lia.
      + apply vec_set_Ok in Hbody as [Hrange ->]. rewrite Nat2Z.id, length_insert.
        unfold vec_size in Hrange.
        split; [exact Hlen | split].
        * intros i Hi Hfalse. destruct (Nat.eq_dec i k) as [-> | Hne].
          -- apply list_lookup_insert_eq. lia.
          -- rewrite list_lookup_insert_ne by congruence. apply Hoff; [lia | exact Hfalse].
        * intros i Hi Hcase. rewrite list_lookup_insert_ne.
          -- apply Hon; [exact Hi |]. destruct Hcase; [left; lia | now right].
          -- intros ->. destruct Hcase; [lia | congruence]. }
  destruct Hinv as (Hlen & Hoff & Hon). split; [exact Hlen | split; [exact Hoff |]].
  intros i Hi Htrue. apply Hon; auto.
Qed.

(** [get_vm_for_dc] writes the setpoint of every active generator at its
    bus, and nothing else. *)
Lemma get_vm_for_dc_spec (gens : list Gen) :
  forall Vm Vm' : list R,
    for_each gens DataGen.get_vm_for_dc_one Vm = Ok Vm' ->
    length Vm' = length Vm /\
    (forall i : nat,
        (forall g, g ∈ gens -> gen_status g = true -> gen_bus g <> Z.of_nat i) ->
        Vm' !! i = Vm !! i) /\
    (forall (i : nat) (v : R),
        (exists g, g ∈ gens /\ gen_status g = true /\ gen_bus g = Z.of_nat i) ->
        (forall g, g ∈ gens -> gen_status g = true -> gen_bus g = Z.of_nat i ->
                   gen_vm_pu g = v) ->
        Vm' !! i = Some v).
Proof.
  induction gens as [|g gens IH]; intros Vm Vm' Hrun; simpl in Hrun.
  - injection Hrun as <-. split; [reflexivity | split; [reflexivity |]].
    intros i v (g & Hg & _). now apply elem_of_nil in Hg.
  - apply bind_Ok in Hrun as (Vm1 & Hone & Hrest).
    destruct (IH Vm1 Vm' Hrest) as (Hlen & Hkeep & Hset).
    unfold DataGen.get_vm_for_dc_one in Hone.
    assert (Hfirst :
              length Vm1 = length Vm /\
              (forall i : nat,
                  (gen_status g = true -> gen_bus g <> Z.of_nat i) -> Vm1 !! i = Vm !! i) /\
              (forall i : nat,
                  gen_status g = true -> gen_bus g = Z.of_nat i ->
                  Vm1 !! i = Some (gen_vm_pu g))).
    { destruct (gen_status g); simpl in Hone.
      - apply vec_set_Ok in Hone as [Hrange ->]. unfold vec_size in Hrange.
        rewrite length_insert. split; [reflexivity | split].
        + intros i Hi. apply list_lookup_insert_ne. specialize (Hi eq_refl). lia.
        + intros i _ Hi. rewrite Hi, Nat2Z.id. apply list_lookup_insert_eq. lia.
      - injection Hone as <-. split; [reflexivity | split; [reflexivity |]].
        intros i [=]. }
    destruct Hfirst as (Hlen1 & Hkeep1 & Hset1).
    split; [congruence | split].
    + intros i Hnone. rewrite Hkeep.
      * apply Hkeep1. intros Hon. apply Hnone; [apply elem_of_cons; now left | exact Hon].
      * intros g' Hg'. apply Hnone. apply elem_of_cons. now right.
    + intros i v Hsome Hall.
      destruct (decide (Exists (fun g' => gen_status g' = true /\ gen_bus g' = Z.of_nat i)
                               gens)) as [Hex | Hnex].
      * apply Hset.
        -- apply Exists_exists in Hex as (g' & Hg' & Hon & Hat). eauto.
        -- intros g' Hg'. apply Hall. apply elem_of_cons. now right.
      * destruct Hsome as (g0 & Hg0 & Hon0 & Hat0).
        apply elem_of_cons in Hg0 as [-> | Hg0].
        -- rewrite Hkeep.
           ++ rewrite (Hset1 i Hon0 Hat0). f_equal. apply Hall; auto.
              apply elem_of_cons. now left.
           ++ intros g' Hg' Hon' Hat'. apply Hnex. apply Exists_exists. eauto.
        -- exfalso. apply Hnex. apply Exists_exists. eauto.
Qed.

(** The stamp of the generators reaches its end only if every active
    generator sits on a bus with a solver index. *)
Lemma gen_fillSbus_connected (d : DataGen.t) (Sbus Sbus' : list (R * R)) (ac : bool)
      (id_grid_to_solver : list Z) (g : Gen) :
  DataGen.fillSbus d Sbus ac id_grid_to_solver = Ok Sbus' ->
  g ∈ DataGen.gens d -> gen_status g = true ->
  exists b : Z, vec_get id_grid_to_solver (gen_bus g) = Ok b /\ b <> -1.
Proof.
  unfold DataGen.fillSbus. intros Hrun Hg Hon.
  apply (for_each_all
           (fun g => gen_status g = true ->
                     exists b : Z, vec_get id_grid_to_solver (gen_bus g) = Ok b /\ b <> -1)
           (DataGen.fillSbus_one id_grid_to_solver)) with (x := g) in Hrun; auto.
  clear. intros g s s' Hbody Hon. unfold DataGen.fillSbus_one in Hbody.
  rewrite Hon in Hbody. simpl in Hbody.
  apply bind_Ok in Hbody as (b & Hb & Hbody). exists b. split; [exact Hb |].
  destruct (Z.eqb_spec b _deactivated_bus_id); [discriminate | assumption].
Qed.

Lemma polar_vector_Ok (Vm Va : list R) (res : list (R * R)) :
  polar_vector Vm Va = Ok res ->
  length Vm = length Va /\ length res = length Vm /\
  (forall (i : nat) (x a : R), Vm !! i = Some x -> Va !! i = Some a ->
                               res !! i = Some (Cpolar x a)).
Proof.
  unfold polar_vector, vec_size.
  destruct (Z.eqb_spec (Z.of_nat (length Vm)) (Z.of_nat (length Va))) as [Heq|]; [| discriminate].
  intros [= <-]. apply Nat2Z.inj in Heq.
  split; [exact Heq | split; [now apply length_zip_with_l_eq |]].
  intros i x a Hx Ha. rewrite lookup_zip_with, Hx, Ha. reflexivity.
Qed.

Lemma Cpolar_zero (a : R) : Cpolar 0 a = Czero.
Proof. unfold Cpolar, Czero. f_equal; lra. Qed.

(** C5.  When [dc_pf_old] succeeds (it returns, and not with the empty
    vector that stands for a failed linear solve), the result has one
    entry per bus; the entry of the slack bus is [vm * e^(j * arg
    (Vinit[slack]))]; every disconnected bus has value 0; a connected bus
    that hosts no active generator has magnitude 1; and a bus whose active
    generators have the voltage setpoint [v] has magnitude [v]. *)
Theorem dc_pf_old_result `{Externals} (Vinit : list (R * R)) (max_iter : Z) (tol : R)
        (m m' : GridModel) (res : list (R * R)) :
  dc_pf_old Vinit max_iter tol m = (Ok res, m') ->
  res <> [] ->
  let gens := DataGen.gens (generators_ m) in
  length res = length (bus_vn_kv_ m) /\
  (exists (slack : Z) (v : R * R) (vm : R),
      DataGen.get_slack_bus_id (generators_ m) (gen_slackbus_ m) = Ok slack /\
      0 <= slack /\
      Vinit !! Z.to_nat slack = Some v /\
      res !! Z.to_nat slack = Some (Cpolar vm (Carg v))) /\
  (forall i : nat,
      (i < length (bus_vn_kv_ m))%nat -> bus_status_ m !! i = Some false ->
      res !! i = Some Czero) /\
  (forall i : nat,
      (i < length (bus_vn_kv_ m))%nat -> bus_status_ m !! i = Some true ->
      (forall g, g ∈ gens -> gen_status g = true -> gen_bus g <> Z.of_nat i) ->
      exists a : R, res !! i = Some (Cpolar 1 a)) /\
  (forall (i : nat) (v : R),
      (exists g, g ∈ gens /\ gen_status g = true /\ gen_bus g = Z.of_nat i) ->
      (forall g, g ∈ gens -> gen_status g = true -> gen_bus g = Z.of_nat i ->
                 gen_vm_pu g = v) ->
      exists a : R, res !! i = Some (Cpolar v a)).
Proof.
  intros Hrun Hres gens. subst gens. unfold dc_pf_old in Hrun.
  method_step Hrun.
  destruct (Z.eqb_spec (vec_size Vinit) (vec_size (bus_vn_kv_ m))) as [Hsize|];
    [cbn [negb] in Hrun | discriminate].
  method_step Hrun. method_step Hrun. method_step Hrun.
  destruct (init_Ybus (set_slack_bus_id a m) _) as [[[]|e] refs] eqn:Hinit; [| discriminate].
  injection Hstep0 as <- <-.
  method_step Hrun. method_step Hrun.
  destruct (negb (SparseLU_factorize _)); [injection Hrun as <- _; contradiction |].
  method_step Hrun.
  destruct (SparseLU_solve _ _) as [Va_dc|]; [| injection Hrun as <- _; contradiction].
  do 6 method_step Hrun.
  unfold local in Hrun. injection Hrun as Hpolar <-.
  rename a into slack, a1 into Sbus_tmp, a3 into Va, a4 into v_slack, a5 into Vm0, a6 into Vm.
  (* the shapes of the vectors *)
  unfold vec_size in Hsize, Hstep3, Hstep5. apply Nat2Z.inj in Hsize.
  rewrite Nat2Z.id in Hstep3.
  set (n := length (bus_vn_kv_ m)) in *.
  apply dc_Va_loop in Hstep3 as [HVa_len HVa_slack].
  apply dc_Vm_loop in Hstep5 as (HVm0_len & HVm0_off & HVm0_on).
  apply get_vm_for_dc_spec in Hstep6 as (HVm_len & HVm_keep & HVm_set).
  apply polar_vector_Ok in Hpolar as (_ & Hres_len & Hres_at).
  assert (HVm_n : length Vm = n) by congruence.
  assert (Hangle : forall i : nat, (i < n)%nat ->
                     exists th : R, Va !! i = Some th /\
                                    map (fun a => (a + Carg v_slack)%R) Va !! i
                                    = Some (th + Carg v_slack)%R).
  { intros i Hi. destruct (lookup_lt_is_Some_2 Va i) as [th Hth]; [lia |].
    exists th. split; [exact Hth |].
    change (map (fun a => (a + Carg v_slack)%R) Va)
      with ((fun a => (a + Carg v_slack)%R) <$> Va).
    now rewrite list_lookup_fmap, Hth. }
  (* the index maps, and the generators on connected buses *)
  apply init_Ybus_Ok in Hinit as (Hn & Hmaps & _).
  assert (Hstatus : bus_status_ (set_slack_bus_id slack m) = bus_status_ m) by reflexivity.
  assert (Hvn : bus_vn_kv_ (set_slack_bus_id slack m) = bus_vn_kv_ m) by reflexivity.
  rewrite Hstatus, Hvn in Hmaps. fold n in Hmaps.
  assert (Hgens_on : forall (i : nat) g,
             g ∈ DataGen.gens (generators_ m) -> gen_status g = true ->
             gen_bus g = Z.of_nat i -> bus_status_ m !! i = Some false -> False).
  { intros i g Hg Hon Hat Hoff.
    unfold fillSbus_me in Hstep1. apply bind_Ok in Hstep1 as (stamped & Hstamp & _).
    unfold fillSbus_elements in Hstamp.
    do 4 (apply bind_Ok in Hstamp as (? & _ & Hstamp)).
    destruct (gen_fillSbus_connected _ _ _ _ _ g Hstamp Hg Hon) as (b & Hb & Hne).
    apply vec_get_Ok in Hb as [_ Hb]. rewrite Hat, Nat2Z.id in Hb.
    apply Hne. apply (index_maps_connected_iff _ _ _ _ _ Hmaps Hb).
    pose proof (lookup_lt_Some _ _ _ Hb) as Hlt.
    rewrite (maps_length_me _ _ _ Hmaps), length_take in Hlt.
    rewrite lookup_take_lt by lia. exact Hoff. }
  split; [congruence | split; [| split; [| split]]].
  - (* the slack bus *)
    apply vec_get_Ok in Hstep4 as [Hpos Hv].
    pose proof (lookup_lt_Some _ _ _ Hv) as Hlt.
    destruct (lookup_lt_is_Some_2 Vm (Z.to_nat slack)) as [vm Hvm]; [lia |].
    destruct (Hangle (Z.to_nat slack)) as (th & Hth & Ha); [lia |].
    rewrite (HVa_slack Hpos) in Hth by lia. injection Hth as <-.
    exists slack, v_slack, vm.
    split; [exact Hstep | split; [exact Hpos | split; [exact Hv |]]].
    rewrite (Hres_at _ _ _ Hvm Ha). rewrite Rplus_0_l. reflexivity.
  - (* disconnected buses *)
    intros i Hi Hoff.
    destruct (Hangle i Hi) as (th & _ & Ha).
    assert (Hvm : Vm !! i = Some 0%R).
    { rewrite HVm_keep; [now apply HVm0_off |].
      intros g Hg Hon Hat. exact (Hgens_on i g Hg Hon Hat Hoff). }
    rewrite (Hres_at _ _ _ Hvm Ha). now rewrite Cpolar_zero.
  - (* connected buses without a generator *)
    intros i Hi Hon Hnone.
    destruct (Hangle i Hi) as (th & _ & Ha).
    assert (Hvm : Vm !! i = Some 1%R).
    { rewrite (HVm_keep i Hnone). apply HVm0_on; [lia | exact Hon]. }
    exists (th + Carg v_slack)%R. exact (Hres_at _ _ _ Hvm Ha).
  - (* buses with generators *)
    intros i v Hsome Hall.
    pose proof (HVm_set i v Hsome Hall) as Hvm.
    pose proof (lookup_lt_Some _ _ _ Hvm) as Hlt.
    destruct (Hangle i) as (th & _ & Ha); [lia |].
    exists (th + Carg v_slack)%R. exact (Hres_at _ _ _ Hvm Ha).
Qed.

Lemma dc_pf_old_result_witness :
  exists res : list (R * R),
    dc_pf_old (H := demo_externals) flat_start 10 (1 / 100000000)%R two_bus_grid
    = (Ok res, set_slack_bus_id 0 two_bus_grid) /\
    length res = length (bus_vn_kv_ two_bus_grid).
Proof.
  eexists. split.
  - cbv -[Rplus Rminus Rmult Rdiv Rinv Ropp IZR cos sin atan]. reflexivity.
  - refine (proj1 (dc_pf_old_result (H := demo_externals) flat_start 10 (1 / 100000000)%R
                                    two_bus_grid (set_slack_bus_id 0 two_bus_grid) _ _ _)).
    + cbv -[Rplus Rminus Rmult Rdiv Rinv Ropp IZR cos sin atan]. reflexivity.
    + discriminate.
Defined.

(** ** Input validation *)

(** X1.  The three solve drivers check the size of [Vinit] first: a [Vinit]
    that has not one entry per bus (connected or not) is rejected with the
    size error, and the grid is exactly as before the call: nothing is
    reset and [dc_pf] has not switched the solver yet. *)
Theorem solve_rejects_wrong_size `{Externals} (Vinit : list (R * R)) (max_iter : Z) (tol : R)
        (m : GridModel) :
  vec_size Vinit <> vec_size (bus_vn_kv_ m) ->
  ac_pf Vinit max_iter tol m = (Throw InputSizeMismatch, m) /\
  dc_pf Vinit max_iter tol m = (Throw InputSizeMismatch, m) /\
  dc_pf_old Vinit max_iter tol m = (Throw InputSizeMismatch, m).
Proof.
  intros Hsize.
  unfold ac_pf, dc_pf, dc_pf_old. repeat method_run.
  destruct (Z.eqb_spec (vec_size Vinit) (vec_size (bus_vn_kv_ m))) as [Heq|_];
    [contradiction |].
  repeat split.
Qed.

Lemma solve_rejects_wrong_size_witness :
  ac_pf (H := demo_externals) [(1%R, 0%R)] 10 (1 / 100000000)%R two_bus_grid
  = (Throw InputSizeMismatch, two_bus_grid) /\
  dc_pf (H := demo_externals) [(1%R, 0%R)] 10 (1 / 100000000)%R two_bus_grid
  = (Throw InputSizeMismatch, two_bus_grid) /\
  dc_pf_old (H := demo_externals) [(1%R, 0%R)] 10 (1 / 100000000)%R two_bus_grid
  = (Throw InputSizeMismatch, two_bus_grid).
Proof.
  apply (solve_rejects_wrong_size (H := demo_externals)). discriminate.
Defined.

(** ** Member functions that only read *)

Lemma keeps_bind {A B} (x : method A) (f : A -> method B) :
  keeps x -> (forall a, keeps (f a)) -> keeps (x ≫= f).
Proof.
  intros Hx Hf m. unfold mbind, method_bind. specialize (Hx m).
  destruct (x m) as [[a|e] m1]; simpl in *; subst m1; [apply Hf | reflexivity].
Qed.

Lemma keeps_member {A} (g : GridModel -> A) : keeps (member g).
Proof. intros m. reflexivity. Qed.

Lemma keeps_call {A} (g : GridModel -> outcome A) : keeps (call g).
Proof. intros m. reflexivity. Qed.

Lemma keeps_local {A} (o : outcome A) : keeps (local o).
Proof. intros m. reflexivity. Qed.

Lemma keeps_ret {A} (a : A) : keeps (mret a : method A).
Proof. intros m. reflexivity. Qed.

Lemma keeps_throw {A} (e : error) : keeps (throw e : method A).
Proof. intros m. reflexivity. Qed.

Create HintDb keeps.
#[local] Hint Resolve keeps_member keeps_call keeps_local keeps_ret keeps_throw : keeps.

(** X2.  [dc_pf_old] works on local matrices and vectors.  Whether it returns
    the voltages, returns the empty vector or throws, the only member it
    may have written is [slack_bus_id_]: the stored matrices, index maps
    and classification, the solver and its selection, the results and the
    flags are those of before the call. *)
Theorem dc_pf_old_writes_slack_bus_id_only `{Externals} (Vinit : list (R * R))
        (max_iter : Z) (tol : R) (m : GridModel) :
  let m' := snd (dc_pf_old Vinit max_iter tol m) in
  m' = m \/
  exists slack : Z,
    DataGen.get_slack_bus_id (generators_ m) (gen_slackbus_ m) = Ok slack /\
    m' = set_slack_bus_id slack m.
Proof.
  intros m'. subst m'. unfold dc_pf_old. method_run.
  destruct (negb _); [left; reflexivity |].
  destruct (DataGen.get_slack_bus_id (generators_ m) (gen_slackbus_ m)) as [slack|e] eqn:Hslack.
  2:{ left. rewrite (call_throw _ _ _ e); [reflexivity | exact Hslack]. }
  right. exists slack. split; [reflexivity |].
  rewrite (call_run _ _ _ slack) by exact Hslack. method_run.
  generalize (set_slack_bus_id slack m). intros m1.
  match goal with |- snd (?x m1) = m1 => assert (Hk : keeps x); [| exact (Hk m1)] end.
  apply keeps_bind.
  { intros m2. destruct (init_Ybus m2 _) as [[[]|e] refs]; reflexivity. }
  intros refs.
  apply keeps_bind; [auto with keeps |]. intros dcYbus_tmp.
  apply keeps_bind; [auto with keeps |]. intros Sbus_tmp.
  destruct (negb _); [auto with keeps |].
  apply keeps_bind; [auto with keeps |]. intros Sbus.
  destruct (SparseLU_solve _ _) as [Va_dc|]; [| auto with keeps].
  repeat (apply keeps_bind; [auto with keeps |]; intros ?).
  auto with keeps.
Qed.

(** ** What the assembly leaves alone *)

Lemma untouched_refl (m : GridModel) : untouched m m.
Proof. split; reflexivity. Qed.

Lemma untouched_trans (m1 m2 m3 : GridModel) :
  untouched m1 m2 -> untouched m2 m3 -> untouched m1 m3.
Proof. intros [] []. split; congruence. Qed.

Lemma after_reset_untouched (m : GridModel) : untouched m (after_reset m).
Proof. split; reflexivity. Qed.

Lemma init_Ybus_members_untouched (m m' : GridModel) (o : outcome unit) :
  init_Ybus_members m = (o, m') -> untouched m m'.
Proof.
  unfold init_Ybus_members. destruct (init_Ybus _ _) as [o' refs].
  intros [= _ <-]. split; reflexivity.
Qed.

Lemma fillpv_pq_untouched (id_me_to_solver : list Z) (m m' : GridModel) (o : outcome unit) :
  fillpv_pq id_me_to_solver m = (o, m') -> untouched m m'.
Proof.
  unfold fillpv_pq, mbind, method_bind, member, assign, call, local. simpl.
  destruct (fillpv_elements _ _ _ _) as [[bus_pv has]|e]; simpl;
    [| intros [= _ <-]; split; reflexivity].
  destruct (for_loop _ _ _) as [[bus_pq has']|e]; intros [= _ <-]; split; reflexivity.
Qed.

(** The members a stage of the assembly does not write, besides those
    that describe the grid. *)
Lemma reset_stage (m : GridModel) (slack : Z) :
  let m0 := set_slack_bus_id slack (after_reset m) in
  untouched m m0 /\ slack_bus_id_ m0 = slack /\ need_reset_ m0 = true /\
  _solver m0 = ChooseSolver.reset (_solver m).
Proof. intros m0. split; [split; reflexivity | repeat split]. Qed.

Lemma init_Ybus_members_stage (m m' : GridModel) :
  init_Ybus_members m = (Ok tt, m') ->
  untouched m m' /\ need_reset_ m' = need_reset_ m /\ _solver m' = _solver m /\
  slack_bus_id_ m' = slack_bus_id_ m /\
  (length (bus_vn_kv_ m) <= length (bus_status_ m))%nat /\
  index_maps (take (length (bus_vn_kv_ m)) (bus_status_ m))
             (id_me_to_solver_ m') (id_solver_to_me_ m') /\
  vec_get (id_me_to_solver_ m') (slack_bus_id_ m) = Ok (slack_bus_id_solver_ m') /\
  0 <= slack_bus_id_solver_ m' < vec_size (id_solver_to_me_ m').
Proof.
  intros Hinit.
  pose proof (init_Ybus_members_untouched _ _ _ Hinit) as Hu.
  pose proof (init_Ybus_members_Ok _ _ Hinit)
    as (Hmaps & Hget & Hrange & _ & _ & _ & Hsl & _ & Hso).
  unfold init_Ybus_members in Hinit.
  destruct (init_Ybus _ _) as [o refs] eqn:Hraw. injection Hinit as -> <-.
  apply init_Ybus_Ok in Hraw as (Hn & _).
  split; [exact Hu |]. split; [reflexivity |]. split; [reflexivity |].
  split; [reflexivity |]. split; [exact Hn |]. split; [exact Hmaps |].
  split; [exact Hget | exact Hrange].
Qed.

Lemma fillpv_pq_stage (id_me_to_solver : list Z) (m m' : GridModel) (o : outcome unit) :
  fillpv_pq id_me_to_solver m = (o, m') ->
  untouched m m' /\ need_reset_ m' = need_reset_ m /\ _solver m' = _solver m /\
  slack_bus_id_ m' = slack_bus_id_ m /\
  slack_bus_id_solver_ m' = slack_bus_id_solver_ m /\
  id_me_to_solver_ m' = id_me_to_solver_ m /\
  id_solver_to_me_ m' = id_solver_to_me_ m /\
  Ybus_ m' = Ybus_ m /\ Sbus_ m' = Sbus_ m.
Proof.
  intros Hrun. split; [exact (fillpv_pq_untouched _ _ _ _ Hrun) |]. revert Hrun.
  unfold fillpv_pq, mbind, method_bind, member, assign, call, local. simpl.
  destruct (fillpv_elements _ _ _ _) as [[bus_pv has]|e]; simpl;
    [| intros [= _ <-]; repeat split].
  destruct (for_loop _ _ _) as [[bus_pq has']|e]; intros [= _ <-]; repeat split.
Qed.

Lemma set_Ybus_stage (Ybus : SparseMatrix (R * R)) (m : GridModel) :
  let m' := set_Ybus Ybus m in
  untouched m m' /\ need_reset_ m' = need_reset_ m /\ _solver m' = _solver m /\
  slack_bus_id_ m' = slack_bus_id_ m /\
  slack_bus_id_solver_ m' = slack_bus_id_solver_ m /\
  id_me_to_solver_ m' = id_me_to_solver_ m /\
  id_solver_to_me_ m' = id_solver_to_me_ m.
Proof. intros m'. split; [split; reflexivity | repeat split]. Qed.

Lemma Sbus_stage `{Externals} (Sbus : list (R * R)) (m : GridModel) :
  let m' := set_Sbus Sbus
              (set_generators
                 (DataGen.init_q_vector (generators_ m) (vec_size (bus_vn_kv_ m))) m) in
  untouched m m' /\ need_reset_ m' = need_reset_ m /\ _solver m' = _solver m /\
  slack_bus_id_ m' = slack_bus_id_ m /\
  slack_bus_id_solver_ m' = slack_bus_id_solver_ m /\
  id_me_to_solver_ m' = id_me_to_solver_ m /\
  id_solver_to_me_ m' = id_solver_to_me_ m /\
  generators_ m' = DataGen.init_q_vector (generators_ m) (vec_size (bus_vn_kv_ m)) /\
  Ybus_ m' = Ybus_ m /\ bus_pv_ m' = bus_pv_ m /\ bus_pq_ m' = bus_pq_ m.
Proof. intros m'. split; [split; reflexivity | repeat split]. Qed.

(** What a pre-processing that returns has established. *)
Lemma pre_process_solver_post `{Externals} (Vinit : list (R * R)) (is_ac : bool)
      (m m' : GridModel) (V : list (R * R)) :
  pre_process_solver Vinit is_ac m = (Ok V, m') ->
  untouched m m' /\
  need_reset_ m' = true /\
  _solver m' = ChooseSolver.reset (_solver m) /\
  (length (bus_vn_kv_ m) <= length (bus_status_ m))%nat /\
  index_maps (take (length (bus_vn_kv_ m)) (bus_status_ m))
             (id_me_to_solver_ m') (id_solver_to_me_ m') /\
  DataGen.get_slack_bus_id (generators_ m) (gen_slackbus_ m) = Ok (slack_bus_id_ m') /\
  vec_get (id_me_to_solver_ m') (slack_bus_id_ m') = Ok (slack_bus_id_solver_ m') /\
  0 <= slack_bus_id_solver_ m' < vec_size (id_solver_to_me_ m') /\
  exists V0 : list (R * R),
    for_loop (vec_size (id_solver_to_me_ m'))
             (extract_Vinit_body (id_solver_to_me_ m') Vinit)
             (replicate (length (id_solver_to_me_ m')) ((104 / 100)%R, 0%R)) = Ok V0 /\
    DataGen.set_vm (generators_ m') V0 (id_me_to_solver_ m') = Ok V.
Proof.
  intros Hrun.
  apply pre_process_solver_Ok in Hrun
    as (slack & m2 & Ybus & m4 & Sbus & V0 & Hslack & Hinit & _ & Hpq & _ & Hm' & HV0 & HV).
  destruct (reset_stage m slack) as (Hu0 & Hsl0 & Hnr0 & Hsv0).
  revert Hinit Hu0 Hsl0 Hnr0 Hsv0.
  generalize (set_slack_bus_id slack (after_reset m)). intros m0 Hinit Hu0 Hsl0 Hnr0 Hsv0.
  apply init_Ybus_members_stage in Hinit
    as (Hu2 & Hnr2 & Hsv2 & Hsl2 & Hn & Hmaps & Hget & Hrange).
  destruct (set_Ybus_stage Ybus m2) as (Hu3 & Hnr3 & Hsv3 & Hsl3 & Hss3 & Hme3 & Hso3).
  revert Hpq Hu3 Hnr3 Hsv3 Hsl3 Hss3 Hme3 Hso3.
  generalize (set_Ybus Ybus m2). intros m3 Hpq Hu3 Hnr3 Hsv3 Hsl3 Hss3 Hme3 Hso3.
  apply fillpv_pq_stage in Hpq as (Hu4 & Hnr4 & Hsv4 & Hsl4 & Hss4 & Hme4 & Hso4 & _).
  destruct (Sbus_stage Sbus m4)
    as (Hu5 & Hnr5 & Hsv5 & Hsl5 & Hss5 & Hme5 & Hso5 & Hg5 & _).
  rewrite <- Hg5 in HV. rewrite <- Hm' in *. clear Hm' Hg5.
  rewrite <- Hso5 in HV0. rewrite <- Hme5 in HV.
  unfold vec_size in HV0 at 2. rewrite Nat2Z.id in HV0.
  assert (Hu : untouched m m').
  { apply (untouched_trans _ m4); [| exact Hu5].
    apply (untouched_trans _ m3); [| exact Hu4].
    apply (untouched_trans _ m2); [| exact Hu3].
    apply (untouched_trans _ m0); assumption. }
  assert (Hme : id_me_to_solver_ m' = id_me_to_solver_ m2) by congruence.
  assert (Hso : id_solver_to_me_ m' = id_solver_to_me_ m2) by congruence.
  assert (Hss : slack_bus_id_solver_ m' = slack_bus_id_solver_ m2) by congruence.
  assert (Hsl : slack_bus_id_ m' = slack) by congruence.
  rewrite (ut_bus_vn_kv _ _ Hu0), (ut_bus_status _ _ Hu0) in Hn, Hmaps.
  rewrite Hme, Hso, Hss, Hsl. rewrite Hsl0 in Hget.
  split; [exact Hu |]. split; [congruence |]. split; [congruence |].
  split; [exact Hn |]. split; [exact Hmaps |]. split; [exact Hslack |].
  split; [exact Hget |]. split; [exact Hrange |].
  exists V0. rewrite <- Hme, <- Hso. split; [exact HV0 | exact HV].
Qed.

(** ** The converged path *)

(** A counted loop whose body runs under an invariant runs to its end,
    where the invariant holds. *)
Lemma for_loop_total {S} (P : nat -> S -> Prop) (body : Z -> S -> outcome S) (n : nat) (s : S) :
  P O s ->
  (forall k t, (k < n)%nat -> P k t ->
               exists t', body (Z.of_nat k) t = Ok t' /\ P (Datatypes.S k) t') ->
  exists s', for_loop (Z.of_nat n) body s = Ok s' /\ P n s'.
Proof.
  intros H0 Hstep.
  destruct (for_loop_runs P body n s H0 Hstep) as [s' Hrun].
  exists s'. split; [exact Hrun |].
  apply (for_loop_inv P body n s s' H0); [| exact Hrun].
  intros k t t' Hk HP Hbody.
  destruct (Hstep k t Hk HP) as (t'' & Hbody' & HP'). congruence.
Qed.

(** The loop of [process_results] that converts the voltages of the solver
    back to the "big" vector. *)
Lemma expand_V_loop (bus_status : list bool) (id_me_to_solver : list Z)
      (res_tmp : list (R * R)) (n L : nat) :
  (n <= length bus_status)%nat -> (n <= L)%nat ->
  (forall i : nat, (i < n)%nat -> bus_status !! i = Some true ->
                   exists j : Z, id_me_to_solver !! i = Some j /\ 0 <= j /\
                                 is_Some (res_tmp !! Z.to_nat j)) ->
  exists res : list (R * R),
    for_loop (Z.of_nat n) (expand_V_body bus_status id_me_to_solver res_tmp)
             (replicate L Czero) = Ok res /\
    length res = L /\
    (forall i : nat, (i < L)%nat -> bus_status !! i = Some false -> res !! i = Some Czero) /\
    (forall i : nat, (n <= i < L)%nat -> res !! i = Some Czero) /\
    (forall (i : nat) (j : Z),
        (i < n)%nat -> bus_status !! i = Some true -> id_me_to_solver !! i = Some j ->
        res !! i = res_tmp !! Z.to_nat j).
Proof.
  intros Hn HL Hme.
  destruct (for_loop_total
              (fun (k : nat) (res : list (R * R)) =>
                 length res = L /\
                 (forall i : nat, (i < L)%nat -> (k <= i)%nat \/ bus_status !! i = Some false ->
                                  res !! i = Some Czero) /\
                 (forall (i : nat) (j : Z),
                     (i < k)%nat -> bus_status !! i = Some true ->
                     id_me_to_solver !! i = Some j -> res !! i = res_tmp !! Z.to_nat j))
              (expand_V_body bus_status id_me_to_solver res_tmp) n (replicate L Czero))
    as (res & Hrun & Hlen & Hzero & Hon).
  - rewrite length_replicate. split; [reflexivity | split].
    + intros i Hi _. now apply lookup_replicate_2.
    + intros i j Hi. lia.
  - intros k t Hk (Hlen & Hzero & Hon). unfold expand_V_body.
    destruct (lookup_lt_is_Some_2 bus_status k) as [c Hc]; [lia |].
    rewrite (vec_get_nat _ _ _ Hc). simpl. destruct c; simpl.
    + destruct (Hme k Hk Hc) as (j & Hj & Hpos & [v Hv]).
      rewrite (vec_get_nat _ _ _ Hj). simpl.
      destruct (Z.eqb_spec j _deactivated_bus_id) as [Heq|_];
        [unfold _deactivated_bus_id in Heq; lia |].
      rewrite (proj2 (vec_get_Ok _ _ _) (conj Hpos Hv)). simpl.
      rewrite vec_set_nat by lia. eexists. split; [reflexivity |].
      rewrite length_insert. split; [exact Hlen | split].
      * intros i Hi Hcase. rewrite list_lookup_insert_ne.
        -- apply Hzero; [exact Hi |]. destruct Hcase; [left; lia | now right].
        -- intros ->. destruct Hcase; [lia | congruence].
      * intros i j' Hi Hc' Hj'. destruct (Nat.eq_dec i k) as [-> | Hne].
        -- rewrite list_lookup_insert_eq by lia. congruence.
        -- rewrite list_lookup_insert_ne by congruence. apply Hon; [lia | assumption..].
    + exists t. split; [reflexivity |]. split; [exact Hlen | split].
      * intros i Hi Hcase. apply Hzero; [exact Hi |].
        destruct (Nat.eq_dec i k) as [-> | Hne]; [now right |].
        destruct Hcase; [left; lia | now right].
      * intros i j Hi Hc' Hj. destruct (Nat.eq_dec i k) as [-> | Hne]; [congruence |].
        apply Hon; [lia | assumption..].
  - exists res. split; [exact Hrun |]. split; [exact Hlen |]. split; [| split].
    + intros i Hi Hoff. apply Hzero; auto.
    + intros i Hi. apply Hzero; [lia |]. left. lia.
    + exact Hon.
Qed.

(** [process_results] on the converged path, for a grid whose index map
    sends every connected bus to a voltage of the solver. *)
Lemma process_results_converged `{Externals} (res0 Vinit : list (R * R)) (m : GridModel) :
  (length (bus_vn_kv_ m) <= length (bus_status_ m))%nat ->
  (length (bus_vn_kv_ m) <= length Vinit)%nat ->
  (forall i : nat,
      (i < length (bus_vn_kv_ m))%nat -> bus_status_ m !! i = Some true ->
      exists j : Z, id_me_to_solver_ m !! i = Some j /\ 0 <= j /\
                    is_Some (ChooseSolver.get_V (_solver m) !! Z.to_nat j)) ->
  exists (res : list (R * R)) (m' : GridModel),
    process_results true res0 Vinit m = (Ok res, m') /\
    need_reset_ m' = false /\
    same_solve_state m m' /\
    (compute_results_ m = false -> m' = set_need_reset false m) /\
    length res = length Vinit /\
    (forall i : nat, (i < length Vinit)%nat -> bus_status_ m !! i = Some false ->
                     res !! i = Some Czero) /\
    (forall i : nat, (length (bus_vn_kv_ m) <= i < length Vinit)%nat ->
                     res !! i = Some Czero) /\
    (forall (i : nat) (j : Z),
        (i < length (bus_vn_kv_ m))%nat -> bus_status_ m !! i = Some true ->
        id_me_to_solver_ m !! i = Some j ->
        res !! i = ChooseSolver.get_V (_solver m) !! Z.to_nat j).
Proof.
  intros Hn HL Hme.
  destruct (expand_V_loop (bus_status_ m) (id_me_to_solver_ m)
                          (ChooseSolver.get_V (_solver m))
                          (length (bus_vn_kv_ m)) (length Vinit) Hn HL Hme)
    as (res & Hrun & Hlen & Hoff & Hbeyond & Hon).
  assert (Hstep : exists m2 : GridModel,
             (if compute_results_ m then compute_results else mret tt) m = (Ok tt, m2) /\
             same_solve_state m m2 /\ (compute_results_ m = false -> m2 = m)).
  { destruct (compute_results_ m).
    - destruct (compute_results_frame m) as [Hf Hs].
      destruct (compute_results m) as [o m2]. simpl in Hf, Hs. subst o.
      exists m2. split; [reflexivity | split; [exact Hs | discriminate]].
    - exists m. split; [reflexivity | split; [apply same_solve_state_refl | reflexivity]]. }
  destruct Hstep as (m2 & Hstep & Hsame & Hskip).
  exists res, (set_need_reset false m2).
  split.
  - unfold process_results. method_run.
    rewrite (method_bind_run _ _ _ _ _ Hstep). do 3 method_run.
    unfold call. member_of_assign.
    pose proof Hsame as Hsame'. unpack_same Hsame'.
    rewrite <- si_bus_status, <- sa_id_me_to_solver, <- sa_solver, <- si_bus_vn_kv.
    unfold vec_size. rewrite Hrun. reflexivity.
  - split; [reflexivity |]. split.
    { apply (same_solve_state_trans _ m2); [exact Hsame |]. repeat split. }
    split; [intros Hc; now rewrite (Hskip Hc) |].
    split; [exact Hlen |]. split; [exact Hoff |]. split; [exact Hbeyond | exact Hon].
Qed.

(** X3.  When the solver converges and hands back one voltage per solver bus,
    [ac_pf] returns (the error "One bus is connected in GridModel and
    disconnected in Solver" cannot occur after [init_Ybus]); [need_reset_]
    is cleared; the result has one entry per bus, 0 at every disconnected
    bus and, at a connected bus [i], the voltage the solver holds at the
    solver index of [i]. *)
Theorem ac_pf_converged `{Externals} (Vinit : list (R * R)) (max_iter : Z) (tol : R)
        (m m1 : GridModel) (V : list (R * R)) (s : ChooseSolver.t) :
  vec_size Vinit = vec_size (bus_vn_kv_ m) ->
  pre_process_solver Vinit true m = (Ok V, m1) ->
  ChooseSolver.compute_pf (_solver m1) (Ybus_ m1) V (Sbus_ m1) (bus_pv_ m1) (bus_pq_ m1)
                          max_iter tol = (true, s) ->
  length (ChooseSolver.get_V s) = length (id_solver_to_me_ m1) ->
  exists (res : list (R * R)) (m' : GridModel),
    ac_pf Vinit max_iter tol m = (Ok res, m') /\
    need_reset_ m' = false /\
    length res = length (bus_vn_kv_ m) /\
    (forall i : nat,
        (i < length (bus_vn_kv_ m))%nat -> bus_status_ m !! i = Some false ->
        res !! i = Some Czero) /\
    (forall i : nat,
        (i < length (bus_vn_kv_ m))%nat -> bus_status_ m !! i = Some true ->
        exists j : nat,
          id_me_to_solver_ m' !! i = Some (Z.of_nat j) /\
          id_solver_to_me_ m' !! j = Some (Z.of_nat i) /\
          is_Some (res !! i) /\
          res !! i = ChooseSolver.get_V s !! j).
Proof.
  intros Hsize Hpre Hconv HV.
  pose proof (pre_process_solver_post _ _ _ _ _ Hpre)
    as (Hu & _ & _ & Hn & Hmaps & _).
  unfold vec_size in Hsize. apply Nat2Z.inj in Hsize.
  set (n := length (bus_vn_kv_ m)) in *.
  assert (Hstat : forall i : nat, (i < n)%nat ->
                    take n (bus_status_ m) !! i = bus_status_ m !! i).
  { intros i Hi. now apply lookup_take_lt. }
  (* the grid the solver leaves *)
  assert (Hm2 : exists m2 : GridModel,
             solver_compute_pf V max_iter tol m1 = (Ok true, m2) /\
             bus_vn_kv_ m2 = bus_vn_kv_ m /\ bus_status_ m2 = bus_status_ m /\
             id_me_to_solver_ m2 = id_me_to_solver_ m1 /\
             id_solver_to_me_ m2 = id_solver_to_me_ m1 /\ _solver m2 = s).
  { exists (set_solver s m1). unfold solver_compute_pf. rewrite Hconv.
    split; [reflexivity |]. member_of_assign.
    rewrite (ut_bus_vn_kv _ _ Hu), (ut_bus_status _ _ Hu). repeat split. }
  destruct Hm2 as (m2 & Hsolve & Hvn2 & Hst2 & Hme2 & Hso2 & Hs2).
  destruct (process_results_converged [] Vinit m2)
    as (res & m' & Hproc & Hnr & Hsame & _ & Hlen & Hoff & _ & Hon).
  { rewrite Hvn2, Hst2. exact Hn. }
  { rewrite Hvn2. fold n. lia. }
  { rewrite Hvn2, Hst2, Hme2, Hs2. fold n. intros i Hi Hc.
    rewrite <- Hstat in Hc by exact Hi.
    destruct (maps_connected _ _ _ Hmaps i Hc) as (j & Hj & Hmej & _).
    exists (Z.of_nat j). rewrite Nat2Z.id. split; [exact Hmej | split; [lia |]].
    apply lookup_lt_is_Some_2. rewrite HV, (maps_length_solver _ _ _ Hmaps). exact Hj. }
  exists res, m'. split.
  - unfold ac_pf. method_run. unfold vec_size. rewrite Hsize, Z.eqb_refl. cbn [negb].
    rewrite (method_bind_run _ _ _ _ _ Hpre).
    rewrite (method_bind_run _ _ _ _ _ Hsolve). exact Hproc.
  - rewrite Hvn2, Hst2, Hme2, Hs2 in *. fold n in Hoff, Hon.
    pose proof Hsame as Hsame'. unpack_same Hsame'.
    split; [exact Hnr |]. split; [congruence |]. split.
    + intros i Hi Hc. apply Hoff; [lia | exact Hc].
    + intros i Hi Hc. pose proof Hc as Hc'. rewrite <- Hstat in Hc' by exact Hi.
      destruct (maps_connected _ _ _ Hmaps i Hc') as (j & Hj & Hmej & Hsoj).
      exists j. rewrite <- sa_id_me_to_solver, <- sa_id_solver_to_me, Hme2, Hso2.
      split; [exact Hmej | split; [exact Hsoj |]].
      rewrite (Hon i (Z.of_nat j) Hi Hc Hmej), Nat2Z.id.
      split; [| reflexivity].
      apply lookup_lt_is_Some_2. rewrite HV, (maps_length_solver _ _ _ Hmaps). exact Hj.
Qed.

Lemma ac_pf_converged_witness :
  exists (res : list (R * R)) (m' : GridModel),
    ac_pf (H := demo_externals) flat_start 10 (1 / 100000000)%R two_bus_grid = (Ok res, m') /\
    need_reset_ m' = false /\
    length res = length (bus_vn_kv_ two_bus_grid).
Proof.
  destruct (ac_pf_converged
              (H := demo_externals) flat_start 10 (1 / 100000000)%R two_bus_grid
              (snd (pre_process_solver (H := demo_externals) flat_start true two_bus_grid))
              [(1%R, 0%R); (1%R, 0%R)]
              (ChooseSolver.mk (AC 0)
                 (mkSolverResults [(1%R, 0%R); (1%R, 0%R)] [] [] sparse_empty 0 0%R)))
    as (res & m' & Hrun & Hnr & Hlen & _).
  - reflexivity.
  - cbv -[Rplus Rminus Rmult Rdiv Rinv Ropp IZR cos sin atan]. reflexivity.
  - cbv -[Rplus Rminus Rmult Rdiv Rinv Ropp IZR cos sin atan]. reflexivity.
  - reflexivity.
  - exists res, m'. auto.
Defined.

(** ** A solve, stage by stage *)

(** A call of [ac_pf] that returns went through the pre-processing, the
    solver and [process_results]. *)
Lemma ac_pf_Ok `{Externals} (Vinit : list (R * R)) (max_iter : Z) (tol : R)
      (m m' : GridModel) (res : list (R * R)) :
  ac_pf Vinit max_iter tol m = (Ok res, m') ->
  vec_size Vinit = vec_size (bus_vn_kv_ m) /\
  exists (V : list (R * R)) (m1 : GridModel) (conv : bool) (s : ChooseSolver.t),
    pre_process_solver Vinit true m = (Ok V, m1) /\
    ChooseSolver.compute_pf (_solver m1) (Ybus_ m1) V (Sbus_ m1) (bus_pv_ m1) (bus_pq_ m1)
                            max_iter tol = (conv, s) /\
    process_results conv [] Vinit (set_solver s m1) = (Ok res, m').
Proof.
  unfold ac_pf. intros Hrun.
  method_step Hrun.
  destruct (negb _) eqn:Hsize; [discriminate |].
  apply negb_false_iff, Z.eqb_eq in Hsize.
  split; [exact Hsize |].
  apply method_bind_Ok in Hrun as (V & m1 & Hpre & Hrun).
  apply method_bind_Ok in Hrun as (conv & m2 & Hsolve & Hrun).
  unfold solver_compute_pf in Hsolve.
  destruct (ChooseSolver.compute_pf _ _ _ _ _ _ _ _) as [conv' s] eqn:Hconv.
  injection Hsolve as -> <-.
  exists V, m1, conv, s. auto.
Qed.

(** X4.  With the computation of the results deactivated
    ([deactivate_result_computation]), a solve that converges (it returns
    with [need_reset_] cleared) leaves the results of every element family
    as they were before the call, together with the whole description of
    the grid: the stored flows are those of an earlier solve. *)
Theorem ac_pf_results_deactivated `{Externals} (Vinit : list (R * R)) (max_iter : Z) (tol : R)
        (m m' : GridModel) (res : list (R * R)) :
  compute_results_ m = false ->
  ac_pf Vinit max_iter tol m = (Ok res, m') ->
  need_reset_ m' = false ->
  untouched m m'.
Proof.
  intros Hoff Hrun Hnr.
  apply ac_pf_Ok in Hrun as (_ & V & m1 & conv & s & Hpre & _ & Hproc).
  apply pre_process_solver_post in Hpre as (Hu & _).
  destruct conv.
  - assert (Hoff2 : compute_results_ (set_solver s m1) = false).
    { member_of_assign. now rewrite (ut_compute_results _ _ Hu). }
    revert Hproc Hoff2. assert (Hu2 : untouched m1 (set_solver s m1)) by (split; reflexivity).
    revert Hu2. generalize (set_solver s m1). intros m2 Hu2 Hproc Hoff2.
    unfold process_results in Hproc.
    apply method_bind_Ok in Hproc as (c & m3 & Hc & Hproc).
    unfold member in Hc. injection Hc as <- <-. rewrite Hoff2 in Hproc.
    apply method_bind_Ok in Hproc as ([] & m3 & Hskip & Hproc).
    injection Hskip as <-.
    apply method_bind_Ok in Hproc as ([] & m4 & Hset & Hproc).
    unfold assign in Hset. injection Hset as <-.
    apply method_bind_Ok in Hproc as (res_tmp & m5 & Hget & Hproc).
    unfold member in Hget. injection Hget as _ <-.
    apply method_bind_Ok in Hproc as (nb & m6 & Hnb & Hproc).
    unfold member in Hnb. injection Hnb as _ <-.
    unfold call in Hproc. injection Hproc as _ <-.
    apply (untouched_trans _ m1); [exact Hu |].
    apply (untouched_trans _ m2); [exact Hu2 |]. split; reflexivity.
  - rewrite process_results_diverged in Hproc. injection Hproc as _ <-.
    revert Hnr. member_of_assign. discriminate.
Qed.

Lemma ac_pf_results_deactivated_witness :
  untouched (snd (deactivate_result_computation two_bus_grid))
            (snd (ac_pf (H := demo_externals) flat_start 10 (1 / 100000000)%R
                        (snd (deactivate_result_computation two_bus_grid)))).
Proof.
  apply (ac_pf_results_deactivated
           (H := demo_externals) flat_start 10 (1 / 100000000)%R
           (snd (deactivate_result_computation two_bus_grid))
           (snd (ac_pf (H := demo_externals) flat_start 10 (1 / 100000000)%R
                       (snd (deactivate_result_computation two_bus_grid))))
           [(1%R, 0%R); (1%R, 0%R)]).
  - reflexivity.
  - cbv -[Rplus Rminus Rmult Rdiv Rinv Ropp IZR cos sin atan]. reflexivity.
  - reflexivity.
Defined.

(** ** What a successful pre-processing has set up *)

(** X5.  After a pre-processing that returns, [slack_bus_id_] is the bus of the
    slack generator, that bus is connected, [slack_bus_id_solver_] is its
    solver index, and [id_solver_to_me_] maps that index back to it. *)
Theorem pre_process_solver_slack_ids `{Externals} (Vinit : list (R * R)) (is_ac : bool)
        (m m' : GridModel) (V : list (R * R)) :
  pre_process_solver Vinit is_ac m = (Ok V, m') ->
  DataGen.get_slack_bus_id (generators_ m) (gen_slackbus_ m) = Ok (slack_bus_id_ m') /\
  0 <= slack_bus_id_ m' /\
  bus_status_ m !! Z.to_nat (slack_bus_id_ m') = Some true /\
  id_me_to_solver_ m' !! Z.to_nat (slack_bus_id_ m') = Some (slack_bus_id_solver_ m') /\
  0 <= slack_bus_id_solver_ m' < vec_size (id_solver_to_me_ m') /\
  id_solver_to_me_ m' !! Z.to_nat (slack_bus_id_solver_ m') = Some (slack_bus_id_ m').
Proof.
  intros Hrun.
  apply pre_process_solver_post in Hrun
    as (_ & _ & _ & Hn & Hmaps & Hslack & Hget & Hrange & _).
  apply vec_get_Ok in Hget as [Hpos Hme].
  set (i := Z.to_nat (slack_bus_id_ m')) in *.
  set (n := length (bus_vn_kv_ m)) in *.
  assert (Hi : (i < n)%nat).
  { pose proof (lookup_lt_Some _ _ _ Hme) as Hlt.
    rewrite (maps_length_me _ _ _ Hmaps), length_take in Hlt. lia. }
  assert (Hon : bus_status_ m !! i = Some true).
  { destruct (lookup_lt_is_Some_2 (bus_status_ m) i) as [[|] Hb]; [lia | exact Hb |].
    exfalso.
    assert (Hb' : take n (bus_status_ m) !! i = Some false)
      by (rewrite lookup_take_lt by exact Hi; exact Hb).
    apply (index_maps_connected_iff _ _ _ _ _ Hmaps Hme) in Hb'. lia. }
  split; [exact Hslack |]. split; [exact Hpos |]. split; [exact Hon |].
  split; [exact Hme |]. split; [exact Hrange |].
  assert (Hon' : take n (bus_status_ m) !! i = Some true)
    by (rewrite lookup_take_lt by exact Hi; exact Hon).
  destruct (maps_connected _ _ _ Hmaps i Hon') as (j & _ & Hmej & Hsoj).
  rewrite Hme in Hmej. injection Hmej as ->. rewrite Nat2Z.id.
  rewrite Hsoj. f_equal. subst i. lia.
Qed.

Lemma pre_process_solver_slack_ids_witness :
  let m' := snd (pre_process_solver (H := demo_externals) flat_start true two_bus_grid) in
  id_solver_to_me_ m' !! Z.to_nat (slack_bus_id_solver_ m') = Some (slack_bus_id_ m').
Proof.
  intros m'.
  refine (proj2 (proj2 (proj2 (proj2 (proj2
            (pre_process_solver_slack_ids (H := demo_externals) flat_start true two_bus_grid
                                          m' [(1%R, 0%R); (1%R, 0%R)] _)))))).
  cbv -[Rplus Rminus Rmult Rdiv Rinv Ropp IZR cos sin atan]. reflexivity.
Defined.

(** The loop of [pre_process_solver] over the solver buses. *)
Lemma extract_Vinit_loop (id_solver_to_me : list Z) (Vinit V0 : list (R * R))
      (c : R * R) :
  for_loop (vec_size id_solver_to_me) (extract_Vinit_body id_solver_to_me Vinit)
           (replicate (length id_solver_to_me) c) = Ok V0 ->
  length V0 = length id_solver_to_me /\
  forall (j : nat) (i : Z),
    id_solver_to_me !! j = Some i ->
    exists v : R * R, 0 <= i /\ Vinit !! Z.to_nat i = Some v /\ V0 !! j = Some v.
Proof.
  intros Hrun. set (K := length id_solver_to_me) in *.
  assert (Hinv : length V0 = K /\
                 forall (j : nat) (i : Z),
                   (j < K)%nat -> id_solver_to_me !! j = Some i ->
                   exists v : R * R, 0 <= i /\ Vinit !! Z.to_nat i = Some v /\
                                     V0 !! j = Some v).
  { apply (for_loop_inv
             (fun (k : nat) (V0 : list (R * R)) =>
                length V0 = K /\
                forall (j : nat) (i : Z),
                  (j < k)%nat -> id_solver_to_me !! j = Some i ->
                  exists v : R * R, 0 <= i /\ Vinit !! Z.to_nat i = Some v /\
                                    V0 !! j = Some v)
             (extract_Vinit_body id_solver_to_me Vinit) K (replicate K c));
      [| | exact Hrun].
    - rewrite length_replicate. split; [reflexivity |]. intros j i Hj. lia.
    - intros k t t' Hk [Hlen Hprev] Hbody. unfold extract_Vinit_body in Hbody.
      apply bind_Ok in Hbody as (i & Hi & Hbody).
      apply bind_Ok in Hbody as (v & Hv & Hset).
      apply vec_get_Ok in Hi as [_ Hi]. rewrite Nat2Z.id in Hi.
      apply vec_get_Ok in Hv as [Hpos Hv].
      apply vec_set_Ok in Hset as [_ ->]. rewrite Nat2Z.id, length_insert.
      split; [exact Hlen |]. intros j i' Hj Hi'.
      destruct (Nat.eq_dec j k) as [-> | Hne].
      + rewrite Hi in Hi'. injection Hi' as <-. exists v.
        split; [exact Hpos | split; [exact Hv |]]. apply list_lookup_insert_eq. lia.
      + rewrite list_lookup_insert_ne by congruence. apply Hprev; [lia | exact Hi']. }
  destruct Hinv as [Hlen Hall]. split; [exact Hlen |].
  intros j i Hj. apply Hall; [| exact Hj]. apply lookup_lt_Some in Hj. exact Hj.
Qed.

(** X6.  The voltages that [pre_process_solver] hands to [generators_.set_vm]
    (and from there to the solver) are the entries of [Vinit] at the
    connected buses, in the order of the solver: the constant 1.04 the
    vector is created with is overwritten everywhere, and the entries of
    [Vinit] at disconnected buses are never read. *)
Theorem pre_process_solver_initial_voltages `{Externals} (Vinit : list (R * R))
        (is_ac : bool) (m m' : GridModel) (V : list (R * R)) :
  pre_process_solver Vinit is_ac m = (Ok V, m') ->
  exists V0 : list (R * R),
    DataGen.set_vm (generators_ m') V0 (id_me_to_solver_ m') = Ok V /\
    length V0 = length (id_solver_to_me_ m') /\
    forall (j : nat) (i : Z),
      id_solver_to_me_ m' !! j = Some i ->
      exists v : R * R, 0 <= i /\ Vinit !! Z.to_nat i = Some v /\ V0 !! j = Some v.
Proof.
  intros Hrun.
  apply pre_process_solver_post in Hrun as (_ & _ & _ & _ & _ & _ & _ & _ & V0 & HV0 & HV).
  exists V0. split; [exact HV |]. now apply extract_Vinit_loop in HV0.
Qed.

Lemma pre_process_solver_initial_voltages_witness :
  exists V0 : list (R * R),
    length V0
    = length (id_solver_to_me_
                (snd (pre_process_solver (H := demo_externals) flat_start true two_bus_grid))).
Proof.
  destruct (pre_process_solver_initial_voltages
              (H := demo_externals) flat_start true two_bus_grid
              (snd (pre_process_solver (H := demo_externals) flat_start true two_bus_grid))
              [(1%R, 0%R); (1%R, 0%R)]) as (V0 & _ & Hlen & _).
  - cbv -[Rplus Rminus Rmult Rdiv Rinv Ropp IZR cos sin atan]. reflexivity.
  - exists V0. exact Hlen.
Defined.

(** ** A solve does not consume its inputs *)

Lemma same_inputs_refl (m : GridModel) : same_inputs m m.
Proof. split; reflexivity. Qed.

Lemma same_inputs_trans (m1 m2 m3 : GridModel) :
  same_inputs m1 m2 -> same_inputs m2 m3 -> same_inputs m1 m3.
Proof. intros H12 H23. unpack_inputs H12. destruct H23. split; congruence. Qed.

Lemma inputs_kept_bind {A B} (x : method A) (f : A -> method B) :
  inputs_kept x -> (forall a, inputs_kept (f a)) -> inputs_kept (x ≫= f).
Proof.
  intros Hx Hf m. unfold mbind, method_bind. specialize (Hx m).
  destruct (x m) as [[a|e] m1]; simpl in *; [| exact Hx].
  apply (same_inputs_trans _ m1); [apply Hf | exact Hx].
Qed.

Lemma inputs_kept_keeps {A} (x : method A) : keeps x -> inputs_kept x.
Proof. intros Hx m. rewrite (Hx m). apply same_inputs_refl. Qed.

Lemma inputs_kept_assign (g : GridModel -> GridModel) :
  (forall m, same_inputs (g m) m) -> inputs_kept (assign g).
Proof. intros Hg m. apply Hg. Qed.

Create HintDb inputs.
#[local] Hint Resolve keeps_member keeps_call keeps_local keeps_ret keeps_throw
  inputs_kept_keeps : inputs.

(** The first statement only reads; it is an assignment to a member that
    is not an input; it is the last statement. *)
Ltac ik_read := apply inputs_kept_bind; [solve [auto with inputs] |].
Ltac ik_assign_last := apply inputs_kept_assign; intros ?; split; reflexivity.
Ltac ik_assign := apply inputs_kept_bind; [ik_assign_last |]; intros [].

Lemma reset_inputs_kept : inputs_kept reset.
Proof. intros m. change (reset m) with (Ok tt, after_reset m). split; reflexivity. Qed.

Lemma init_Ybus_members_inputs_kept : inputs_kept init_Ybus_members.
Proof.
  intros m. unfold init_Ybus_members. destruct (init_Ybus _ _) as [o refs].
  split; reflexivity.
Qed.

Lemma fillpv_pq_inputs_kept (id_me_to_solver : list Z) : inputs_kept (fillpv_pq id_me_to_solver).
Proof.
  unfold fillpv_pq. ik_read. intros nb. ik_assign. ik_assign.
  ik_read. intros [bus_pv has]. ik_read. intros slack. ik_read. intros [bus_pq has'].
  ik_assign. ik_assign_last.
Qed.

Section Repeatable.
Context `{Externals}.

Lemma pre_process_solver_inputs_kept (Vinit : list (R * R)) (is_ac : bool) :
  inputs_kept (pre_process_solver Vinit is_ac).
Proof.
  unfold pre_process_solver.
  apply inputs_kept_bind; [apply reset_inputs_kept |]. intros [].
  ik_read. intros slack. ik_assign.
  apply inputs_kept_bind; [apply init_Ybus_members_inputs_kept |]. intros [].
  ik_read. intros Ybus. ik_assign. ik_read. intros id_me_to_solver.
  apply inputs_kept_bind; [apply fillpv_pq_inputs_kept |]. intros [].
  ik_assign. ik_read. intros Sbus. ik_assign. ik_read. intros id_solver_to_me.
  ik_read. intros V. auto with inputs.
Qed.

Lemma solver_compute_pf_inputs_kept (V : list (R * R)) (max_iter : Z) (tol : R) :
  inputs_kept (solver_compute_pf V max_iter tol).
Proof.
  intros m. unfold solver_compute_pf, ChooseSolver.compute_pf.
  destruct (ext_compute_pf _ _ _ _ _ _ _ _ _) as [conv r]. split; reflexivity.
Qed.

Lemma compute_results_inputs_kept : inputs_kept compute_results.
Proof.
  intros m. destruct (compute_results_frame m) as [_ Hs].
  pose proof (same_solve_state_sym _ _ Hs) as Hs'. unpack_same Hs'.
  split; assumption.
Qed.

Lemma process_results_inputs_kept (conv : bool) (res Vinit : list (R * R)) :
  inputs_kept (process_results conv res Vinit).
Proof.
  unfold process_results. destruct conv.
  - ik_read. intros c.
    apply inputs_kept_bind;
      [destruct c; [apply compute_results_inputs_kept | auto with inputs] |].
    intros []. ik_assign. ik_read. intros res_tmp. ik_read. intros nb. auto with inputs.
  - apply inputs_kept_bind.
    { intros m. change (reset_results m) with (Ok tt, after_reset_results m).
      split; reflexivity. }
    intros []. ik_assign. auto with inputs.
Qed.

Lemma ac_pf_inputs_kept (Vinit : list (R * R)) (max_iter : Z) (tol : R) :
  inputs_kept (ac_pf Vinit max_iter tol).
Proof.
  unfold ac_pf. ik_read. intros nb. destruct (negb _); [auto with inputs |].
  apply inputs_kept_bind; [apply pre_process_solver_inputs_kept |]. intros V.
  apply inputs_kept_bind; [apply solver_compute_pf_inputs_kept |]. intros conv.
  apply process_results_inputs_kept.
Qed.
End Repeatable.

(** X7.  [ac_pf] does not consume what it reads: whether a call returned the
    voltages, returned the empty vector or threw, the same call on the grid
    it left ends like the first one.  (The solver is a function of the
    selection and of what [compute_pf] receives; [reset()] clears whatever
    it kept.) *)
Theorem ac_pf_repeatable `{Externals} (Vinit : list (R * R)) (max_iter : Z) (tol : R)
        (m : GridModel) :
  fst (ac_pf Vinit max_iter tol (snd (ac_pf Vinit max_iter tol m)))
  = fst (ac_pf Vinit max_iter tol m).
Proof.
  pose proof (sim_ac_pf Vinit max_iter tol _ _ (ac_pf_inputs_kept Vinit max_iter tol m))
    as Hsim.
  destruct (fst (ac_pf Vinit max_iter tol (snd (ac_pf Vinit max_iter tol m)))) as [V1|e1],
           (fst (ac_pf Vinit max_iter tol m)) as [V2|e2]; try contradiction.
  - destruct Hsim as [-> _]. reflexivity.
  - now subst e2.
Qed.

(** ** Copies *)

(** Two grids with the same inputs end [dc_pf] alike. *)
Lemma sim_dc_pf `{Externals} (Vinit : list (R * R)) (max_iter : Z) (tol : R) :
  sim eq same_inputs same_solve_state (dc_pf Vinit max_iter tol) (dc_pf Vinit max_iter tol).
Proof.
  unfold dc_pf.
  apply (sim_bind_eq _ _ same_inputs).
  { apply sim_member. intros m1 m2 HE. unpack_same HE. congruence. }
  intros nb. destruct (negb _); [apply sim_throw |].
  apply (sim_bind_eq _ _ same_inputs).
  { apply sim_member. intros m1 m2 HE. unpack_same HE. exact si_solver_type. }
  intros solver_type.
  apply (sim_bind_eq _ _ same_inputs).
  { apply sim_assign. intros m1 m2 HE. unpack_same HE. split; member_of_assign; auto. }
  intros [].
  apply (sim_bind_eq _ _ same_solve_state); [apply sim_pre_process_solver |]. intros V.
  apply (sim_bind_eq _ _ same_solve_state); [apply sim_solver_compute_pf |]. intros conv.
  apply (sim_bind_eq _ _ same_solve_state); [apply sim_process_results |]. intros res.
  apply (sim_bind_eq _ _ same_solve_state).
  { apply sim_assign. intros m1 m2 HE. unpack_same HE. solve_same. }
  intros []. apply sim_ret.
Qed.

(** X8.  A grid built by the copy constructor has the state tuple and the
    solver selection of the original, and [ac_pf] and [dc_pf] end on it as
    on the original, whatever the members of the new object were before
    the constructor ran. *)
Theorem copy_solves_alike `{Externals} (fresh other : GridModel) (Vinit : list (R * R))
        (max_iter : Z) (tol : R) :
  let c := copy fresh other in
  fst (copy_constructor other fresh) = Ok tt /\
  get_state c = get_state other /\
  get_solver_type c = get_solver_type other /\
  fst (ac_pf Vinit max_iter tol c) = fst (ac_pf Vinit max_iter tol other) /\
  fst (dc_pf Vinit max_iter tol c) = fst (dc_pf Vinit max_iter tol other).
Proof.
  intros c.
  assert (Hin : same_inputs c other) by (split; reflexivity).
  split; [reflexivity |]. split; [reflexivity |]. split; [reflexivity |]. split.
  - pose proof (sim_ac_pf Vinit max_iter tol _ _ Hin) as Hsim.
    destruct (fst (ac_pf Vinit max_iter tol c)) as [V1|e1],
             (fst (ac_pf Vinit max_iter tol other)) as [V2|e2]; try contradiction.
    + destruct Hsim as [-> _]. reflexivity.
    + now subst e2.
  - pose proof (sim_dc_pf Vinit max_iter tol _ _ Hin) as Hsim.
    destruct (fst (dc_pf Vinit max_iter tol c)) as [V1|e1],
             (fst (dc_pf Vinit max_iter tol other)) as [V2|e2]; try contradiction.
    + destruct Hsim as [-> _]. reflexivity.
    + now subst e2.
Qed.

(** X9.  What the copy constructor does not copy: it has statements for the
    buses, the lines, shunts, transformers, generators and loads, the slack
    ids and thirteen of the grid2op attributes, and none for the static
    generators, the storage units, [sn_mva_], [init_vm_pu_] and the two
    storage attributes of grid2op, which are those of the new object and
    not of the original.  The members a solve assembles are reset and
    [need_reset_] is set. *)
Theorem copy_constructor_leaves_out (fresh other : GridModel) :
  let c := copy fresh other in
  sgens_ c = sgens_ fresh /\
  storages_ c = storages_ fresh /\
  sn_mva_ c = sn_mva_ fresh /\
  init_vm_pu_ c = init_vm_pu_ fresh /\
  storage_pos_topo_vect_ (grid2op_ c) = storage_pos_topo_vect_ (grid2op_ fresh) /\
  storage_to_subid_ (grid2op_ c) = storage_to_subid_ (grid2op_ fresh) /\
  need_reset_ c = true /\
  Ybus_ c = sparse_empty /\ Sbus_ c = [] /\
  id_me_to_solver_ c = [] /\ id_solver_to_me_ c = [] /\
  bus_pv_ c = [] /\ bus_pq_ c = [] /\ slack_bus_id_solver_ c = -1 /\
  ChooseSolver.solver_results (_solver c) = no_results.
Proof. intros c. repeat split. Qed.

(** ** A grid with every bus connected *)

Lemma iota_S (k : nat) : iota (Datatypes.S k) = iota k ++ [Z.of_nat k].
Proof. unfold iota. rewrite seq_S, map_app. reflexivity. Qed.

Lemma length_iota (k : nat) : length (iota k) = k.
Proof. unfold iota. now rewrite length_map, length_seq. Qed.

Lemma count_connected_replicate (n : nat) : count_connected (replicate n true) = n.
Proof.
  unfold count_connected. induction n as [|n IH]; simpl; [reflexivity |].
  destruct (bool_dec true true); [now rewrite IH | contradiction].
Qed.

(** With every bus connected the loop of [init_Ybus] builds the identity
    in both directions. *)
Lemma init_Ybus_loop_all_connected (n : nat) :
  for_loop (Z.of_nat n) (init_Ybus_body (replicate n true)) (replicate n (-1), [], 0)
  = Ok (iota n, iota n, Z.of_nat n).
Proof.
  destruct (for_loop_total
              (fun (k : nat) (st : list Z * list Z * Z) =>
                 st = (iota k ++ replicate (n - k) (-1), iota k, Z.of_nat k))
              (init_Ybus_body (replicate n true)) n (replicate n (-1), [], 0))
    as (st & Hrun & Hst).
  - rewrite Nat.sub_0_r. reflexivity.
  - intros k t Hk ->. eexists. split; [| reflexivity].
    rewrite iota_S. unfold init_Ybus_body.
    rewrite (vec_get_nat _ _ true) by (apply lookup_replicate_2; lia).
    cbn [mbind outcome_bind].
    rewrite vec_set_nat by (rewrite length_app, length_iota, length_replicate; lia).
    cbn [mbind outcome_bind].
    rewrite insert_app_r_alt by (rewrite length_iota; lia).
    rewrite length_iota, Nat.sub_diag.
    replace (n - k)%nat with (Datatypes.S (n - Datatypes.S k)) by lia.
    rewrite <- app_assoc. do 3 f_equal. lia.
  - rewrite Hrun, Hst, Nat.sub_diag. simpl. now rewrite app_nil_r.
Qed.

Lemma init_Ybus_all_connected (m : GridModel) (refs : YbusRefs) :
  bus_status_ m = replicate (length (bus_vn_kv_ m)) true ->
  r_id_me_to_solver (snd (init_Ybus m refs)) = iota (length (bus_vn_kv_ m)) /\
  r_id_solver_to_me (snd (init_Ybus m refs)) = iota (length (bus_vn_kv_ m)).
Proof.
  intros Hst. unfold init_Ybus, vec_size. rewrite Hst, Nat2Z.id.
  change _deactivated_bus_id with (-1).
  rewrite init_Ybus_loop_all_connected.
  destruct (vec_get (iota (length (bus_vn_kv_ m))) (slack_bus_id_ m)) as [s|e];
    [destruct (s =? -1) |]; split; reflexivity.
Qed.

(** X10.  [init_bus] leaves a grid with one status per bus, all connected, so
    that [nb_bus()] is the number of buses; on such a grid [init_Ybus]
    makes both index maps the identity [0, 1, .., n-1], whether it then
    returns or throws because of the slack bus. *)
Theorem init_bus_all_connected (bus_vn_kv : list R) (nb_line nb_trafo : Z) (m : GridModel) :
  let m1 := snd (init_bus bus_vn_kv nb_line nb_trafo m) in
  let m2 := snd (init_Ybus_members m1) in
  fst (init_bus bus_vn_kv nb_line nb_trafo m) = Ok tt /\
  bus_vn_kv_ m1 = bus_vn_kv /\
  bus_status_ m1 = replicate (length bus_vn_kv) true /\
  nb_bus m1 = vec_size bus_vn_kv /\
  id_me_to_solver_ m2 = iota (length bus_vn_kv) /\
  id_solver_to_me_ m2 = iota (length bus_vn_kv).
Proof.
  intros m1 m2.
  assert (Hvn : bus_vn_kv_ m1 = bus_vn_kv) by reflexivity.
  assert (Hst : bus_status_ m1 = replicate (length bus_vn_kv) true).
  { unfold m1, init_bus. do 1 method_run. unfold assign. member_of_assign.
    unfold vec_size. now rewrite Nat2Z.id. }
  split; [reflexivity |]. split; [exact Hvn |]. split; [exact Hst |]. split.
  { rewrite nb_bus_count, Hst, count_connected_replicate. reflexivity. }
  rewrite <- Hvn in Hst.
  destruct (init_Ybus_all_connected
              m1 (mkYbusRefs (Ybus_ m1) (Sbus_ m1) (id_me_to_solver_ m1)
                             (id_solver_to_me_ m1) (slack_bus_id_solver_ m1)) Hst)
    as [Hme Hso].
  rewrite Hvn in Hme, Hso. subst m2. unfold init_Ybus_members.
  destruct (init_Ybus m1 _) as [o refs]. simpl in Hme, Hso.
  member_of_assign. split; assumption.
Qed.

(** ** The order of the PQ buses *)

Lemma fillpv_pq_loop_sorted (slack : Z) (K : nat) (has has' : list bool) (bus_pq : list Z) :
  for_loop (Z.of_nat K) (fillpv_pq_body slack) ([], has) = Ok (bus_pq, has') ->
  StronglySorted Z.lt bus_pq.
Proof.
  intros Hrun.
  apply (for_loop_inv
           (fun (k : nat) (st : list Z * list bool) =>
              StronglySorted Z.lt (fst st) /\ List.Forall (fun x => x < Z.of_nat k) (fst st))
           (fillpv_pq_body slack) K ([], has) (bus_pq, has')); [| | exact Hrun].
  - split; constructor.
  - intros k [pq h] [pq' h'] _ [Hsorted Hbelow] Hbody. simpl in *.
    assert (Hweak : List.Forall (fun x => x < Z.of_nat (Datatypes.S k)) pq).
    { eapply List.Forall_impl; [| exact Hbelow]. simpl. intros x Hx. lia. }
    unfold fillpv_pq_body in Hbody.
    destruct (Z.of_nat k =? slack); [injection Hbody as <- <-; auto |].
    apply bind_Ok in Hbody as (added & _ & Hbody).
    destruct added; [injection Hbody as <- <-; auto |].
    apply bind_Ok in Hbody as (h2 & _ & Hbody). injection Hbody as <- <-.
    split.
    + apply StronglySorted_snoc; assumption.
    + apply List.Forall_app. split; [exact Hweak |]. constructor; [lia | constructor].
Qed.

Lemma fillpv_pq_sorted (id_me_to_solver : list Z) (m m' : GridModel) :
  fillpv_pq id_me_to_solver m = (Ok tt, m') -> StronglySorted Z.lt (bus_pq_ m').
Proof.
  unfold fillpv_pq, mbind, method_bind, member, assign, call, local. simpl.
  destruct (fillpv_elements _ _ _ _) as [[bus_pv has]|e]; [| discriminate]. simpl.
  unfold vec_size.
  destruct (for_loop _ _ _) as [[bus_pq has']|e] eqn:Hloop; [| discriminate].
  intros [= <-]. simpl. exact (fillpv_pq_loop_sorted _ _ _ _ _ Hloop).
Qed.

(** X11.  After the assembly, [bus_pq_] lists the PQ buses in strictly
    increasing order of their solver index. *)
Theorem pre_process_solver_bus_pq_sorted `{Externals} (Vinit : list (R * R)) (is_ac : bool)
        (m m' : GridModel) (V : list (R * R)) :
  pre_process_solver Vinit is_ac m = (Ok V, m') ->
  StronglySorted Z.lt (bus_pq_ m').
Proof.
  intros Hrun.
  apply pre_process_solver_Ok in Hrun
    as (slack & m2 & Ybus & m4 & Sbus & V0 & _ & _ & _ & Hpq & _ & -> & _).
  apply fillpv_pq_sorted in Hpq. member_of_assign. exact Hpq.
Qed.

Lemma pre_process_solver_bus_pq_sorted_witness :
  StronglySorted Z.lt
    (bus_pq_ (snd (pre_process_solver (H := demo_externals) flat_start true two_bus_grid))).
Proof.
  apply (pre_process_solver_bus_pq_sorted
           (H := demo_externals) flat_start true two_bus_grid
           (snd (pre_process_solver (H := demo_externals) flat_start true two_bus_grid))
           [(1%R, 0%R); (1%R, 0%R)]).
  cbv -[Rplus Rminus Rmult Rdiv Rinv Ropp IZR cos sin atan]. reflexivity.
Defined.

(** ** Removing the slack bus in dc_pf_old *)

Lemma skip_slack_inj (slack x y : Z) :
  x <> slack -> y <> slack -> skip_slack slack x = skip_slack slack y -> x = y.
Proof.
  unfold skip_slack. intros Hx Hy.
  destruct (Z.gtb_spec x slack), (Z.gtb_spec y slack); lia.
Qed.

Lemma skip_slack_range (slack K x : Z) :
  0 <= slack < K -> 0 <= x < K -> x <> slack -> 0 <= skip_slack slack x < K - 1.
Proof. unfold skip_slack. intros Hs Hx Hne. destruct (Z.gtb_spec x slack); lia. Qed.

Lemma elem_of_columns (K k : Z) :
  In k (map Z.of_nat (seq 0 (Z.to_nat K))) <-> 0 <= k < K.
Proof.
  rewrite in_map_iff. split.
  - intros (j & <- & Hj). apply in_seq in Hj. lia.
  - intros Hk. exists (Z.to_nat k). split; [lia |]. apply in_seq. lia.
Qed.

(** The triplets of the reduced matrix are the stored coefficients of the
    columns [0 .. nb_bus_solver - 1] outside the row and the column of the
    slack bus, moved up and left by [skip_slack], with their real part. *)
Lemma dc_triplets_spec (dcYbus_tmp : SparseMatrix (R * R)) (nb_bus_solver slack : Z)
      (t : Triplet R) :
  In t (dc_triplets dcYbus_tmp nb_bus_solver slack) <->
  exists it : Triplet (R * R),
    it ∈ sm_coeffs dcYbus_tmp /\
    0 <= t_col it < nb_bus_solver /\ t_col it <> slack /\ t_row it <> slack /\
    t = mkTriplet (skip_slack slack (t_row it)) (skip_slack slack (t_col it))
                  (Creal (t_value it)).
Proof.
  unfold dc_triplets. rewrite in_flat_map. split.
  - intros (k & Hk & Ht). apply elem_of_columns in Hk.
    destruct (Z.eqb_spec k slack) as [|Hne]; [contradiction |].
    apply in_flat_map in Ht as (it & Hit & Ht).
    apply list_elem_of_In, list_elem_of_filter in Hit as [Hcol Hit].
    destruct (Z.eqb_spec (t_row it) slack) as [|Hrow]; [contradiction |].
    destruct Ht as [<- | []]. exists it. subst k. auto.
  - intros (it & Hit & Hcol & Hne & Hrow & ->). exists (t_col it).
    split; [now apply elem_of_columns |].
    destruct (Z.eqb_spec (t_col it) slack) as [|_]; [contradiction |].
    apply in_flat_map. exists it. split.
    + apply list_elem_of_In, list_elem_of_filter. auto.
    + destruct (Z.eqb_spec (t_row it) slack) as [|_]; [contradiction |]. now left.
Qed.

(** X12.  "remove the slack bus from Ybus": for a slack bus among the solver
    buses and a matrix whose stored rows are solver buses, every triplet
    pushed fits the reduced [(nb_bus_solver - 1) x (nb_bus_solver - 1)]
    matrix and comes from a coefficient outside the slack row and column;
    every such coefficient is pushed; and two different positions are never
    merged into one. *)
Theorem dc_triplets_remove_slack (dcYbus_tmp : SparseMatrix (R * R))
        (nb_bus_solver slack : Z) :
  0 <= slack < nb_bus_solver ->
  (forall it, it ∈ sm_coeffs dcYbus_tmp -> 0 <= t_row it < nb_bus_solver) ->
  let shifted (it : Triplet (R * R)) : Triplet R :=
    mkTriplet (skip_slack slack (t_row it)) (skip_slack slack (t_col it))
              (Creal (t_value it)) in
  (forall t : Triplet R,
      In t (dc_triplets dcYbus_tmp nb_bus_solver slack) ->
      0 <= t_row t < nb_bus_solver - 1 /\ 0 <= t_col t < nb_bus_solver - 1 /\
      exists it, it ∈ sm_coeffs dcYbus_tmp /\ t_row it <> slack /\ t_col it <> slack /\
                 t = shifted it) /\
  (forall it : Triplet (R * R),
      it ∈ sm_coeffs dcYbus_tmp -> 0 <= t_col it < nb_bus_solver ->
      t_row it <> slack -> t_col it <> slack ->
      In (shifted it) (dc_triplets dcYbus_tmp nb_bus_solver slack)) /\
  (forall it it' : Triplet (R * R),
      t_row it <> slack -> t_col it <> slack -> t_row it' <> slack -> t_col it' <> slack ->
      t_row (shifted it) = t_row (shifted it') -> t_col (shifted it) = t_col (shifted it') ->
      t_row it = t_row it' /\ t_col it = t_col it').
Proof.
  intros Hslack Hrows shifted. split; [| split].
  - intros t Ht. apply dc_triplets_spec in Ht as (it & Hit & Hcol & Hne & Hrow & ->).
    simpl. split; [apply skip_slack_range; auto |].
    split; [apply skip_slack_range; auto |]. exists it. auto.
  - intros it Hit Hcol Hrow Hne. apply dc_triplets_spec. exists it. auto.
  - intros it it' Hr Hc Hr' Hc' Heqr Heqc. simpl in Heqr, Heqc.
    split; eapply skip_slack_inj; eauto.
Qed.

Lemma dc_triplets_remove_slack_witness :
  In (mkTriplet 0 0 5%R)
     (dc_triplets (mkSparse 2 2 [mkTriplet 0 0 (1%R, 0%R); mkTriplet 1 0 (2%R, 0%R);
                                 mkTriplet 0 1 (3%R, 0%R); mkTriplet 1 1 (5%R, 7%R)]) 2 0).
Proof.
  refine (proj1 (proj2 (dc_triplets_remove_slack
                          (mkSparse 2 2 [mkTriplet 0 0 (1%R, 0%R); mkTriplet 1 0 (2%R, 0%R);
                                         mkTriplet 0 1 (3%R, 0%R); mkTriplet 1 1 (5%R, 7%R)])
                          2 0 _ _))
                (mkTriplet 1 1 (5%R, 7%R)) _ _ _ _).
  - lia.
  - intros it Hit. simpl in Hit.
    repeat (apply elem_of_cons in Hit as [-> | Hit]; [simpl; lia |]).
    now apply elem_of_nil in Hit.
  - simpl. do 3 apply list_elem_of_further. apply list_elem_of_here.
  - simpl. lia.
  - simpl. lia.
  - simpl. lia.
Defined.

(** X13.  "remove the slack bus from Sbus": when the loop runs to its end, the
    reduced right-hand side has the real part of every non-slack entry of
    the assembled [Sbus], at the row [skip_slack] gives to its bus, the
    same shift as for the matrix. *)
Theorem dc_Sbus_remove_slack (Sbus_tmp : list (R * R)) (slack : Z) (K L : nat)
        (Sbus : list R) :
  for_loop (Z.of_nat K) (dc_Sbus_body Sbus_tmp slack) (replicate L 0%R) = Ok Sbus ->
  length Sbus = L /\
  forall k : nat,
    (k < K)%nat -> Z.of_nat k <> slack ->
    exists s : R * R,
      Sbus_tmp !! k = Some s /\
      0 <= skip_slack slack (Z.of_nat k) < Z.of_nat L /\
      Sbus !! Z.to_nat (skip_slack slack (Z.of_nat k)) = Some (Creal s).
Proof.
  intros Hrun.
  apply (for_loop_inv
           (fun (n : nat) (Sbus : list R) =>
              length Sbus = L /\
              forall k : nat,
                (k < n)%nat -> Z.of_nat k <> slack ->
                exists s : R * R,
                  Sbus_tmp !! k = Some s /\
                  0 <= skip_slack slack (Z.of_nat k) < Z.of_nat L /\
                  Sbus !! Z.to_nat (skip_slack slack (Z.of_nat k)) = Some (Creal s))
           (dc_Sbus_body Sbus_tmp slack) K (replicate L 0%R)); [| | exact Hrun].
  - rewrite length_replicate. split; [reflexivity |]. intros k Hk. lia.
  - intros n t t' Hn [Hlen Hprev] Hbody. unfold dc_Sbus_body in Hbody.
    destruct (Z.eqb_spec (Z.of_nat n) slack) as [Heq|Hne].
    + injection Hbody as <-. split; [exact Hlen |]. intros k Hk Hks.
      apply Hprev; [| exact Hks]. assert (k <> n) by (intros ->; contradiction). lia.
    + apply bind_Ok in Hbody as (s & Hs & Hset).
      apply vec_get_Ok in Hs as [_ Hs]. rewrite Nat2Z.id in Hs.
      apply vec_set_Ok in Hset as [Hrange ->]. unfold vec_size in Hrange.
      rewrite length_insert. split; [exact Hlen |]. intros k Hk Hks.
      destruct (Nat.eq_dec k n) as [-> | Hkn].
      * exists s. split; [exact Hs |]. split; [lia |].
        apply list_lookup_insert_eq. lia.
      * destruct (Hprev k) as (s' & Hs' & Hr' & Hat); [lia | exact Hks |].
        exists s'. split; [exact Hs' |]. split; [exact Hr' |].
        rewrite list_lookup_insert_ne; [exact Hat |].
        intros Heq. apply Z2Nat.inj in Heq; [| lia | lia].
        apply skip_slack_inj in Heq; [lia | exact Hne | exact Hks].
Qed.

Lemma dc_Sbus_remove_slack_witness :
  exists Sbus : list R,
    for_loop 2 (dc_Sbus_body [(1%R, 0%R); (2%R, 0%R)] 0) (replicate 1 0%R) = Ok Sbus /\
    length Sbus = 1%nat.
Proof.
  eexists. split; [reflexivity |].
  refine (proj1 (dc_Sbus_remove_slack [(1%R, 0%R); (2%R, 0%R)] 0 2 1 _ _)). reflexivity.
Defined.

(** ** The vectorised updates *)

(** The invariant rule for a loop of member function calls; it holds
    whether the loop runs to its end or a call throws. *)
Lemma method_loop_from_inv (P : GridModel -> Prop) (body : Z -> method unit) :
  forall (count start : nat) (m : GridModel),
    P m ->
    (forall (k : nat) (m1 : GridModel),
        (start <= k < start + count)%nat -> P m1 -> P (snd (body (Z.of_nat k) m1))) ->
    P (snd (method_loop_from (Z.of_nat start) count body m)).
Proof.
  induction count as [|count IH]; intros start m Hm Hstep; simpl; [exact Hm |].
  unfold mbind, method_bind.
  pose proof (Hstep start m ltac:(lia) Hm) as Hfirst.
  destruct (body (Z.of_nat start) m) as [[[]|e] m1]; simpl in *; [| exact Hfirst].
  replace (Z.of_nat start + 1) with (Z.of_nat (Datatypes.S start)) by lia.
  apply IH; [exact Hfirst |]. intros k m2 Hk. apply Hstep. lia.
Qed.

Lemma method_loop_inv (P : GridModel -> Prop) (body : Z -> method unit) (n : nat)
      (m : GridModel) :
  P m ->
  (forall (k : nat) (m1 : GridModel), (k < n)%nat -> P m1 -> P (snd (body (Z.of_nat k) m1))) ->
  P (snd (method_loop (Z.of_nat n) body m)).
Proof.
  intros Hm Hstep. unfold method_loop. rewrite Nat2Z.id.
  apply (method_loop_from_inv P body n O m Hm). intros k m1 Hk. apply Hstep. lia.
Qed.

(** A loop whose every turn returns without a change. *)
Lemma method_loop_from_skip (body : Z -> method unit) (m : GridModel) :
  forall (count start : nat),
    (forall k : nat, (start <= k < start + count)%nat -> body (Z.of_nat k) m = (Ok tt, m)) ->
    method_loop_from (Z.of_nat start) count body m = (Ok tt, m).
Proof.
  induction count as [|count IH]; intros start Hstep; simpl; [reflexivity |].
  unfold mbind, method_bind. rewrite (Hstep start) by lia.
  replace (Z.of_nat start + 1) with (Z.of_nat (Datatypes.S start)) by lia.
  apply IH. intros k Hk. apply Hstep. lia.
Qed.

Lemma method_loop_skip (body : Z -> method unit) (n : nat) (m : GridModel) :
  (forall k : nat, (k < n)%nat -> body (Z.of_nat k) m = (Ok tt, m)) ->
  method_loop (Z.of_nat n) body m = (Ok tt, m).
Proof.
  intros Hstep. unfold method_loop. rewrite Nat2Z.id.
  apply (method_loop_from_skip body m n O). intros k Hk. apply Hstep. lia.
Qed.

(** X14.  [update_continuous_values] calls the member function it is given only
    for the elements flagged in [has_changed], each with its own entry of
    [new_values]: whatever those calls preserve is preserved by the update,
    also when one of them throws and the update stops there; and with no
    element flagged the update returns and the grid is as before, whatever
    [new_values] holds. *)
Theorem update_continuous_values_flagged_only (has_changed : list bool) (new_values : list R)
        (fun_ : Z -> R -> method unit) (m : GridModel) :
  (forall P : GridModel -> Prop,
      P m ->
      (forall (el_id : nat) (v : R) (m1 : GridModel),
          has_changed !! el_id = Some true -> new_values !! el_id = Some v ->
          P m1 -> P (snd (fun_ (Z.of_nat el_id) v m1))) ->
      P (snd (update_continuous_values has_changed new_values fun_ m))) /\
  ((forall el_id : nat, has_changed !! el_id <> Some true) ->
   update_continuous_values has_changed new_values fun_ m = (Ok tt, m)).
Proof.
  unfold update_continuous_values, vec_size. split.
  - intros P Hm Hcall. apply method_loop_inv; [exact Hm |].
    intros k m1 Hk Hm1. unfold update_continuous_values_body.
    unfold mbind, method_bind, local.
    destruct (vec_get has_changed (Z.of_nat k)) as [[|]|e] eqn:Hc; try exact Hm1.
    destruct (vec_get new_values (Z.of_nat k)) as [v|e] eqn:Hv; [| exact Hm1].
    apply vec_get_Ok in Hc as [_ Hc]. apply vec_get_Ok in Hv as [_ Hv].
    rewrite Nat2Z.id in Hc, Hv. now apply Hcall.
  - intros Hnone. apply method_loop_skip. intros k Hk.
    unfold update_continuous_values_body, mbind, method_bind, local.
    destruct (lookup_lt_is_Some_2 has_changed k Hk) as [[|] Hc];
      [now apply Hnone in Hc |].
    rewrite (vec_get_nat _ _ _ Hc). reflexivity.
Qed.

(** One turn of the loop of [update_topo_generic], for an element whose
    position and substation can be read. *)
Lemma update_topo_generic_body_action (has_changed : list bool) (new_values : list Z)
      (vect_pos vect_subid : list Z)
      (fun_react : Z -> method unit) (fun_change : Z -> Z -> method unit)
      (fun_deact : Z -> method unit) (el_id el_pos init_bus_me new_bus : Z) (changed : bool)
      (m : GridModel) :
  vec_get vect_pos el_id = Ok el_pos ->
  vec_get vect_subid el_id = Ok init_bus_me ->
  vec_get has_changed el_pos = Ok changed ->
  vec_get new_values el_pos = Ok new_bus ->
  update_topo_generic_body has_changed new_values vect_pos vect_subid
                           fun_react fun_change fun_deact el_id m
  = if changed
    then perform fun_react fun_change fun_deact
                 (if 0 <? new_bus then Reactivate_and_change el_id new_bus init_bus_me
                  else Deactivate el_id) m
    else (Ok tt, m).
Proof.
  intros Hpos Hsub Hc Hb. unfold update_topo_generic_body.
  unfold mbind at 1, method_bind at 1, local at 1. rewrite Hpos.
  unfold mbind at 1, method_bind at 1, local at 1. rewrite Hc.
  destruct changed; [| reflexivity].
  unfold mbind at 1, method_bind at 1, local at 1. rewrite Hb, Z.gtb_ltb.
  destruct (0 <? new_bus); [| reflexivity].
  unfold mbind at 1, method_bind at 1, local at 1. rewrite Hsub. reflexivity.
Qed.

(** The loop of [update_topo_generic] from element [length pre_pos] on
    carries out the actions of the elements that are left. *)
Lemma update_topo_generic_loop (has_changed : list bool) (new_values : list Z)
      (fun_react : Z -> method unit) (fun_change : Z -> Z -> method unit)
      (fun_deact : Z -> method unit) :
  length new_values = length has_changed ->
  forall (rest_pos rest_sub pre_pos pre_sub : list Z) (m : GridModel),
    length pre_sub = length pre_pos ->
    length rest_sub = length rest_pos ->
    (forall p : Z, p ∈ rest_pos -> 0 <= p < vec_size has_changed) ->
    method_loop_from (Z.of_nat (length pre_pos)) (length rest_pos)
                     (update_topo_generic_body has_changed new_values
                        (pre_pos ++ rest_pos) (pre_sub ++ rest_sub)
                        fun_react fun_change fun_deact) m
    = perform_all fun_react fun_change fun_deact
                  (topo_actions_from has_changed new_values (Z.of_nat (length pre_pos))
                                     rest_pos rest_sub) m.
Proof.
  intros Hvalues.
  induction rest_pos as [|p rest_pos IH]; intros rest_sub pre_pos pre_sub m Hpre Hrest Hrange.
  { reflexivity. }
  destruct rest_sub as [|sb rest_sub]; [discriminate Hrest |].
  injection Hrest as Hrest.
  assert (Hnext : forall m1 : GridModel,
             method_loop_from (Z.of_nat (length pre_pos) + 1) (length rest_pos)
                              (update_topo_generic_body has_changed new_values
                                 (pre_pos ++ p :: rest_pos) (pre_sub ++ sb :: rest_sub)
                                 fun_react fun_change fun_deact) m1
             = perform_all fun_react fun_change fun_deact
                           (topo_actions_from has_changed new_values
                              (Z.of_nat (length pre_pos) + 1) rest_pos rest_sub) m1).
  { intros m1.
    specialize (IH rest_sub (pre_pos ++ [p]) (pre_sub ++ [sb]) m1).
    rewrite <- !app_assoc in IH. cbn [app] in IH.
    replace (Z.of_nat (length (pre_pos ++ [p]))) with (Z.of_nat (length pre_pos) + 1) in IH
      by (rewrite length_app; cbn [length]; lia).
    apply IH.
    - rewrite !length_app. cbn [length]. lia.
    - exact Hrest.
    - intros q Hq. apply Hrange. now apply list_elem_of_further. }
  destruct (Hrange p (list_elem_of_here _ _)) as [Hge Hlt]. unfold vec_size in Hlt.
  assert (Hpos : vec_get (pre_pos ++ p :: rest_pos) (Z.of_nat (length pre_pos)) = Ok p).
  { apply vec_get_nat. rewrite lookup_app_r by lia. now rewrite Nat.sub_diag. }
  assert (Hsub : vec_get (pre_sub ++ sb :: rest_sub) (Z.of_nat (length pre_pos)) = Ok sb).
  { apply vec_get_nat. rewrite lookup_app_r by lia. rewrite Hpre. now rewrite Nat.sub_diag. }
  destruct (lookup_lt_is_Some_2 has_changed (Z.to_nat p) ltac:(lia)) as [c Hc].
  destruct (lookup_lt_is_Some_2 new_values (Z.to_nat p) ltac:(lia)) as [b Hb].
  pose proof (proj2 (vec_get_Ok has_changed p c) (conj Hge Hc)) as Hgc.
  pose proof (proj2 (vec_get_Ok new_values p b) (conj Hge Hb)) as Hgb.
  cbn [method_loop_from length topo_actions_from]. rewrite Hc, Hb.
  unfold mbind at 1, method_bind at 1.
  rewrite (update_topo_generic_body_action _ _ _ _ _ _ _ _ _ _ _ _ m Hpos Hsub Hgc Hgb).
  destruct c; cbn [app]; [| apply Hnext].
  cbn [perform_all]. unfold mbind at 1, method_bind at 1.
  destruct (perform _ _ _ _ m) as [[[]|e] m1]; [apply Hnext | reflexivity].
Qed.

(** X15.  [update_topo_generic] looks only at the topology positions of its own
    elements.  For an element whose position is flagged in [has_changed]
    it calls [fun_deact] when the new value is 0 or negative, and otherwise
    [fun_react] and then [fun_change], with the bus [vect_subid[el_id]]
    when the value is 1 and [vect_subid[el_id] + n_sub_] for every other
    positive value; it makes no other call, so whatever those calls
    preserve is preserved by the update, also when one of them throws.
    When none of its elements is flagged it returns and the grid is as
    before, whatever is flagged at other positions.  Given one substation
    per element and positions inside [has_changed] and [new_values], it
    makes exactly these calls, element after element, up to the first
    that throws. *)
Theorem update_topo_generic_flagged_only (has_changed : list bool) (new_values : list Z)
        (vect_pos vect_subid : list Z)
        (fun_react : Z -> method unit) (fun_change : Z -> Z -> method unit)
        (fun_deact : Z -> method unit) (m : GridModel) :
  (forall P : GridModel -> Prop,
      P m ->
      (forall (el_id : nat) (el_pos new_bus : Z) (m1 : GridModel),
          vect_pos !! el_id = Some el_pos -> 0 <= el_pos ->
          has_changed !! Z.to_nat el_pos = Some true ->
          new_values !! Z.to_nat el_pos = Some new_bus -> new_bus <= 0 ->
          P m1 -> P (snd (fun_deact (Z.of_nat el_id) m1))) ->
      (forall (el_id : nat) (el_pos new_bus init_bus_me : Z) (m1 : GridModel),
          vect_pos !! el_id = Some el_pos -> 0 <= el_pos ->
          has_changed !! Z.to_nat el_pos = Some true ->
          new_values !! Z.to_nat el_pos = Some new_bus -> 0 < new_bus ->
          vect_subid !! el_id = Some init_bus_me ->
          P m1 ->
          P (snd ((fun_react (Z.of_nat el_id);;
                   fun_change (Z.of_nat el_id)
                              (if new_bus =? 1 then init_bus_me
                               else init_bus_me + n_sub_ (grid2op_ m1))) m1))) ->
      P (snd (update_topo_generic has_changed new_values vect_pos vect_subid
                                  fun_react fun_change fun_deact m))) /\
  ((forall (el_id : nat) (el_pos : Z),
       vect_pos !! el_id = Some el_pos ->
       0 <= el_pos /\ has_changed !! Z.to_nat el_pos = Some false) ->
   update_topo_generic has_changed new_values vect_pos vect_subid
                       fun_react fun_change fun_deact m = (Ok tt, m)) /\
  (length vect_subid = length vect_pos ->
   length new_values = length has_changed ->
   (forall el_pos : Z, el_pos ∈ vect_pos -> 0 <= el_pos < vec_size has_changed) ->
   update_topo_generic has_changed new_values vect_pos vect_subid
                       fun_react fun_change fun_deact m
   = perform_all fun_react fun_change fun_deact
                 (topo_actions has_changed new_values vect_pos vect_subid) m).
Proof.
  unfold update_topo_generic, vec_size. split; [| split].
  - intros P Hm Hdeact Hreact. apply method_loop_inv; [exact Hm |].
    intros k m1 Hk Hm1. unfold update_topo_generic_body.
    unfold mbind at 1, method_bind at 1, local at 1.
    destruct (vec_get vect_pos (Z.of_nat k)) as [pos|e] eqn:Hpos; [| exact Hm1].
    apply vec_get_Ok in Hpos as [_ Hpos]. rewrite Nat2Z.id in Hpos.
    unfold mbind at 1, method_bind at 1, local at 1.
    destruct (vec_get has_changed pos) as [[|]|e] eqn:Hc; try exact Hm1.
    apply vec_get_Ok in Hc as [Hge Hc].
    unfold mbind at 1, method_bind at 1, local at 1.
    destruct (vec_get new_values pos) as [b|e] eqn:Hb; [| exact Hm1].
    apply vec_get_Ok in Hb as [_ Hb].
    destruct (Z.gtb_spec b 0) as [Hpos_b|Hneg_b].
    + unfold mbind at 1, method_bind at 1, local at 1.
      destruct (vec_get vect_subid (Z.of_nat k)) as [sub|e] eqn:Hsub; [| exact Hm1].
      apply vec_get_Ok in Hsub as [_ Hsub]. rewrite Nat2Z.id in Hsub.
      unfold mbind at 1, method_bind at 1, member at 1.
      apply (Hreact k pos b sub m1); auto; lia.
    + apply (Hdeact k pos b m1); auto; lia.
  - intros Hnone. apply method_loop_skip.
    intros k Hk. unfold update_topo_generic_body, mbind, method_bind, local.
    destruct (lookup_lt_is_Some_2 vect_pos k Hk) as [pos Hpos].
    rewrite (vec_get_nat _ _ _ Hpos).
    destruct (Hnone k pos Hpos) as [Hge Hc].
    rewrite (proj2 (vec_get_Ok _ _ _) (conj Hge Hc)). reflexivity.
  - intros Hsub Hvalues Hrange. unfold method_loop, topo_actions. rewrite Nat2Z.id.
    exact (update_topo_generic_loop has_changed new_values fun_react fun_change fun_deact
                                    Hvalues vect_pos vect_subid [] [] m eq_refl Hsub Hrange).
Qed.

(** Three elements at the positions 0, 2 and 1 of the topology vector, in
    the substations 0, 1 and 1 of a grid with 3 substations.  Position 0 is
    flagged with the busbar 2: the first element is reactivated and moved
    to the bus 0 + 3.  Position 2 is flagged with -1: the second element is
    deactivated.  Position 1 is not flagged: nothing is asked for the
    third.  Here changing the bus records the bus in [slack_bus_id_] and
    deactivating records the element in [gen_slackbus_]. *)
Lemma update_topo_generic_flagged_only_witness :
  let m := set_grid2op (mkGrid2opAttrs 3 [] [] [] [] [] [] [] [] [] [] [] [] [] [])
                       two_bus_grid in
  update_topo_generic [true; false; true] [2; 1; -1] [0; 2; 1] [0; 1; 1]
                      (fun _ => mret tt)
                      (fun _ new_bus => assign (set_slack_bus_id new_bus))
                      (fun el_id => assign (set_gen_slackbus el_id)) m
  = (Ok tt, set_gen_slackbus 1 (set_slack_bus_id 3 m)).
Proof.
  intros m.
  rewrite (proj2 (proj2 (update_topo_generic_flagged_only
                           [true; false; true] [2; 1; -1] [0; 2; 1] [0; 1; 1]
                           (fun _ => mret tt)
                           (fun _ new_bus => assign (set_slack_bus_id new_bus))
                           (fun el_id => assign (set_gen_slackbus el_id)) m))).
  - reflexivity.
  - reflexivity.
  - reflexivity.
  - intros el_pos Hin. unfold vec_size. cbn [length].
    apply list_elem_of_In in Hin. simpl in Hin.
    destruct Hin as [<- | [<- | [<- | []]]]; lia.
Defined.

(** ** What a dc_pf that returns has done *)

Lemma expand_V_loop_length (bus_status : list bool) (id_me_to_solver : list Z)
      (res_tmp res0 res : list (R * R)) (n : nat) :
  for_loop (Z.of_nat n) (expand_V_body bus_status id_me_to_solver res_tmp) res0 = Ok res ->
  length res = length res0.
Proof.
  intros Hrun.
  apply (for_loop_inv (fun (_ : nat) (r : list (R * R)) => length r = length res0)
                      (expand_V_body bus_status id_me_to_solver res_tmp) n res0 res);
    [reflexivity | | exact Hrun].
  intros k t t' _ Hlen Hbody. unfold expand_V_body in Hbody.
  apply bind_Ok in Hbody as (c & _ & Hbody).
  destruct (negb c); [now injection Hbody as <- |].
  apply bind_Ok in Hbody as (j & _ & Hbody).
  destruct (j =? _deactivated_bus_id); [discriminate |].
  apply bind_Ok in Hbody as (v & _ & Hset).
  apply vec_set_Ok in Hset as [_ ->]. now rewrite length_insert.
Qed.

(** [process_results] when it returns: the flag [need_reset_] tells the
    two paths apart. *)
Lemma process_results_Ok `{Externals} (conv : bool) (Vinit res : list (R * R))
      (m m' : GridModel) :
  process_results conv [] Vinit m = (Ok res, m') ->
  _solver m' = _solver m /\
  (if conv then need_reset_ m' = false /\ length res = length Vinit
   else need_reset_ m' = true /\ res = []).
Proof.
  destruct conv.
  - unfold process_results. intros Hrun.
    apply method_bind_Ok in Hrun as (c & m1 & Hc & Hrun).
    unfold member in Hc. injection Hc as <- <-.
    apply method_bind_Ok in Hrun as ([] & m2 & Hcomp & Hrun).
    assert (Hs2 : _solver m2 = _solver m).
    { destruct (compute_results_ m); [| now injection Hcomp as <-].
      destruct (compute_results_frame m) as [_ Hsame]. rewrite Hcomp in Hsame.
      unpack_same Hsame. symmetry. exact sa_solver. }
    clear Hcomp.
    apply method_bind_Ok in Hrun as ([] & m3 & Hset & Hrun).
    unfold assign in Hset. injection Hset as <-.
    apply method_bind_Ok in Hrun as (res_tmp & m4 & Hget & Hrun).
    unfold member in Hget. injection Hget as _ <-.
    apply method_bind_Ok in Hrun as (nb & m5 & Hnb & Hrun).
    unfold member in Hnb. injection Hnb as <- <-.
    unfold call in Hrun. injection Hrun as Hloop <-.
    unfold vec_size in Hloop. apply expand_V_loop_length in Hloop.
    rewrite length_replicate in Hloop. repeat split; assumption.
  - rewrite process_results_diverged. intros [= <- <-]. repeat split.
Qed.

(** X16.  A call of [dc_pf] that returns was given one voltage per bus and has
    put the solver selection back; it either converged, and then
    [need_reset_] is cleared and the result has one entry per bus, or it
    diverged, and then [need_reset_] is set and the result is the empty
    vector. *)
Theorem dc_pf_returns `{Externals} (Vinit : list (R * R)) (max_iter : Z) (tol : R)
        (m m' : GridModel) (res : list (R * R)) :
  dc_pf Vinit max_iter tol m = (Ok res, m') ->
  get_solver_type m' = get_solver_type m /\
  length Vinit = length (bus_vn_kv_ m) /\
  ((need_reset_ m' = false /\ length res = length (bus_vn_kv_ m)) \/
   (need_reset_ m' = true /\ res = [])).
Proof.
  intros Hrun. split; [exact (dc_pf_restores_solver_type _ _ _ _ _ _ Hrun) |].
  unfold dc_pf in Hrun. method_step Hrun.
  destruct (negb _) eqn:Hsize; [discriminate |].
  apply negb_false_iff, Z.eqb_eq in Hsize. unfold vec_size in Hsize.
  apply Nat2Z.inj in Hsize. split; [exact Hsize |].
  apply method_bind_Ok in Hrun as (t & m0 & _ & Hrun).
  apply method_bind_Ok in Hrun as ([] & m1 & _ & Hrun).
  apply method_bind_Ok in Hrun as (V & m2 & _ & Hrun).
  apply method_bind_Ok in Hrun as (conv & m3 & _ & Hrun).
  apply method_bind_Ok in Hrun as (res' & m4 & Hproc & Hrun).
  apply method_bind_Ok in Hrun as ([] & m5 & Hback & Hrun).
  injection Hrun as <- <-. unfold assign in Hback. injection Hback as <-.
  apply process_results_Ok in Hproc as [_ Hproc]. member_of_assign.
  destruct conv; [left | right]; destruct Hproc; split; congruence.
Qed.

Lemma dc_pf_returns_witness :
  get_solver_type
    (snd (dc_pf (H := demo_externals) flat_start 10 (1 / 100000000)%R two_bus_grid))
  = get_solver_type two_bus_grid.
Proof.
  refine (proj1 (dc_pf_returns
                   (H := demo_externals) flat_start 10 (1 / 100000000)%R two_bus_grid
                   (snd (dc_pf (H := demo_externals) flat_start 10 (1 / 100000000)%R
                               two_bus_grid))
                   [(1%R, 0%R); (1%R, 0%R)] _)).
  cbv -[Rplus Rminus Rmult Rdiv Rinv Ropp IZR cos sin atan]. reflexivity.
Defined.

(** ** The state tuple *)

(** X17.  Loading a state tuple and capturing the state again gives the tuple
    back, whatever grid it is loaded into; the loaded grid has
    [need_reset_] and [compute_results_] set (also when the computation of
    the results was deactivated before) and keeps the solver selection of
    the grid it is loaded into, which is not part of the tuple; and two
    grids loaded from the same tuple with the same solver selected end
    [ac_pf] alike. *)
Theorem get_state_set_state `{Externals} (my_state : StateRes) (m0 m0' : GridModel)
        (Vinit : list (R * R)) (max_iter : Z) (tol : R) :
  let m1 := snd (set_state my_state m0) in
  get_state m1 = my_state /\
  need_reset_ m1 = true /\ compute_results_ m1 = true /\
  get_solver_type m1 = get_solver_type m0 /\
  (get_solver_type m0 = get_solver_type m0' ->
   fst (ac_pf Vinit max_iter tol m1)
   = fst (ac_pf Vinit max_iter tol (snd (set_state my_state m0')))).
Proof.
  intros m1. split; [destruct my_state; reflexivity |].
  split; [reflexivity |]. split; [reflexivity |]. split; [reflexivity |].
  intros Htype.
  assert (Hin : same_inputs m1 (snd (set_state my_state m0')))
    by (split; try reflexivity; exact Htype).
  pose proof (sim_ac_pf Vinit max_iter tol _ _ Hin) as Hsim.
  destruct (fst (ac_pf Vinit max_iter tol m1)) as [V1|e1],
           (fst (ac_pf Vinit max_iter tol (snd (set_state my_state m0')))) as [V2|e2];
    try contradiction.
  - destruct Hsim as [-> _]. reflexivity.
  - now subst e2.
Qed.

(** ** The system handed to the solver *)

Lemma fillYbus_shape `{Externals} (m : GridModel) (res Ybus : SparseMatrix (R * R))
      (ac : bool) (id_me_to_solver : list Z) :
  fillYbus m res ac id_me_to_solver = Ok Ybus ->
  sm_rows Ybus = sm_rows res /\ sm_cols Ybus = sm_cols res.
Proof.
  unfold fillYbus. intros Hrun.
  do 5 (apply bind_Ok in Hrun as (? & _ & Hrun)).
  injection Hrun as <-. split; reflexivity.
Qed.

Lemma init_Ybus_members_Ybus (m m' : GridModel) :
  init_Ybus_members m = (Ok tt, m') ->
  Ybus_ m' = sparse_zero (vec_size (id_solver_to_me_ m')).
Proof.
  unfold init_Ybus_members. destruct (init_Ybus _ _) as [o refs] eqn:Hraw.
  intros [= -> <-]. apply init_Ybus_Ok in Hraw as (_ & _ & HYb & _). exact HYb.
Qed.

Lemma fillpv_pq_classification (id_me_to_solver : list Z) (m m' : GridModel) :
  fillpv_pq id_me_to_solver m = (Ok tt, m') ->
  0 <= slack_bus_id_solver_ m < vec_size (id_solver_to_me_ m) ->
  classification (vec_size (id_solver_to_me_ m)) (slack_bus_id_solver_ m)
                 (bus_pv_ m') (bus_pq_ m').
Proof.
  intros Hrun Hrange.
  apply fillpv_pq_Ok in Hrun as (bus_pv & bus_pq & -> & Hclass); [| exact Hrange].
  exact Hclass.
Qed.

(** X18.  After a pre-processing that returns, the members handed to the solver
    fit together: [Ybus_] is a K x K matrix for the K entries of
    [id_solver_to_me_], K is the number of buses marked connected, and
    every index in [bus_pv_] and [bus_pq_] is a row of the matrix. *)
Theorem pre_process_solver_system `{Externals} (Vinit : list (R * R)) (is_ac : bool)
        (m m' : GridModel) (V : list (R * R)) :
  pre_process_solver Vinit is_ac m = (Ok V, m') ->
  let K := vec_size (id_solver_to_me_ m') in
  K = Z.of_nat (count_connected (take (length (bus_vn_kv_ m)) (bus_status_ m))) /\
  sm_rows (Ybus_ m') = K /\ sm_cols (Ybus_ m') = K /\
  (forall x : Z, x ∈ bus_pv_ m' \/ x ∈ bus_pq_ m' -> 0 <= x < K).
Proof.
  intros Hrun K. subst K.
  pose proof (pre_process_solver_post _ _ _ _ _ Hrun) as (_ & _ & _ & _ & Hmaps & _).
  split; [unfold vec_size; now rewrite (maps_length_solver _ _ _ Hmaps) |].
  clear Hmaps.
  apply pre_process_solver_Ok in Hrun
    as (slack & m2 & Ybus & m4 & Sbus & V0 & _ & Hinit & HY & Hpq & HS & Hm' & _).
  pose proof (init_Ybus_members_Ybus _ _ Hinit) as Hshape.
  apply init_Ybus_members_stage in Hinit as (_ & _ & _ & _ & _ & _ & _ & Hrange).
  apply fillYbus_shape in HY as [Hrows Hcols]. rewrite Hshape in Hrows, Hcols.
  simpl in Hrows, Hcols. clear Hshape.
  destruct (set_Ybus_stage Ybus m2) as (_ & _ & _ & _ & Hss3 & _ & Hso3).
  assert (HY3 : Ybus_ (set_Ybus Ybus m2) = Ybus) by reflexivity.
  revert Hpq HY3 Hss3 Hso3. generalize (set_Ybus Ybus m2). intros m3 Hpq HY3 Hss3 Hso3.
  pose proof (fillpv_pq_classification _ _ _ Hpq) as Hclass.
  rewrite Hss3, Hso3 in Hclass. specialize (Hclass Hrange).
  apply fillpv_pq_stage in Hpq as (_ & _ & _ & _ & Hss4 & _ & Hso4 & HY4 & _).
  destruct (Sbus_stage Sbus m4) as (_ & _ & _ & _ & _ & _ & Hso5 & _ & HY5 & Hpv5 & Hpq5).
  rewrite <- Hm' in Hso5, HY5, Hpv5, Hpq5. clear Hm' HS.
  rewrite Hso5, Hso4, Hso3, HY5, HY4, HY3, Hpv5, Hpq5.
  split; [exact Hrows |]. split; [exact Hcols |].
  intros x Hx. destruct Hclass as (_ & _ & _ & _ & _ & Hcover). apply Hcover. tauto.
Qed.

Lemma pre_process_solver_system_witness :
  sm_rows (Ybus_ (snd (pre_process_solver (H := demo_externals) flat_start true two_bus_grid)))
  = vec_size (id_solver_to_me_
                (snd (pre_process_solver (H := demo_externals) flat_start true two_bus_grid))).
Proof.
  refine (proj1 (proj2
            (pre_process_solver_system
               (H := demo_externals) flat_start true two_bus_grid
               (snd (pre_process_solver (H := demo_externals) flat_start true two_bus_grid))
               [(1%R, 0%R); (1%R, 0%R)] _))).
  cbv -[Rplus Rminus Rmult Rdiv Rinv Ropp IZR cos sin atan]. reflexivity.
Defined.

(** ** Counting the connected buses *)

(** X19.  [nb_bus()] counts the buses whose status is true: it lies between 0
    and the number of statuses, and reaches that number exactly when every
    bus is connected. *)
Theorem nb_bus_bounds (m : GridModel) :
  0 <= nb_bus m <= vec_size (bus_status_ m) /\
  (nb_bus m = vec_size (bus_status_ m) <->
   forall i : nat, (i < length (bus_status_ m))%nat -> bus_status_ m !! i = Some true) /\
  (nb_bus m = 0 <->
   forall i : nat, (i < length (bus_status_ m))%nat -> bus_status_ m !! i = Some false).
Proof.
  rewrite nb_bus_count. unfold vec_size, count_connected.
  generalize (bus_status_ m). intros l.
  induction l as [|b l (Hb & Hall & Hnone)]; simpl.
  - split; [lia |]. split; split; try reflexivity; intros _ i Hi; lia.
  - destruct (bool_dec b true) as [-> | Hne].
    + split; [lia |]. split; split.
      * intros Heq [|i] Hi; [reflexivity |]. apply Hall; lia.
      * intros Hl. assert (Hl' : forall i, (i < length l)%nat -> l !! i = Some true).
        { intros i Hi. apply (Hl (Datatypes.S i)). lia. }
        apply Hall in Hl'. lia.
      * lia.
      * intros Hl. specialize (Hl O ltac:(lia)). discriminate.
    + apply not_true_is_false in Hne. subst b. split; [lia |]. split; split.
      * lia.
      * intros Hl. specialize (Hl O ltac:(lia)). discriminate.
      * intros Heq [|i] Hi; [reflexivity |]. apply Hnone; lia.
      * intros Hl. apply Hnone. intros i Hi. apply (Hl (Datatypes.S i)). lia.
Qed.

(** ** What a solve writes *)

Lemma field_kept_bind {A B C} (f : GridModel -> C) (x : method A) (k : A -> method B) :
  field_kept f x -> (forall a, field_kept f (k a)) -> field_kept f (x ≫= k).
Proof.
  intros Hx Hk m. unfold mbind, method_bind. specialize (Hx m).
  destruct (x m) as [[a|e] m1]; simpl in *; [| exact Hx].
  now rewrite (Hk a m1).
Qed.

Lemma field_kept_member {A C} (f : GridModel -> C) (g : GridModel -> A) :
  field_kept f (member g).
Proof. intros m. reflexivity. Qed.

Lemma field_kept_assign {C} (f : GridModel -> C) (g : GridModel -> GridModel) :
  (forall m, f (g m) = f m) -> field_kept f (assign g).
Proof. intros Hg m. apply Hg. Qed.

(** A member that [compute_results] does not assign. *)
Ltac compute_results_keeps :=
  unfold compute_results;
  repeat first
    [ apply field_kept_bind; [apply field_kept_member | intros ?]
    | apply field_kept_bind; [apply field_kept_assign; intros ?; reflexivity | intros []]
    | apply field_kept_assign; intros ?; reflexivity ].

(** X20.  [compute_results] writes nothing but the results of the lines,
    transformers, loads, shunts and generators: the grid solves as before
    (same buses, elements, index maps, matrices, classification and
    solver), the flags are as before, and so are the static generators and
    the storage units, whose results it does not compute. *)
Theorem compute_results_writes_results_only `{Externals} (m : GridModel) :
  let m' := snd (compute_results m) in
  same_solve_state m m' /\
  DataGen.q_vector (generators_ m') = DataGen.q_vector (generators_ m) /\
  sgens_ m' = sgens_ m /\ storages_ m' = storages_ m /\
  need_reset_ m' = need_reset_ m /\ compute_results_ m' = compute_results_ m /\
  init_vm_pu_ m' = init_vm_pu_ m /\ sn_mva_ m' = sn_mva_ m /\
  grid2op_ m' = grid2op_ m.
Proof.
  intros m'. subst m'. destruct (compute_results_frame m) as [_ Hsame].
  split; [exact Hsame |]. clear Hsame.
  split; [| split; [| split; [| split; [| split; [| split; [| split]]]]]].
  - revert m.
    change (field_kept (fun m => DataGen.q_vector (generators_ m)) compute_results).
    compute_results_keeps.
  - revert m. change (field_kept sgens_ compute_results). compute_results_keeps.
  - revert m. change (field_kept storages_ compute_results). compute_results_keeps.
  - revert m. change (field_kept need_reset_ compute_results). compute_results_keeps.
  - revert m. change (field_kept compute_results_ compute_results). compute_results_keeps.
  - revert m. change (field_kept init_vm_pu_ compute_results). compute_results_keeps.
  - revert m. change (field_kept sn_mva_ compute_results). compute_results_keeps.
  - revert m. change (field_kept grid2op_ compute_results). compute_results_keeps.
Qed.

(** X21.  However a call of [ac_pf] ends (the voltages, the empty vector or an
    exception), it leaves the buses, the elements of the lines, shunts,
    transformers, generators and loads, the slack generator id and the
    solver selection as they were: a solve writes only what it assembles,
    the solver, the results and [need_reset_]. *)
Theorem ac_pf_keeps_inputs `{Externals} (Vinit : list (R * R)) (max_iter : Z) (tol : R)
        (m : GridModel) :
  let m' := snd (ac_pf Vinit max_iter tol m) in
  bus_vn_kv_ m' = bus_vn_kv_ m /\ bus_status_ m' = bus_status_ m /\
  elems (powerlines_ m') = elems (powerlines_ m) /\
  elems (shunts_ m') = elems (shunts_ m) /\
  elems (trafos_ m') = elems (trafos_ m) /\
  DataGen.gens (generators_ m') = DataGen.gens (generators_ m) /\
  elems (loads_ m') = elems (loads_ m) /\
  gen_slackbus_ m' = gen_slackbus_ m /\
  get_solver_type m' = get_solver_type m /\
  get_state m' = get_state m.
Proof.
  intros m'. pose proof (ac_pf_inputs_kept Vinit max_iter tol m) as Hin.
  fold m' in Hin. unpack_inputs Hin.
  repeat (split; [assumption |]). apply get_state_reads; assumption.
Qed.

(** ** The entries of Vinit at disconnected buses *)

(** Two bodies that agree on the turns of a loop give the same loop. *)
Lemma for_loop_from_ext {S} (body body' : Z -> S -> outcome S) :
  forall (count start : nat) (s : S),
    (forall (k : nat) (t : S), (start <= k < start + count)%nat ->
                               body (Z.of_nat k) t = body' (Z.of_nat k) t) ->
    for_loop_from (Z.of_nat start) count body s = for_loop_from (Z.of_nat start) count body' s.
Proof.
  induction count as [|count IH]; intros start s Hext; simpl; [reflexivity |].
  rewrite (Hext start s) by lia. destruct (body' (Z.of_nat start) s) as [s'|e]; simpl;
    [| reflexivity].
  replace (Z.of_nat start + 1) with (Z.of_nat (Datatypes.S start)) by lia.
  apply IH. intros k t Hk. apply Hext. lia.
Qed.

Lemma for_loop_ext {S} (body body' : Z -> S -> outcome S) (n : nat) (s : S) :
  (forall (k : nat) (t : S), (k < n)%nat -> body (Z.of_nat k) t = body' (Z.of_nat k) t) ->
  for_loop (Z.of_nat n) body s = for_loop (Z.of_nat n) body' s.
Proof.
  intros Hext. unfold for_loop. rewrite Nat2Z.id.
  apply (for_loop_from_ext body body' n O s). intros k t Hk. apply Hext. lia.
Qed.

Lemma local_run {A B} (o : outcome A) (f : A -> method B) (m : GridModel) (a : A) :
  o = Ok a -> (local o ≫= f) m = f a m.
Proof. intros ->. reflexivity. Qed.

(** The stages of [pre_process_solver], run forwards. *)
Lemma pre_process_solver_run `{Externals} (Vinit : list (R * R)) (is_ac : bool)
      (m m2 m4 : GridModel) (slack : Z) (Ybus : SparseMatrix (R * R))
      (Sbus V0 V : list (R * R)) :
  DataGen.get_slack_bus_id (generators_ m) (gen_slackbus_ m) = Ok slack ->
  init_Ybus_members (set_slack_bus_id slack (after_reset m)) = (Ok tt, m2) ->
  fillYbus m2 (Ybus_ m2) is_ac (id_me_to_solver_ m2) = Ok Ybus ->
  fillpv_pq (id_me_to_solver_ m2) (set_Ybus Ybus m2) = (Ok tt, m4) ->
  fillSbus_me (set_generators
                 (DataGen.init_q_vector (generators_ m4) (vec_size (bus_vn_kv_ m4))) m4)
              (Sbus_ m4) is_ac (id_me_to_solver_ m4) (slack_bus_id_solver_ m4) = Ok Sbus ->
  for_loop (vec_size (id_solver_to_me_ m4))
           (extract_Vinit_body (id_solver_to_me_ m4) Vinit)
           (replicate (Z.to_nat (vec_size (id_solver_to_me_ m4))) ((104 / 100)%R, 0%R))
  = Ok V0 ->
  DataGen.set_vm (DataGen.init_q_vector (generators_ m4) (vec_size (bus_vn_kv_ m4)))
                 V0 (id_me_to_solver_ m4) = Ok V ->
  pre_process_solver Vinit is_ac m
  = (Ok V, set_Sbus Sbus
             (set_generators
                (DataGen.init_q_vector (generators_ m4) (vec_size (bus_vn_kv_ m4))) m4)).
Proof.
  intros Hslack Hinit HY Hpq HS HV0 HV.
  unfold pre_process_solver. method_run.
  rewrite (call_run _ _ _ slack) by exact Hslack. method_run.
  rewrite (method_bind_run _ _ _ _ _ Hinit).
  rewrite (call_run _ _ _ Ybus) by exact HY. method_run. method_run.
  rewrite (method_bind_run _ _ _ m4 tt) by exact Hpq.
  method_run.
  rewrite (call_run _ _ _ Sbus) by exact HS. method_run. method_run.
  cbv zeta. member_of_assign.
  rewrite (local_run _ _ _ V0) by exact HV0.
  unfold call. member_of_assign. now rewrite HV.
Qed.

Lemma process_results_Vinit_size `{Externals} (conv : bool) (res Vinit Vinit' : list (R * R)) :
  length Vinit' = length Vinit ->
  process_results conv res Vinit' = process_results conv res Vinit.
Proof. intros Hlen. unfold process_results. now rewrite Hlen. Qed.

(** X22.  The entries of [Vinit] at disconnected buses are ignored, as the
    message of the size check promises ("Components of Vinit corresponding
    to deactivated bus will be ignored anyway"): a call of [ac_pf] that
    returns ends in the same way, with the same voltages and the same grid,
    for every other [Vinit] of the same size that agrees with it at the
    connected buses. *)
Theorem ac_pf_ignores_Vinit_at_disconnected_buses `{Externals}
        (Vinit Vinit' : list (R * R)) (max_iter : Z) (tol : R) (m m' : GridModel)
        (res : list (R * R)) :
  length Vinit' = length Vinit ->
  (forall i : nat, bus_status_ m !! i = Some true -> Vinit' !! i = Vinit !! i) ->
  ac_pf Vinit max_iter tol m = (Ok res, m') ->
  ac_pf Vinit' max_iter tol m = (Ok res, m').
Proof.
  intros Hlen Hagree Hrun.
  apply ac_pf_Ok in Hrun as (Hsize & V & m1 & conv & s & Hpre & Hconv & Hproc).
  assert (Hpre' : pre_process_solver Vinit' true m = (Ok V, m1)).
  { apply pre_process_solver_Ok in Hpre
      as (slack & m2 & Ybus & m4 & Sbus & V0 & Hslack & Hinit & HY & Hpq & HS & -> & HV0 & HV).
    apply (pre_process_solver_run Vinit' true m m2 m4 slack Ybus Sbus V0 V); try assumption.
    rewrite <- HV0. unfold vec_size at 1 3.
    apply for_loop_ext. intros k t Hk. unfold extract_Vinit_body.
    destruct (vec_get (id_solver_to_me_ m4) (Z.of_nat k)) as [i|e] eqn:Hi; [| reflexivity].
    cbn [mbind outcome_bind].
    enough (Hsame : vec_get Vinit' i = vec_get Vinit i) by now rewrite Hsame.
    apply vec_get_Ok in Hi as [_ Hi]. rewrite Nat2Z.id in Hi.
    (* [i] is a connected bus *)
    destruct (reset_stage m slack) as (Hu0 & _).
    pose proof (init_Ybus_members_stage _ _ Hinit) as (_ & _ & _ & _ & _ & Hmaps & _).
    rewrite (ut_bus_status _ _ Hu0), (ut_bus_vn_kv _ _ Hu0) in Hmaps.
    destruct (set_Ybus_stage Ybus m2) as (_ & _ & _ & _ & _ & _ & Hso3).
    apply fillpv_pq_stage in Hpq as (_ & _ & _ & _ & _ & _ & Hso4 & _).
    rewrite Hso4, Hso3 in Hi.
    assert (Hin : In i (id_solver_to_me_ m2)).
    { apply list_elem_of_In. eapply list_elem_of_lookup_2. exact Hi. }
    apply (maps_lists_connected _ _ _ Hmaps) in Hin as (b & -> & Hb).
    apply lookup_take_Some in Hb as [Hb _].
    unfold vec_get. rewrite Nat2Z.id, (Hagree b Hb). reflexivity. }
  unfold ac_pf. method_run. unfold vec_size in *. rewrite Hlen, Hsize, Z.eqb_refl.
  cbn [negb]. rewrite (method_bind_run _ _ _ _ _ Hpre').
  assert (Hsolve : solver_compute_pf V max_iter tol m1 = (Ok conv, set_solver s m1)).
  { unfold solver_compute_pf. now rewrite Hconv. }
  rewrite (method_bind_run _ _ _ _ _ Hsolve).
  rewrite (process_results_Vinit_size _ _ _ _ Hlen). exact Hproc.
Qed.

Lemma ac_pf_ignores_Vinit_at_disconnected_buses_witness :
  ac_pf (H := demo_externals) [(1%R, 0%R); (7%R, 7%R)] 10 (1 / 100000000)%R
        (set_bus_status [true; false] two_bus_grid)
  = ac_pf (H := demo_externals) flat_start 10 (1 / 100000000)%R
          (set_bus_status [true; false] two_bus_grid).
Proof.
  rewrite (surjective_pairing
             (ac_pf (H := demo_externals) flat_start 10 (1 / 100000000)%R
                    (set_bus_status [true; false] two_bus_grid))) at 1.
  apply (ac_pf_ignores_Vinit_at_disconnected_buses
           (H := demo_externals) flat_start [(1%R, 0%R); (7%R, 7%R)] 10 (1 / 100000000)%R
           (set_bus_status [true; false] two_bus_grid)
           (snd (ac_pf (H := demo_externals) flat_start 10 (1 / 100000000)%R
                       (set_bus_status [true; false] two_bus_grid)))
           [(1%R, 0%R); Czero]).
  - reflexivity.
  - intros [|[|i]] Hi; [reflexivity | discriminate | discriminate].
  - cbv -[Rplus Rminus Rmult Rdiv Rinv Ropp IZR cos sin atan]. reflexivity.
Defined.

(** ** What an ac_pf that returns has done *)

(** X23.  A call of [ac_pf] that returns was given one voltage per bus and went
    one of two ways, which [need_reset_] tells apart: the solver converged,
    [need_reset_] is cleared and the result has one entry per bus; or it
    diverged, [need_reset_] is set and the result is the empty vector.  So
    on a grid that has buses the empty result means divergence and nothing
    else. *)
Theorem ac_pf_returns `{Externals} (Vinit : list (R * R)) (max_iter : Z) (tol : R)
        (m m' : GridModel) (res : list (R * R)) :
  ac_pf Vinit max_iter tol m = (Ok res, m') ->
  length Vinit = length (bus_vn_kv_ m) /\
  ((need_reset_ m' = false /\ length res = length (bus_vn_kv_ m)) \/
   (need_reset_ m' = true /\ res = [])) /\
  (bus_vn_kv_ m <> [] -> (res = [] <-> need_reset_ m' = true)).
Proof.
  intros Hrun.
  apply ac_pf_Ok in Hrun as (Hsize & V & m1 & conv & s & _ & _ & Hproc).
  unfold vec_size in Hsize. apply Nat2Z.inj in Hsize.
  apply process_results_Ok in Hproc as [_ Hproc].
  split; [exact Hsize |].
  destruct conv; destruct Hproc as [Hnr Hres].
  - rewrite Hsize in Hres. split; [left; auto |].
    intros Hbuses. rewrite Hnr. split; [| discriminate].
    intros ->. destruct (bus_vn_kv_ m); [contradiction | discriminate].
  - split; [right; auto |]. intros _. rewrite Hnr. split; auto.
Qed.

Lemma ac_pf_returns_witness :
  length flat_start = length (bus_vn_kv_ two_bus_grid).
Proof.
  refine (proj1 (ac_pf_returns
                   (H := demo_externals) flat_start 10 (1 / 100000000)%R two_bus_grid
                   (snd (ac_pf (H := demo_externals) flat_start 10 (1 / 100000000)%R
                               two_bus_grid))
                   [(1%R, 0%R); (1%R, 0%R)] _)).
  cbv -[Rplus Rminus Rmult Rdiv Rinv Ropp IZR cos sin atan]. reflexivity.
Defined.
